(** * Entity and calendar-event extraction pipeline: a shallow embedding

    The development follows [src/ai/services/entity_extraction.py]
    (class [EntityExtractionService]) and [src/ai/services/ner_service.py]
    (class [NERService]).

    Conventions of the model:
    - a Python [str] is a [string]; code points are restricted to ASCII, so
      [str.lower], [str.strip], [\d], [\s], [\w] are the ASCII readings of
      the Unicode-aware originals;
    - a Python [int] is a [Z] where it can be negative (NER offsets) and a
      [nat] where the code only ever produces an offset into the text;
    - a [float] confidence is a rational constant ([Q]); the code never
      computes with it;
    - regular expressions are syntax trees run by a backtracking matcher
      that follows the leftmost-first, greedy discipline of Python's [re];
    - the libraries the services call (e-mail validation, phone number
      parsing, the fuzzy date parser, the clock, the NER models) are fields
      of an environment record. *)

From Stdlib Require Import ZArith QArith Ascii String List Lia.
From Stdlib Require Import Sorting.Sorted Sorting.Permutation.
From stdpp Require Import gmap strings list fin_maps.

Local Open Scope string_scope.
Local Open Scope nat_scope.
Local Open Scope list_scope.

(* ===================================================================== *)
(** ** Python string operations                                          *)
(* ===================================================================== *)

Module PyStr.

Definition code (c : ascii) : nat := nat_of_ascii c.

Definition between (lo hi : nat) (c : ascii) : bool :=
  (lo <=? code c) && (code c <=? hi).

(** [str.isspace] on one ASCII character: TAB..CR, FS..US and SPACE. *)
Definition is_space (c : ascii) : bool :=
  between 9 13 c || between 28 32 c.

Definition is_digit (c : ascii) : bool := between 48 57 c.
Definition is_upper (c : ascii) : bool := between 65 90 c.
Definition is_lower (c : ascii) : bool := between 97 122 c.
Definition is_alpha (c : ascii) : bool := is_upper c || is_lower c.

(** The class [\w]: letters, digits and the underscore. *)
Definition is_word (c : ascii) : bool :=
  is_alpha c || is_digit c || (code c =? 95).

Definition lower_char (c : ascii) : ascii :=
  if is_upper c then ascii_of_nat (code c + 32) else c.

Definition upper_char (c : ascii) : ascii :=
  if is_lower c then ascii_of_nat (code c - 32) else c.

(** [s.lower()] *)
Fixpoint lower (s : string) : string :=
  match s with
  | EmptyString => EmptyString
  | String c t => String (lower_char c) (lower t)
  end.

(** [s.title()]: the first letter of every run of letters in upper case,
    the others in lower case. *)
Fixpoint title_from (prev_cased : bool) (s : string) : string :=
  match s with
  | EmptyString => EmptyString
  | String c t =>
      String (if is_alpha c
              then (if prev_cased then lower_char c else upper_char c)
              else c)
             (title_from (is_alpha c) t)
  end.

Definition title (s : string) : string := title_from false s.

Fixpoint lstrip (s : string) : string :=
  match s with
  | EmptyString => EmptyString
  | String c t => if is_space c then lstrip t else s
  end.

(** [rstrip] keeps a character when it is not a space or when something
    survives to its right. *)
Fixpoint rstrip (s : string) : string :=
  match s with
  | EmptyString => EmptyString
  | String c t =>
      match rstrip t with
      | EmptyString => if is_space c then EmptyString else String c EmptyString
      | t' => String c t'
      end
  end.

(** [s.strip()] *)
Definition strip (s : string) : string := rstrip (lstrip s).

Definition is_empty (s : string) : bool :=
  match s with EmptyString => true | _ => false end.

(** [s.startswith(p)] *)
Fixpoint startswith (p s : string) : bool :=
  match p, s with
  | EmptyString, _ => true
  | String _ _, EmptyString => false
  | String a p', String b s' => if Ascii.eqb a b then startswith p' s' else false
  end.

(** [needle in hay] *)
Fixpoint str_in (needle hay : string) : bool :=
  startswith needle hay ||
  match hay with
  | EmptyString => false
  | String _ t => str_in needle t
  end.

Fixpoint drop (n : nat) (s : string) : string :=
  match n, s with
  | O, _ => s
  | S _, EmptyString => EmptyString
  | S n', String _ t => drop n' t
  end.

Fixpoint take (n : nat) (s : string) : string :=
  match n, s with
  | O, _ => EmptyString
  | S _, EmptyString => EmptyString
  | S n', String c t => String c (take n' t)
  end.

(** [s[a:b]] for offsets that are not negative. *)
Definition slice (a b : nat) (s : string) : string :=
  take (b - a) (drop a s).

(** One bound of a slice as Python reads it: a negative index counts from
    the end, and the result is clipped to [0, len]. *)
Definition clip_index (len i : Z) : nat :=
  Z.to_nat (Z.min len (Z.max 0 (if (i <? 0)%Z then (len + i)%Z else i))).

(** [s[a:b]] for arbitrary integers. *)
Definition py_slice (a b : Z) (s : string) : string :=
  let len := Z.of_nat (String.length s) in
  slice (clip_index len a) (clip_index len b) s.

(** [s.split(c)] for a one-character separator: never the empty list. *)
Fixpoint split_char (c : ascii) (s : string) : list string :=
  match s with
  | EmptyString => [EmptyString]
  | String a t =>
      if Ascii.eqb a c then EmptyString :: split_char c t
      else match split_char c t with
           | [] => [String a EmptyString]
           | w :: ws => String a w :: ws
           end
  end.

(** [s.split()]: the maximal runs of characters that are not spaces.
    [cur] is the run being read, in reverse. *)
Fixpoint split_ws_from (cur : list ascii) (s : string) : list string :=
  let flush (rest : list string) :=
    match cur with
    | [] => rest
    | _ => string_of_list_ascii (rev cur) :: rest
    end in
  match s with
  | EmptyString => flush []
  | String c t =>
      if is_space c then flush (split_ws_from [] t)
      else split_ws_from (c :: cur) t
  end.

Definition split_ws (s : string) : list string := split_ws_from [] s.

(** [s.split(sep)] for a separator of at least one character, scanning
    left to right; [skip] counts the characters of a separator that was
    just recognised and [cur] is the piece being read, in reverse. *)
Fixpoint split_sub_from (sep : string) (skip : nat) (cur : list ascii)
    (s : string) : list string :=
  match s with
  | EmptyString => [string_of_list_ascii (rev cur)]
  | String c t =>
      match skip with
      | S k => split_sub_from sep k cur t
      | O =>
          if startswith sep s
          then string_of_list_ascii (rev cur)
               :: split_sub_from sep (String.length sep - 1) [] t
          else split_sub_from sep 0 (c :: cur) t
      end
  end.

Definition split_sub (sep s : string) : list string :=
  split_sub_from sep 0 [] s.

(** Every character of [s] satisfies [ok]. *)
Fixpoint all_of (ok : ascii -> bool) (s : string) : bool :=
  match s with
  | EmptyString => true
  | String c t => ok c && all_of ok t
  end.

(** [sep.join(pieces)] *)
Fixpoint join (sep : string) (pieces : list string) : string :=
  match pieces with
  | [] => EmptyString
  | [p] => p
  | p :: rest => p +:+ sep +:+ join sep rest
  end.

End PyStr.

(* ===================================================================== *)
(** ** Regular expressions: the fragment of Python's [re] the services use *)
(* ===================================================================== *)

Module Re.

Import PyStr.

(** An item of a bracketed character class. *)
Inductive citem : Type :=
| IChar (c : ascii)            (* a literal character *)
| IRange (lo hi : ascii)       (* lo-hi *)
| IDigit                       (* \d *)
| ISpace.                      (* \s *)

Inductive regex : Type :=
| REps                                   (* the empty pattern *)
| RChar (c : ascii)                      (* a literal character *)
| RSet (negated : bool) (items : list citem)  (* [...] and [^...] *)
| RSeq (r1 r2 : regex)
| RAlt (r1 r2 : regex)                   (* r1|r2, r1 tried first *)
| RStar (r : regex)                      (* r*, greedy *)
| RWordB                                 (* \b *)
| RGroup (r : regex).                    (* the capturing group 1 *)

(** Derived forms. *)
Definition ROpt (r : regex) : regex := RAlt r REps.          (* r? *)
Definition RPlus (r : regex) : regex := RSeq r (RStar r).    (* r+ *)
Definition RDigit : regex := RSet false [IDigit].            (* \d *)
Definition RSpace : regex := RSet false [ISpace].            (* \s *)

Fixpoint RLit (s : string) : regex :=                        (* a literal word *)
  match s with
  | EmptyString => REps
  | String c t => RSeq (RChar c) (RLit t)
  end.

Fixpoint RSeqs (rs : list regex) : regex :=
  match rs with
  | [] => REps
  | [r] => r
  | r :: rs' => RSeq r (RSeqs rs')
  end.

Fixpoint RAlts (rs : list regex) : regex :=                  (* (?:a|b|...) *)
  match rs with
  | [] => RSet false []
  | [r] => r
  | r :: rs' => RAlt r (RAlts rs')
  end.

Definition RWords (ws : list string) : regex := RAlts (map RLit ws).

Fixpoint RTimes (n : nat) (r : regex) : regex :=             (* r{n} *)
  match n with
  | O => REps
  | S n' => RSeq r (RTimes n' r)
  end.

Fixpoint RUpTo (n : nat) (r : regex) : regex :=              (* r{0,n} *)
  match n with
  | O => REps
  | S n' => RAlt (RSeq r (RUpTo n' r)) REps
  end.

(** r{lo,hi} *)
Definition RRange (lo hi : nat) (r : regex) : regex :=
  RSeq (RTimes lo r) (RUpTo (hi - lo) r).

(** r{lo,} *)
Definition RAtLeast (lo : nat) (r : regex) : regex :=
  RSeq (RTimes lo r) (RStar r).

Definition item_has (it : citem) (c : ascii) : bool :=
  match it with
  | IChar a => Ascii.eqb a c
  | IRange lo hi => between (code lo) (code hi) c
  | IDigit => is_digit c
  | ISpace => is_space c
  end.

(** Under [re.IGNORECASE] a character belongs to an item when its lower
    or its upper case does. *)
Definition item_match (ignorecase : bool) (it : citem) (c : ascii) : bool :=
  if ignorecase
  then item_has it (lower_char c) || item_has it (upper_char c)
  else item_has it c.

Definition set_match (ignorecase negated : bool) (items : list citem)
    (c : ascii) : bool :=
  xorb negated (existsb (fun it => item_match ignorecase it c) items).

(** Where the matcher stands: the character before the position (for
    [\b]), the rest of the text and the offset. *)
Record cursor : Type := Cursor {
  c_prev : option ascii;
  c_rest : string;
  c_pos : nat
}.

Definition word_before (c : cursor) : bool :=
  match c_prev c with Some a => is_word a | None => false end.

Definition word_after (c : cursor) : bool :=
  match c_rest c with String a _ => is_word a | EmptyString => false end.

Definition at_boundary (c : cursor) : bool :=
  negb (Bool.eqb (word_before c) (word_after c)).

(** A match object: [start()], [end()] and the span of group 1. *)
Record mtch : Type := Mtch {
  m_start : nat;
  m_end : nat;
  m_group1 : option (nat * nat)
}.

Definition kont : Type := cursor -> option (nat * nat) -> option mtch.

Definition eat (ok : ascii -> bool) (c : cursor) (g : option (nat * nat))
    (k : kont) : option mtch :=
  match c_rest c with
  | EmptyString => None
  | String a t => if ok a then k (Cursor (Some a) t (S (c_pos c))) g else None
  end.

(** The backtracking matcher, in continuation-passing style: [k] is what
    remains to be matched, [None] makes the caller try its next choice.
    A starred pattern is iterated at most once per remaining character,
    each iteration having to consume something. *)
Fixpoint run (ignorecase : bool) (r : regex) (c : cursor)
    (g : option (nat * nat)) (k : kont) {struct r} : option mtch :=
  match r with
  | REps => k c g
  | RChar a => eat (item_match ignorecase (IChar a)) c g k
  | RSet negated items => eat (set_match ignorecase negated items) c g k
  | RSeq r1 r2 =>
      run ignorecase r1 c g (fun c' g' => run ignorecase r2 c' g' k)
  | RAlt r1 r2 =>
      match run ignorecase r1 c g k with
      | Some m => Some m
      | None => run ignorecase r2 c g k
      end
  | RStar r1 =>
      (fix loop (fuel : nat) (c : cursor) (g : option (nat * nat))
           {struct fuel} : option mtch :=
         match fuel with
         | O => k c g
         | S fuel' =>
             match run ignorecase r1 c g
                     (fun c' g' =>
                        if c_pos c <? c_pos c' then loop fuel' c' g'
                        else None) with
             | Some m => Some m
             | None => k c g
             end
         end) (String.length (c_rest c)) c g
  | RWordB => if at_boundary c then k c g else None
  | RGroup r1 =>
      run ignorecase r1 c g
          (fun c' _ => k c' (Some (c_pos c, c_pos c')))
  end.

(** One attempt at the position of [c]. With [must_advance] an empty match
    is refused, so that the matcher backtracks into a longer one. *)
Definition match_at (ignorecase : bool) (r : regex) (c : cursor)
    (must_advance : bool) : option mtch :=
  run ignorecase r c None
      (fun c' g =>
         if must_advance && (c_pos c' =? c_pos c) then None
         else Some (Mtch (c_pos c) (c_pos c') g)).

(** The scanner behind [re.finditer]: leftmost matches, left to right,
    never overlapping. [skip] counts the characters still inside the match
    just reported. After an empty match the same position is tried once
    more for a match that is not empty. *)
Fixpoint scan (ignorecase : bool) (r : regex) (prev : option ascii)
    (rest : string) (pos skip : nat) {struct rest} : list mtch :=
  let next (k : nat) : list mtch :=
    match rest with
    | EmptyString => []
    | String a t => scan ignorecase r (Some a) t (S pos) k
    end in
  match skip with
  | S k => next k
  | O =>
      let here := Cursor prev rest pos in
      match match_at ignorecase r here false with
      | None => next 0
      | Some m =>
          if m_end m =? pos then
            match match_at ignorecase r here true with
            | None => m :: next 0
            | Some m2 => m :: m2 :: next (m_end m2 - pos - 1)
            end
          else m :: next (m_end m - pos - 1)
      end
  end.

(** [re.finditer(pattern, text)] and [re.finditer(pattern, text,
    re.IGNORECASE)]. *)
Definition finditer (ignorecase : bool) (r : regex) (text : string)
    : list mtch :=
  scan ignorecase r None text 0 0.

(** [match.group()] *)
Definition group0 (text : string) (m : mtch) : string :=
  slice (m_start m) (m_end m) text.

(** [match.group(1)]; a group that took no part in the match reads as the
    empty string here (Python gives [None]). *)
Definition group1 (text : string) (m : mtch) : string :=
  match m_group1 m with
  | Some (a, b) => slice a b text
  | None => EmptyString
  end.

(** *** What a pattern accepts *)

(** [accepts ignorecase r c c']: the pattern [r] can be matched from the
    cursor [c] and the match ends at the cursor [c']. *)
Inductive accepts (ignorecase : bool) : regex -> cursor -> cursor -> Prop :=
| acc_eps (c : cursor) : accepts ignorecase REps c c
| acc_char (a b : ascii) (prev : option ascii) (t : string) (pos : nat) :
    item_match ignorecase (IChar a) b = true ->
    accepts ignorecase (RChar a)
            (Cursor prev (String b t) pos) (Cursor (Some b) t (S pos))
| acc_set (negated : bool) (items : list citem) (b : ascii)
    (prev : option ascii) (t : string) (pos : nat) :
    set_match ignorecase negated items b = true ->
    accepts ignorecase (RSet negated items)
            (Cursor prev (String b t) pos) (Cursor (Some b) t (S pos))
| acc_seq (r1 r2 : regex) (c c1 c2 : cursor) :
    accepts ignorecase r1 c c1 -> accepts ignorecase r2 c1 c2 ->
    accepts ignorecase (RSeq r1 r2) c c2
| acc_alt_l (r1 r2 : regex) (c c' : cursor) :
    accepts ignorecase r1 c c' -> accepts ignorecase (RAlt r1 r2) c c'
| acc_alt_r (r1 r2 : regex) (c c' : cursor) :
    accepts ignorecase r2 c c' -> accepts ignorecase (RAlt r1 r2) c c'
| acc_star_stop (r : regex) (c : cursor) : accepts ignorecase (RStar r) c c
| acc_star_more (r : regex) (c c1 c2 : cursor) :
    accepts ignorecase r c c1 -> accepts ignorecase (RStar r) c1 c2 ->
    accepts ignorecase (RStar r) c c2
| acc_wordb (c : cursor) :
    at_boundary c = true -> accepts ignorecase RWordB c c
| acc_group (r : regex) (c c' : cursor) :
    accepts ignorecase r c c' -> accepts ignorecase (RGroup r) c c'.

(** A pattern that cannot match without taking a character. *)
Fixpoint must_consume (r : regex) : bool :=
  match r with
  | REps | RStar _ | RWordB => false
  | RChar _ | RSet _ _ => true
  | RSeq r1 r2 => must_consume r1 || must_consume r2
  | RAlt r1 r2 => must_consume r1 && must_consume r2
  | RGroup r1 => must_consume r1
  end.

(** The 256 characters. *)
Definition all_chars : list ascii := map ascii_of_nat (seq 0 256).

(** Every character the pattern can take satisfies [ok]. *)
Fixpoint chars_within (ignorecase : bool) (ok : ascii -> bool) (r : regex)
    : bool :=
  match r with
  | REps | RWordB => true
  | RChar a =>
      forallb (fun b => implb (item_match ignorecase (IChar a) b) (ok b))
              all_chars
  | RSet negated items =>
      forallb (fun b => implb (set_match ignorecase negated items b) (ok b))
              all_chars
  | RSeq r1 r2 | RAlt r1 r2 =>
      chars_within ignorecase ok r1 && chars_within ignorecase ok r2
  | RStar r1 | RGroup r1 => chars_within ignorecase ok r1
  end.

(** The cursor stands at its offset of [text]. *)
Definition at_offset (text : string) (c : cursor) : Prop :=
  c_pos c <= String.length text /\ c_rest c = drop (c_pos c) text.

(** [m] spans an accepted match of [r] in [text]. *)
Definition found (ignorecase : bool) (r : regex) (text : string) (m : mtch)
    : Prop :=
  exists c c' : cursor,
    at_offset text c /\ accepts ignorecase r c c'
    /\ m_start m = c_pos c /\ m_end m = c_pos c'.

(** The body of the capturing group a pattern ends with, if it ends with
    one. *)
Fixpoint last_group (r : regex) : option regex :=
  match r with
  | RGroup body => Some body
  | RSeq _ r2 => last_group r2
  | _ => None
  end.

(** [re.findall(pattern, text)] for a pattern without capturing group. *)
Definition findall (ignorecase : bool) (r : regex) (text : string)
    : list string :=
  map (group0 text) (finditer ignorecase r text).

End Re.

(* ===================================================================== *)
(** ** Dates: the part of [datetime] and [dateutil.relativedelta] in use  *)
(* ===================================================================== *)

Module PyDate.

Local Open Scope Z_scope.

(** A naive [datetime]: the proleptic Gregorian ordinal of its date
    ([date.toordinal()], 1 for 0001-01-01) and the microsecond of the day. *)
Record datetime : Type := Datetime {
  ordinal : Z;
  micros : Z
}.

(** [date.max.toordinal()], the ordinal of 9999-12-31. *)
Definition MAXORDINAL : Z := 3652059.
Definition MAXYEAR : Z := 9999.

(** [d.weekday()]: Monday is 0 and Sunday is 6. *)
Definition weekday (d : datetime) : Z := (ordinal d + 6) mod 7.

(** [d + timedelta(days=n)]; [None] stands for the [OverflowError] raised
    when the result leaves [date.min, date.max]. *)
Definition add_days (d : datetime) (n : Z) : option datetime :=
  let o := ordinal d + n in
  if (1 <=? o) && (o <=? MAXORDINAL)
  then Some (Datetime o (micros d))
  else None.

Definition is_leap (y : Z) : bool :=
  (y mod 4 =? 0) && (negb (y mod 100 =? 0) || (y mod 400 =? 0)).

Definition days_in_month (y m : Z) : Z :=
  if m =? 2 then (if is_leap y then 29 else 28)
  else if (m =? 4) || (m =? 6) || (m =? 9) || (m =? 11) then 30
  else 31.

Definition days_before_year (y : Z) : Z :=
  let p := y - 1 in p * 365 + p / 4 - p / 100 + p / 400.

(** Days of the year before the first day of month [m]. *)
Definition days_before_month (y m : Z) : Z :=
  nth (Z.to_nat m) [0; 0; 31; 59; 90; 120; 151; 181; 212; 243; 273; 304; 334] 0
  + (if (2 <? m) && is_leap y then 1 else 0).

Definition ymd2ord (y m d : Z) : Z :=
  days_before_year y + days_before_month y m + d.

(** The inverse reading of an ordinal as year, month and day, by the
    400/100/4/1 year cycles of the Gregorian calendar. *)
Definition ord2ymd (o : Z) : Z * Z * Z :=
  let n := o - 1 in
  let n400 := n / 146097 in
  let n := n mod 146097 in
  let n100 := n / 36524 in
  let n := n mod 36524 in
  let n4 := n / 1461 in
  let n := n mod 1461 in
  let n1 := n / 365 in
  let n := n mod 365 in
  let year := n400 * 400 + 1 + n100 * 100 + n4 * 4 + n1 in
  if (n1 =? 4) || (n100 =? 4) then (year - 1, 12, 31)
  else
    let leapyear := (n1 =? 3) && (negb (n4 =? 24) || (n100 =? 3)) in
    let month := Z.shiftr (n + 50) 5 in
    let preceding :=
      days_before_month 1 month + (if (2 <? month) && leapyear then 1 else 0) in
    if n <? preceding
    then
      let month' := month - 1 in
      let preceding' :=
        preceding
        - (nth (Z.to_nat month') [0; 31; 28; 31; 30; 31; 30; 31; 31; 30; 31; 30; 31] 0
           + (if (month' =? 2) && leapyear then 1 else 0)) in
      (year, month', n - preceding' + 1)
    else (year, month, n - preceding + 1).

(** [d + relativedelta(years=dy, months=dm)] for [0 <= dm <= 12]: the
    month and the year move, the day is clipped to the length of the
    target month; [None] stands for the [ValueError] of a year past 9999. *)
Definition add_relativedelta (d : datetime) (dy dm : Z) : option datetime :=
  let '(y, m, day) := ord2ymd (ordinal d) in
  let y1 := y + dy in
  let m1 := m + dm in
  let '(y2, m2) := if 12 <? m1 then (y1 + 1, m1 - 12) else (y1, m1) in
  let day2 := Z.min (days_in_month y2 m2) day in
  if (1 <=? y2) && (y2 <=? MAXYEAR)
  then Some (Datetime (ymd2ord y2 m2 day2) (micros d))
  else None.

(** [datetime.combine(d.date(), t)] with [t] a time of day in microseconds. *)
Definition combine (d : datetime) (time_of_day : Z) : datetime :=
  Datetime (ordinal d) time_of_day.

(** [n] in decimal on [width] digits, zero-padded. *)
Fixpoint pad (width : nat) (n : Z) : string :=
  match width with
  | O => EmptyString
  | S w =>
      String.append (pad w (n / 10))
        (String (ascii_of_nat (48 + Z.to_nat (n mod 10))) EmptyString)
  end.

(** [d.isoformat()]: YYYY-MM-DDTHH:MM:SS, followed by .ffffff when the
    microsecond is not zero. *)
Definition isoformat (d : datetime) : string :=
  let '(y, m, day) := ord2ymd (ordinal d) in
  let us := micros d mod 1000000 in
  let secs := micros d / 1000000 in
  String.concat ""
    [pad 4 y; "-"; pad 2 m; "-"; pad 2 day; "T";
     pad 2 (secs / 3600); ":"; pad 2 (secs / 60 mod 60); ":";
     pad 2 (secs mod 60);
     if us =? 0 then "" else String.append "." (pad 6 us)].

(** The decimal number written by a string of digits. *)
Fixpoint number_from (acc : Z) (s : string) : option Z :=
  match s with
  | EmptyString => Some acc
  | String c t =>
      if PyStr.is_digit c
      then number_from (acc * 10 + Z.of_nat (PyStr.code c) - 48) t
      else None
  end.

Definition field (a b : nat) (s : string) : option Z :=
  number_from 0 (PyStr.slice a b s).

(** [datetime.fromisoformat(s)] on the two layouts [isoformat] writes;
    [None] stands for the [ValueError] of any other text. *)
Definition fromisoformat (s : string) : option datetime :=
  let seps :=
    String.eqb (PyStr.slice 4 5 s) "-" && String.eqb (PyStr.slice 7 8 s) "-"
    && String.eqb (PyStr.slice 10 11 s) "T"
    && String.eqb (PyStr.slice 13 14 s) ":"
    && String.eqb (PyStr.slice 16 17 s) ":" in
  let frac : option Z :=
    if (String.length s =? 19)%nat then Some 0
    else if (String.length s =? 26)%nat && String.eqb (PyStr.slice 19 20 s) "."
    then field 20 26 s
    else None in
  match field 0 4 s, field 5 7 s, field 8 10 s,
        field 11 13 s, field 14 16 s, field 17 19 s, frac with
  | Some y, Some m, Some day, Some hh, Some mm, Some ss, Some us =>
      if seps && (1 <=? y) && (1 <=? m) && (m <=? 12) && (1 <=? day)
         && (day <=? days_in_month y m) && (hh <? 24) && (mm <? 60)
         && (ss <? 60)
      then Some (Datetime (ymd2ord y m day)
                          (((hh * 60 + mm) * 60 + ss) * 1000000 + us))
      else None
  | _, _, _, _, _, _, _ => None
  end.

End PyDate.

(* ===================================================================== *)
(** ** Exceptions and the record of calls                                 *)
(* ===================================================================== *)

(** A raised Python exception, by class name. *)
Inductive exn : Type :=
| Raise (class_name : string).

(** What a run of the orchestrator did, in order: the call into the NER
    capability and the runs of the pattern recognizers. *)
Inductive event : Type :=
| CallNER (text : string)
| RunRecognizer (name : string)
| RunSynthesizer.

(** A computation that logs events and either raises or returns. *)
Definition M (A : Type) : Type := list event * (exn + A).

Definition ret {A : Type} (a : A) : M A := ([], inr a).

Definition throw {A : Type} (e : exn) : M A := ([], inl e).

Definition bind {A B : Type} (m : M A) (f : A -> M B) : M B :=
  match m with
  | (log, inl e) => (log, inl e)
  | (log, inr a) => let '(log', r) := f a in (log ++ log', r)
  end.

Definition emit (ev : event) : M unit := ([ev], inr tt).

Notation "'let*' x ':=' m 'in' k" := (bind m (fun x => k))
  (at level 10, x name, m at level 100, k at level 200).

Definition trace {A : Type} (m : M A) : list event := fst m.
Definition outcome {A : Type} (m : M A) : exn + A := snd m.

Fixpoint mapM {A B : Type} (f : A -> M B) (l : list A) : M (list B) :=
  match l with
  | [] => ret []
  | a :: t => let* b := f a in let* bs := mapM f t in ret (b :: bs)
  end.

(* ===================================================================== *)
(** ** [ner_service.py]: class [NERService]                               *)
(* ===================================================================== *)

Module NERService.

(** The entity dictionaries the service builds. spaCy entities carry a
    ["description"] and no ["confidence"]; Hugging Face entities carry a
    ["confidence"] and no ["description"]: an absent key is [None]. *)
Record entity : Type := Entity {
  text : string;
  label : string;
  start : Z;
  end_ : Z;
  confidence : option Q;
  description : option (option string);
  source : string
}.

(** A span of [doc.ents]. *)
Record spacy_span : Type := SpacySpan {
  ent_text : string;
  label_ : string;
  start_char : Z;
  end_char : Z
}.

(** An item of the Hugging Face pipeline's output; every key is read with
    [.get] and may be absent. *)
Record hf_item : Type := HfItem {
  hf_score : option Q;
  hf_word : option string;
  hf_entity_group : option string;
  hf_start : option Z;
  hf_end : option Z
}.

(** The two model handles ([None] until [initialize] loaded them) and
    [spacy.explain]. *)
Record models : Type := Models {
  spacy_nlp : option (string -> exn + list spacy_span);
  explain : string -> option string;
  hf_ner : option (string -> exn + list (option hf_item))
}.

(** The values of the result dictionary. *)
Inductive value : Type :=
| VEntities (l : list entity)
| VCounts (c : gmap string nat)
| VInt (n : Z).

Definition _extract_spacy_entities (md : models) (txt : string)
    : exn + list entity :=
  match spacy_nlp md with
  | None => inl (Raise "RuntimeError")
  | Some nlp =>
      match nlp txt with
      | inl e => inl e
      | inr ents =>
          inr (map (fun ent =>
                      Entity (ent_text ent) (label_ ent) (start_char ent)
                             (end_char ent) None
                             (Some (explain md (label_ ent))) "spacy")
                   ents)
      end
  end.

Definition hf_keep (threshold : Q) (item : option hf_item) : bool :=
  match item with
  | None => false
  | Some it => Qle_bool threshold (default 0%Q (hf_score it))
  end.

Definition hf_entity (it : hf_item) : entity :=
  Entity (default "" (hf_word it)) (default "" (hf_entity_group it))
         (default 0%Z (hf_start it)) (default 0%Z (hf_end it))
         (Some (default 0%Q (hf_score it))) None "huggingface".

Definition _extract_hf_entities (md : models) (txt : string) (threshold : Q)
    : exn + list entity :=
  match hf_ner md with
  | None => inl (Raise "RuntimeError")
  | Some pipe =>
      match pipe txt with
      | inl e => inl e
      | inr results =>
          inr (omap (fun item =>
                       if hf_keep threshold item then hf_entity <$> item
                       else None)
                    results)
      end
  end.

(** [_spans_overlap]: [span1[0] < span2[1] and span2[0] < span1[1]]. *)
Definition _spans_overlap (span1 span2 : Z * Z) : bool :=
  (fst span1 <? snd span2)%Z && (fst span2 <? snd span1)%Z.

(** [list.sort(key=lambda x: x["start"])]: a stable sort. The entity that
    is inserted stood before every entity of [sorted] in the input, so it
    goes before the first key that is not smaller. *)
Fixpoint insert_by_start (e : entity) (sorted : list entity) : list entity :=
  match sorted with
  | [] => [e]
  | x :: rest =>
      if (start e <=? start x)%Z then e :: sorted
      else x :: insert_by_start e rest
  end.

Fixpoint sort_by_start (l : list entity) : list entity :=
  match l with
  | [] => []
  | e :: rest => insert_by_start e (sort_by_start rest)
  end.

Definition span_of (e : entity) : Z * Z := (start e, end_ e).

(** One turn of the loop of [_merge_entities] over the state
    [(merged, seen_spans)]. *)
Definition merge_step (st : list entity * gset (Z * Z)) (e : entity)
    : list entity * gset (Z * Z) :=
  let '(merged, seen_spans) := st in
  let span := span_of e in
  let overlapping := existsb (_spans_overlap span) (elements seen_spans) in
  if overlapping then (merged, seen_spans)
  else (merged ++ [e], {[span]} ∪ seen_spans).

Definition _merge_entities (spacy_entities hf_entities : list entity)
    : list entity :=
  let all_entities := sort_by_start (spacy_entities ++ hf_entities) in
  fst (foldl merge_step ([], ∅) all_entities).

Definition _count_entities (entities : list entity) : gmap string nat :=
  foldl (fun counts e =>
           <[label e := default 0 (counts !! label e) + 1]> counts)
        ∅ entities.

(** [extract_entities(text, use_spacy, use_huggingface,
    confidence_threshold)]. *)
Definition extract_entities (md : models) (txt : string)
    (use_spacy use_huggingface : bool) (confidence_threshold : Q)
    : exn + gmap string value :=
  let run_spacy : exn + list entity :=
    if use_spacy && bool_decide (is_Some (spacy_nlp md))
    then _extract_spacy_entities md txt else inr [] in
  match run_spacy with
  | inl e => inl e
  | inr spacy_entities =>
      let run_hf : exn + list entity :=
        if use_huggingface && bool_decide (is_Some (hf_ner md))
        then _extract_hf_entities md txt confidence_threshold else inr [] in
      match run_hf with
      | inl e => inl e
      | inr hf_entities =>
          let merged := _merge_entities spacy_entities hf_entities in
          inr (<["entity_counts" := VCounts (_count_entities merged)]>
               (<["merged_entities" := VEntities merged]>
               (<["hf_entities" := VEntities hf_entities]>
               (<["spacy_entities" := VEntities spacy_entities]>
               (<["text_length" := VInt (Z.of_nat (String.length txt))]>
               (<["entity_counts" := VCounts ∅]>
               (<["merged_entities" := VEntities []]>
               (<["hf_entities" := VEntities []]>
               (<["spacy_entities" := VEntities []]> ∅)))))))))
      end
  end.

(** The method as the orchestrator calls it: [extract_entities(text)] with
    the defaults [use_spacy=True], [use_huggingface=True],
    [confidence_threshold=0.5]. *)
Definition extract_entities_default (md : models) (txt : string)
    : exn + gmap string value :=
  extract_entities md txt true true 0.5%Q.

End NERService.

(* ===================================================================== *)
(** ** [entity_extraction.py]: the data model                             *)
(* ===================================================================== *)

(** A value of an entity's [metadata] dictionary. *)
Inductive mvalue : Type :=
| MBool (b : bool)
| MStr (s : string).

(** The dataclass [ExtractedEntity]. *)
Record ExtractedEntity : Type := mkEntity {
  type : string;
  value : string;
  confidence : Q;
  context : string;
  start_pos : Z;
  end_pos : Z;
  metadata : option (gmap string mvalue)
}.

(** The dataclass [CalendarEvent]. *)
Record CalendarEvent : Type := mkEvent {
  ev_title : string;
  ev_description : string;
  ev_start_time : option PyDate.datetime;
  ev_end_time : option PyDate.datetime;
  ev_location : option string;
  ev_attendees : list string;
  ev_confidence : Q;
  ev_source_text : string;
  ev_entities : list ExtractedEntity
}.

(** A dictionary of [extract_action_items]. *)
Record action_item : Type := mkAction {
  ai_text : string;
  ai_full_context : string;
  ai_confidence : Q;
  ai_type : string;
  ai_extracted_at : string
}.

(** The dictionary [extract_entities] returns; a key that one of its two
    return statements leaves out is [None]. *)
Record extraction : Type := mkExtraction {
  entities : list ExtractedEntity;
  entity_counts : option (gmap string nat);
  text_length : option nat;
  word_count : option nat;
  calendar_events : option (list CalendarEvent)
}.

(** What [phonenumbers.parse] followed by [is_valid_number] and
    [format_number] comes to for one candidate. *)
Inductive phone_outcome : Type :=
| PhoneValid (formatted : string)
| PhoneInvalid
| PhoneError.

(** The collaborators of the service. *)
Record externals : Type := Externals {
  (** [self.ner_service.extract_entities(text)] *)
  ner_extract : string -> exn + gmap string NERService.value;
  (** [validate_email(s).email], [None] on [EmailNotValidError] *)
  validate_email : string -> option string;
  phone_check : string -> phone_outcome;
  (** [datetime.now()] *)
  now : PyDate.datetime;
  (** [dateutil.parser.parse(s, fuzzy=True)], [None] when it raises *)
  dateutil_parse : string -> option PyDate.datetime
}.

(* ===================================================================== *)
(** ** [entity_extraction.py]: class [EntityExtractionService]            *)
(* ===================================================================== *)

Module EntityExtractionService.

Import PyStr Re.

Definition ch_dquote : ascii := ascii_of_nat 34.

Definition weekday_names : list string :=
  ["monday"; "tuesday"; "wednesday"; "thursday"; "friday"; "saturday"; "sunday"].

Definition month_names : list string :=
  ["january"; "february"; "march"; "april"; "may"; "june"; "july"; "august";
   "september"; "october"; "november"; "december"].

Definition am_pm : regex := RWords ["am"; "pm"; "AM"; "PM"].

(** [self.date_patterns] *)
Definition date_patterns : list regex :=
  [ (* \b(?:monday|...|sunday)\b *)
    RSeqs [RWordB; RWords weekday_names; RWordB];
    (* \b(?:january|...|december)\s+\d{1,2}(?:st|nd|rd|th)?\b *)
    RSeqs [RWordB; RWords month_names; RPlus RSpace; RRange 1 2 RDigit;
           ROpt (RWords ["st"; "nd"; "rd"; "th"]); RWordB];
    (* \b\d{1,2}\/\d{1,2}\/\d{2,4}\b *)
    RSeqs [RWordB; RRange 1 2 RDigit; RChar "/"; RRange 1 2 RDigit; RChar "/";
           RRange 2 4 RDigit; RWordB];
    (* \b\d{1,2}-\d{1,2}-\d{2,4}\b *)
    RSeqs [RWordB; RRange 1 2 RDigit; RChar "-"; RRange 1 2 RDigit; RChar "-";
           RRange 2 4 RDigit; RWordB];
    (* \btomorrow\b *)
    RSeqs [RWordB; RLit "tomorrow"; RWordB];
    (* \byesterday\b *)
    RSeqs [RWordB; RLit "yesterday"; RWordB];
    (* \bnext\s+(?:week|month|year)\b *)
    RSeqs [RWordB; RLit "next"; RPlus RSpace; RWords ["week"; "month"; "year"];
           RWordB];
    (* \bin\s+\d+\s+(?:days?|weeks?|months?)\b *)
    RSeqs [RWordB; RLit "in"; RPlus RSpace; RPlus RDigit; RPlus RSpace;
           RAlts [RSeq (RLit "day") (ROpt (RChar "s"));
                  RSeq (RLit "week") (ROpt (RChar "s"));
                  RSeq (RLit "month") (ROpt (RChar "s"))];
           RWordB] ].

(** [self.time_patterns] *)
Definition time_patterns : list regex :=
  [ (* \b\d{1,2}:\d{2}\s*(?:am|pm|AM|PM)?\b *)
    RSeqs [RWordB; RRange 1 2 RDigit; RChar ":"; RTimes 2 RDigit; RStar RSpace;
           ROpt am_pm; RWordB];
    (* \b\d{1,2}\s*(?:am|pm|AM|PM)\b *)
    RSeqs [RWordB; RRange 1 2 RDigit; RStar RSpace; am_pm; RWordB];
    (* \bat\s+\d{1,2}(?::\d{2})?\s*(?:am|pm|AM|PM)?\b *)
    RSeqs [RWordB; RLit "at"; RPlus RSpace; RRange 1 2 RDigit;
           ROpt (RSeq (RChar ":") (RTimes 2 RDigit)); RStar RSpace;
           ROpt am_pm; RWordB];
    (* \b(?:morning|afternoon|evening|night)\b *)
    RSeqs [RWordB; RWords ["morning"; "afternoon"; "evening"; "night"]; RWordB];
    (* \bnoon\b *)
    RSeqs [RWordB; RLit "noon"; RWordB];
    (* \bmidnight\b *)
    RSeqs [RWordB; RLit "midnight"; RWordB] ].

(** [self.event_keywords] *)
Definition event_keywords : list string :=
  ["meeting"; "appointment"; "call"; "conference"; "lunch"; "dinner";
   "presentation"; "interview"; "workshop"; "seminar"; "training";
   "deadline"; "due"; "reminder"; "event"; "party"; "celebration";
   "birthday"; "anniversary"; "vacation"; "trip"; "flight"; "travel"].

(** \b[A-Za-z0-9._%+-]+@[A-Za-z0-9.-]+\.[A-Z|a-z]{2,}\b *)
Definition email_pattern : regex :=
  RSeqs [RWordB;
         RPlus (RSet false [IRange "A" "Z"; IRange "a" "z"; IRange "0" "9";
                            IChar "."; IChar "_"; IChar "%"; IChar "+";
                            IChar "-"]);
         RChar "@";
         RPlus (RSet false [IRange "A" "Z"; IRange "a" "z"; IRange "0" "9";
                            IChar "."; IChar "-"]);
         RChar ".";
         RAtLeast 2 (RSet false [IRange "A" "Z"; IChar "|"; IRange "a" "z"]);
         RWordB].

(** The [patterns] of [_extract_phone_numbers]. *)
Definition phone_patterns : list regex :=
  [ (* \b\d{3}-\d{3}-\d{4}\b *)
    RSeqs [RWordB; RTimes 3 RDigit; RChar "-"; RTimes 3 RDigit; RChar "-";
           RTimes 4 RDigit; RWordB];
    (* \b\(\d{3}\)\s*\d{3}-\d{4}\b *)
    RSeqs [RWordB; RChar "("; RTimes 3 RDigit; RChar ")"; RStar RSpace;
           RTimes 3 RDigit; RChar "-"; RTimes 4 RDigit; RWordB];
    (* \b\d{3}\.\d{3}\.\d{4}\b *)
    RSeqs [RWordB; RTimes 3 RDigit; RChar "."; RTimes 3 RDigit; RChar ".";
           RTimes 4 RDigit; RWordB];
    (* \b\d{10}\b *)
    RSeqs [RWordB; RTimes 10 RDigit; RWordB];
    (* \b\+1\s*\d{3}\s*\d{3}\s*\d{4}\b *)
    RSeqs [RWordB; RChar "+"; RChar "1"; RStar RSpace; RTimes 3 RDigit;
           RStar RSpace; RTimes 3 RDigit; RStar RSpace; RTimes 4 RDigit;
           RWordB] ].

(** The negated class of the URL pattern: no space, angle bracket, double
    quote, brace, bar, backslash, caret, backquote or square bracket. *)
Definition url_char : regex :=
  RSet true [ISpace; IChar "<"; IChar ">"; IChar ch_dquote; IChar "{";
             IChar "}"; IChar "|"; IChar "\"; IChar "^"; IChar "`";
             IChar "["; IChar "]"].

(** https?://C+|www\.C+ with C the class above *)
Definition url_pattern : regex :=
  RAlt (RSeqs [RLit "http"; ROpt (RChar "s"); RLit "://"; RPlus url_char])
       (RSeqs [RLit "www"; RChar "."; RPlus url_char]).

Definition action_tail : regex :=
  RGroup (RPlus (RSet true [IChar "."; IChar "!"; IChar "?"])).

(** The [action_patterns] of [extract_action_items]. *)
Definition action_patterns : list regex :=
  [ (* \b(?:need to|should|must|have to|remember to|don\'t forget to)\s+([^.!?]+) *)
    RSeqs [RWordB;
           RWords ["need to"; "should"; "must"; "have to"; "remember to";
                   "don't forget to"];
           RPlus RSpace; action_tail];
    (* \b(?:todo|to do|task|action item):\s*([^.!?]+) *)
    RSeqs [RWordB; RWords ["todo"; "to do"; "task"; "action item"]; RChar ":";
           RStar RSpace; action_tail];
    (* \b(?:follow up|reach out|contact|call|email)\s+([^.!?]+) *)
    RSeqs [RWordB; RWords ["follow up"; "reach out"; "contact"; "call"; "email"];
           RPlus RSpace; action_tail];
    (* \b(?:schedule|book|set up|arrange)\s+([^.!?]+) *)
    RSeqs [RWordB; RWords ["schedule"; "book"; "set up"; "arrange"];
           RPlus RSpace; action_tail];
    (* \b(?:review|check|verify|confirm)\s+([^.!?]+) *)
    RSeqs [RWordB; RWords ["review"; "check"; "verify"; "confirm"];
           RPlus RSpace; action_tail] ].

(** [text[max(0, match.start()-30):match.end()+30]] *)
Definition window (txt : string) (m : mtch) : string :=
  slice (m_start m - 30) (m_end m + 30) txt.

(** The fields every pattern recognizer fills from the match. *)
Definition of_match (txt : string) (m : mtch) (ty val : string) (conf : Q)
    (md : option (gmap string mvalue)) : ExtractedEntity :=
  mkEntity ty val conf (window txt m)
           (Z.of_nat (m_start m)) (Z.of_nat (m_end m)) md.

Definition _extract_emails (env : externals) (txt : string)
    : list ExtractedEntity :=
  map (fun m =>
         let email := group0 txt m in
         match validate_email env email with
         | Some normalized =>
             of_match txt m "EMAIL" normalized 0.9%Q
                      (Some {[ "validated" := MBool true ]})
         | None =>
             of_match txt m "EMAIL" email 0.5%Q
                      (Some {[ "validated" := MBool false ]})
         end)
      (finditer false email_pattern txt).

Definition _extract_phone_numbers (env : externals) (txt : string)
    : list ExtractedEntity :=
  flat_map
    (fun pattern =>
       omap (fun m =>
               let phone := group0 txt m in
               match phone_check env phone with
               | PhoneValid formatted =>
                   Some (of_match txt m "PHONE" formatted 0.9%Q
                           (Some (<[ "original" := MStr phone ]>
                                    {[ "validated" := MBool true ]})))
               | PhoneInvalid => None
               | PhoneError =>
                   Some (of_match txt m "PHONE" phone 0.6%Q
                           (Some {[ "validated" := MBool false ]}))
               end)
            (finditer false pattern txt))
    phone_patterns.

Definition _extract_urls (txt : string) : list ExtractedEntity :=
  map (fun m => of_match txt m "URL" (group0 txt m) 0.8%Q None)
      (finditer false url_pattern txt).

(** The loop over [enumerate(weekdays)] of [_parse_date]: the first name
    found in the text decides. *)
Fixpoint weekday_loop (today : PyDate.datetime) (lowered : string) (i : Z)
    (days : list string) (otherwise : option PyDate.datetime)
    : option PyDate.datetime :=
  match days with
  | [] => otherwise
  | day :: rest =>
      if str_in day lowered then
        let days_ahead := (i - PyDate.weekday today)%Z in
        let days_ahead :=
          if (days_ahead <=? 0)%Z then (days_ahead + 7)%Z else days_ahead in
        PyDate.add_days today days_ahead
      else weekday_loop today lowered (i + 1)%Z rest otherwise
  end.

(** [_parse_date]; every exception is caught and read as [None]. *)
Definition _parse_date (env : externals) (date_text : string)
    : option PyDate.datetime :=
  let today := now env in
  let lowered := lower date_text in
  if str_in "tomorrow" lowered then PyDate.add_days today 1
  else if str_in "yesterday" lowered then PyDate.add_days today (-1)
  else if str_in "next week" lowered then PyDate.add_days today 7
  else if str_in "next month" lowered then PyDate.add_relativedelta today 0 1
  else if str_in "next year" lowered then PyDate.add_relativedelta today 1 0
  else weekday_loop today lowered 0 weekday_names
         (dateutil_parse env date_text).

Definition _extract_dates (env : externals) (txt : string)
    : list ExtractedEntity :=
  flat_map
    (fun pattern =>
       omap (fun m =>
               let date_text := group0 txt m in
               match _parse_date env date_text with
               | Some parsed_date =>
                   Some (of_match txt m "DATE" date_text 0.8%Q
                           (Some {[ "parsed_date" :=
                                      MStr (PyDate.isoformat parsed_date) ]}))
               | None => None
               end)
            (finditer true pattern txt))
    date_patterns.

Definition _extract_times (txt : string) : list ExtractedEntity :=
  flat_map
    (fun pattern =>
       map (fun m => of_match txt m "TIME" (group0 txt m) 0.7%Q None)
           (finditer true pattern txt))
    time_patterns.

(** [_count_entities] *)
Definition _count_entities (ents : list ExtractedEntity) : gmap string nat :=
  foldl (fun counts entity =>
           <[type entity := default 0 (counts !! type entity) + 1]> counts)
        ∅ ents.

(** [_extract_event_title] *)
Fixpoint title_loop (sentence : string) (keywords : list string) : string :=
  match keywords with
  | [] => strip (take 50 sentence)
  | keyword :: rest =>
      if str_in keyword (lower sentence) then
        match split_sub keyword (lower sentence) with
        | _ :: part1 :: _ => title keyword +:+ " " +:+ take 50 (strip part1)
        | _ => title keyword
        end
      else title_loop sentence rest
  end.

Definition _extract_event_title (sentence : string) : string :=
  title_loop sentence event_keywords.

(** [_combine_date_time] *)
Definition _combine_date_time (env : externals)
    (date_entities time_entities : list ExtractedEntity)
    : option PyDate.datetime :=
  match date_entities with
  | [] => None
  | date_entity :: _ =>
      let from_metadata :=
        match metadata date_entity with
        | Some md =>
            match md !! "parsed_date" with
            | Some (MStr iso) => PyDate.fromisoformat iso
            | _ => None
            end
        | None => None
        end in
      let parsed_date :=
        match from_metadata with
        | Some d => Some d
        | None => _parse_date env (value date_entity)
        end in
      match parsed_date with
      | None => None
      | Some d =>
          match time_entities with
          | time_entity :: _ =>
              match dateutil_parse env (value time_entity) with
              | Some t => Some (PyDate.combine d (PyDate.micros t))
              | None => Some d
              end
          | [] => Some d
          end
      end
  end.

Definition type_in (types : list string) (e : ExtractedEntity) : bool :=
  existsb (String.eqb (type e)) types.

Definition nonempty {A : Type} (l : list A) : bool :=
  match l with [] => false | _ => true end.

(** [any(keyword in sentence.lower() for keyword in self.event_keywords)] *)
Definition has_event_keyword (sentence : string) : bool :=
  existsb (fun keyword => str_in keyword (lower sentence)) event_keywords.

(** [[e for e in entities if e.context in sentence or sentence in e.context]] *)
Definition sentence_entities (ents : list ExtractedEntity) (sentence : string)
    : list ExtractedEntity :=
  List.filter
    (fun e => str_in (context e) sentence || str_in sentence (context e))
    ents.

(** The body of the loop of [_extract_calendar_events] for one stripped,
    non-empty sentence: the events it appends. *)
Definition sentence_events (env : externals) (ents : list ExtractedEntity)
    (sentence : string) : list CalendarEvent :=
  let sentence_ents := sentence_entities ents sentence in
  let date_entities := List.filter (type_in ["DATE"]) sentence_ents in
  let time_entities := List.filter (type_in ["TIME"]) sentence_ents in
  let person_entities := List.filter (type_in ["PERSON"; "ORG"]) sentence_ents in
  let location_entities :=
    List.filter (type_in ["GPE"; "LOC"; "FAC"]) sentence_ents in
  if has_event_keyword sentence
     && (nonempty date_entities || nonempty time_entities)
  then
    [ mkEvent (_extract_event_title sentence)
              sentence
              (_combine_date_time env date_entities time_entities)
              None
              (match location_entities with
               | loc :: _ => Some (value loc)
               | [] => None
               end)
              (map value person_entities)
              (if has_event_keyword sentence && nonempty date_entities
                  && nonempty time_entities
               then 0.7%Q else 0.5%Q)
              sentence
              sentence_ents ]
  else [].

(** One turn of the loop over [text.split('.')]. *)
Definition calendar_step (env : externals) (ents : list ExtractedEntity)
    (events : list CalendarEvent) (raw : string) : list CalendarEvent :=
  let sentence := strip raw in
  if is_empty sentence then events
  else events ++ sentence_events env ents sentence.

Definition _extract_calendar_events (env : externals) (txt : string)
    (ents : list ExtractedEntity) : list CalendarEvent :=
  foldl (calendar_step env ents) [] (split_char "." txt).

(** [ner_results.get("entities", [])] read as the sequence the loop
    iterates: iterating an integer or the keys of a dictionary that is not
    empty fails. *)
Definition ner_entities_of (ner_results : gmap string NERService.value)
    : exn + list NERService.entity :=
  match ner_results !! "entities" with
  | None => inr []
  | Some (NERService.VEntities l) => inr l
  | Some (NERService.VCounts c) =>
      if decide (c = ∅) then inr [] else inl (Raise "TypeError")
  | Some (NERService.VInt _) => inl (Raise "TypeError")
  end.

(** The [ExtractedEntity] built from one NER dictionary; the subscript
    [entity["confidence"]] fails on a dictionary without that key. *)
Definition of_ner (txt : string) (entity : NERService.entity)
    : exn + ExtractedEntity :=
  match NERService.confidence entity with
  | None => inl (Raise "KeyError")
  | Some conf =>
      inr (mkEntity (NERService.label entity) (NERService.text entity) conf
             (py_slice (Z.max 0 (NERService.start entity - 50))
                       (NERService.end_ entity + 50) txt)
             (NERService.start entity) (NERService.end_ entity)
             (Some {[ "source" := MStr "ner" ]}))
  end.

Definition lift {A : Type} (r : exn + A) : M A := ([], r).

(** The awaited call [self.ner_service.extract_entities(text)]. *)
Definition call_ner (env : externals) (txt : string)
    : M (gmap string NERService.value) :=
  ([CallNER txt], ner_extract env txt).

(** A run of one pattern recognizer. *)
Definition recognize (name : string) (found : list ExtractedEntity)
    : M (list ExtractedEntity) :=
  ([RunRecognizer name], inr found).

(** [extract_entities(text, include_calendar)] *)
Definition extract_entities (env : externals) (txt : string)
    (include_calendar : bool) : M extraction :=
  if is_empty (strip txt)
  then ret (mkExtraction [] None None None (Some []))
  else
    let* ner_results := call_ner env txt in
    let* ner_list := lift (ner_entities_of ner_results) in
    let* ents := mapM (fun entity => lift (of_ner txt entity)) ner_list in
    let* email_entities := recognize "emails" (_extract_emails env txt) in
    let ents := ents ++ email_entities in
    let* phone_entities :=
      recognize "phone_numbers" (_extract_phone_numbers env txt) in
    let ents := ents ++ phone_entities in
    let* url_entities := recognize "urls" (_extract_urls txt) in
    let ents := ents ++ url_entities in
    let* date_entities := recognize "dates" (_extract_dates env txt) in
    let ents := ents ++ date_entities in
    let* time_entities := recognize "times" (_extract_times txt) in
    let ents := ents ++ time_entities in
    let result :=
      mkExtraction ents (Some (_count_entities ents))
                   (Some (String.length txt))
                   (Some (length (split_ws txt))) None in
    if include_calendar then
      let* _ := emit RunSynthesizer in
      ret (mkExtraction (entities result) (entity_counts result)
                        (text_length result) (word_count result)
                        (Some (_extract_calendar_events env txt ents)))
    else ret result.

(** [extract_action_items(text)] *)
Definition extract_action_items (env : externals) (txt : string)
    : list action_item :=
  flat_map
    (fun pattern =>
       omap (fun m =>
               let action_text := strip (group1 txt m) in
               if is_empty action_text then None
               else Some (mkAction action_text (group0 txt m) 0.8%Q
                                   "action_item"
                                   (PyDate.isoformat (now env))))
            (finditer true pattern txt))
    action_patterns.

End EntityExtractionService.

(* ===================================================================== *)
(** ** [ner_service.py]: the views built on [NERService.extract_entities] *)
(* ===================================================================== *)

(** The methods of class [NERService] that call [extract_entities] and
    arrange its merged entities for one kind of content. *)
Module NERViews.

Import PyStr Re NERService.

(** [(?:AM|PM|am|pm)] *)
Definition am_pm : regex := RWords ["AM"; "PM"; "am"; "pm"].

(** The class of [-] and [.] *)
Definition dash_dot : regex := RSet false [IChar "-"; IChar "."].

(** The class of [-], [.] and white space. *)
Definition dash_dot_space : regex := RSet false [IChar "-"; IChar "."; ISpace].

(** The [phone_patterns] of [_extract_contact_info]. *)
Definition phone_patterns : list regex :=
  [ (* \b\d{3}[-.]?\d{3}[-.]?\d{4}\b *)
    RSeqs [RWordB; RTimes 3 RDigit; ROpt dash_dot; RTimes 3 RDigit;
           ROpt dash_dot; RTimes 4 RDigit; RWordB];
    (* \(\d{3}\)\s*\d{3}[-.]?\d{4} *)
    RSeqs [RChar "("; RTimes 3 RDigit; RChar ")"; RStar RSpace;
           RTimes 3 RDigit; ROpt dash_dot; RTimes 4 RDigit];
    (* \+1[-.\s]?\d{3}[-.\s]?\d{3}[-.\s]?\d{4} *)
    RSeqs [RChar "+"; RChar "1"; ROpt dash_dot_space; RTimes 3 RDigit;
           ROpt dash_dot_space; RTimes 3 RDigit; ROpt dash_dot_space;
           RTimes 4 RDigit] ].

(** \b[A-Za-z0-9._%+-]+@[A-Za-z0-9.-]+\.[A-Z|a-z]{2,}\b *)
Definition email_pattern : regex :=
  RSeqs [RWordB;
         RPlus (RSet false [IRange "A" "Z"; IRange "a" "z"; IRange "0" "9";
                            IChar "."; IChar "_"; IChar "%"; IChar "+";
                            IChar "-"]);
         RChar "@";
         RPlus (RSet false [IRange "A" "Z"; IRange "a" "z"; IRange "0" "9";
                            IChar "."; IChar "-"]);
         RChar ".";
         RAtLeast 2 (RSet false [IRange "A" "Z"; IChar "|"; IRange "a" "z"]);
         RWordB].

(** The [time_patterns] of [_extract_time_expressions]. *)
Definition time_patterns : list regex :=
  [ (* \b\d{1,2}:\d{2}\s*(?:AM|PM|am|pm)?\b *)
    RSeqs [RWordB; RRange 1 2 RDigit; RChar ":"; RTimes 2 RDigit; RStar RSpace;
           ROpt am_pm; RWordB];
    (* \b(?:at|@)\s*\d{1,2}(?::\d{2})?\s*(?:AM|PM|am|pm)?\b *)
    RSeqs [RWordB; RWords ["at"; "@"]; RStar RSpace; RRange 1 2 RDigit;
           ROpt (RSeq (RChar ":") (RTimes 2 RDigit)); RStar RSpace;
           ROpt am_pm; RWordB];
    (* \b\d{1,2}\s*(?:AM|PM|am|pm)\b *)
    RSeqs [RWordB; RRange 1 2 RDigit; RStar RSpace; am_pm; RWordB] ].

(** The dictionary built from a match: [text], [start], [end], [label],
    [confidence] and the source [regex]. *)
Definition of_match (value label : string) (conf : Q) (m : mtch) : entity :=
  Entity value label (Z.of_nat (m_start m)) (Z.of_nat (m_end m))
         (Some conf) None "regex".

(** [_extract_contact_info] *)
Definition _extract_contact_info (txt : string) : gmap string (list entity) :=
  let phone_numbers :=
    flat_map (fun pattern =>
                map (fun m => of_match (group0 txt m) "PHONE" 0.9%Q m)
                    (finditer false pattern txt))
             phone_patterns in
  let emails :=
    map (fun m => of_match (group0 txt m) "EMAIL" 0.9%Q m)
        (finditer false email_pattern txt) in
  <["emails" := emails]> {["phone_numbers" := phone_numbers]}.

(** [_extract_time_expressions] *)
Definition _extract_time_expressions (txt : string)
    : gmap string (list entity) :=
  let times :=
    flat_map (fun pattern =>
                map (fun m => of_match (strip (group0 txt m)) "TIME" 0.8%Q m)
                    (finditer false pattern txt))
             time_patterns in
  {["times" := times]}.

(** [label in [...]] *)
Definition label_in (labels : list string) (e : entity) : bool :=
  existsb (String.eqb (label e)) labels.

(** [entities["merged_entities"]] read as the sequence a loop iterates:
    a missing key, an integer and the keys of a dictionary that is not
    empty make the loop fail. *)
Definition merged_of (entities : gmap string value) : exn + list entity :=
  match entities !! "merged_entities" with
  | None => inl (Raise "KeyError")
  | Some (VEntities l) => inr l
  | Some (VCounts c) =>
      if decide (c = ∅) then inr [] else inl (Raise "TypeError")
  | Some (VInt _) => inl (Raise "TypeError")
  end.

(** [d[key].append(e)]; every key in use is a key of the dictionary. *)
Definition append_under (key : string) (e : entity)
    (d : gmap string (list entity)) : gmap string (list entity) :=
  alter (fun l => l ++ [e]) key d.

(** The [calendar_entities] before the loop. *)
Definition empty_calendar : gmap string (list entity) :=
  <["events" := []]> (<["emails" := []]> (<["phone_numbers" := []]>
  (<["organizations" := []]> (<["locations" := []]> (<["people" := []]>
  (<["times" := []]> (<["dates" := []]> ∅))))))).

(** One turn of the loop of [extract_calendar_entities] over the state
    [(calendar_entities, text)]: the loop assigns the entity's text to
    the variable [text], which is the method's parameter. *)
Definition calendar_turn (st : gmap string (list entity) * string)
    (e : entity) : gmap string (list entity) * string :=
  let '(calendar_entities, _) := st in
  let txt := text e in
  (if label_in ["DATE"; "TIME"] e
   then append_under "dates" e calendar_entities
   else if label_in ["PERSON"; "PER"] e
   then append_under "people" e calendar_entities
   else if label_in ["GPE"; "LOC"; "LOCATION"] e
   then append_under "locations" e calendar_entities
   else if label_in ["ORG"; "ORGANIZATION"] e
   then append_under "organizations" e calendar_entities
   else calendar_entities,
   txt).

(** [d.update(other)] *)
Definition update (other d : gmap string (list entity))
    : gmap string (list entity) :=
  other ∪ d.

(** [extract_calendar_entities(text)] *)
Definition extract_calendar_entities (md : models) (txt : string)
    : exn + gmap string (list entity) :=
  match extract_entities_default md txt with
  | inl e => inl e
  | inr entities =>
      match merged_of entities with
      | inl e => inl e
      | inr merged =>
          let '(calendar_entities, txt) :=
            foldl calendar_turn (empty_calendar, txt) merged in
          let calendar_entities :=
            update (_extract_contact_info txt) calendar_entities in
          let calendar_entities :=
            update (_extract_time_expressions txt) calendar_entities in
          inr calendar_entities
      end
  end.

(** The part of a video's [metadata] the method reads; a key that is
    absent is [None]. *)
Record youtube_metadata : Type := Metadata {
  yt_title : option string;
  yt_description : option string;
  yt_channel : option string;
  yt_tags : option (list string)
}.

Definition nl : string := String (ascii_of_nat 10) EmptyString.

(** The f-string [combined_text]: five indented lines between two line
    breaks, the comment after the transcript included. *)
Definition combined_text (metadata : youtube_metadata) (transcript : string)
    : string :=
  String.concat ""
    [ nl;
      "        Title: "; default "" (yt_title metadata); nl;
      "        Description: "; default "" (yt_description metadata); nl;
      "        Channel: "; default "" (yt_channel metadata); nl;
      "        Tags: "; join ", " (default [] (yt_tags metadata)); nl;
      "        Transcript: "; take 1000 transcript;
      "  # First 1000 chars"; nl;
      "        " ].

(** The dictionary [youtube_entities]. *)
Record youtube_entities : Type := YouTube {
  title_entities : list entity;
  description_entities : list entity;
  transcript_entities : list entity;
  all_entities : list entity;
  people_mentioned : list string;
  topics_covered : list string;
  organizations : list string
}.

(** One turn of the loop of [extract_youtube_entities]. *)
Definition youtube_turn (y : youtube_entities) (e : entity)
    : youtube_entities :=
  if label_in ["PERSON"; "PER"] e
  then YouTube (title_entities y) (description_entities y)
               (transcript_entities y) (all_entities y)
               (people_mentioned y ++ [text e]) (topics_covered y)
               (organizations y)
  else if label_in ["ORG"; "ORGANIZATION"] e
  then YouTube (title_entities y) (description_entities y)
               (transcript_entities y) (all_entities y)
               (people_mentioned y) (topics_covered y)
               (organizations y ++ [text e])
  else if label_in ["MISC"; "PRODUCT"; "EVENT"] e
  then YouTube (title_entities y) (description_entities y)
               (transcript_entities y) (all_entities y)
               (people_mentioned y) (topics_covered y ++ [text e])
               (organizations y)
  else y.

(** [extract_youtube_entities(metadata, transcript)] *)
Definition extract_youtube_entities (md : models)
    (metadata : youtube_metadata) (transcript : string)
    : exn + youtube_entities :=
  match extract_entities_default md (combined_text metadata transcript) with
  | inl e => inl e
  | inr entities =>
      match merged_of entities with
      | inl e => inl e
      | inr merged =>
          inr (foldl youtube_turn (YouTube [] [] [] merged [] [] []) merged)
      end
  end.

(** The class [\w], by its ASCII ranges. *)
Definition RWord : regex :=
  RSet false [IRange "a" "z"; IRange "A" "Z"; IRange "0" "9"; IChar "_"].

(** #\w+ *)
Definition hashtag_pattern : regex := RSeq (RChar "#") (RPlus RWord).

(** @\w+ *)
Definition mention_pattern : regex := RSeq (RChar "@") (RPlus RWord).

Definition hex_digit : regex :=
  RSet false [IRange "0" "9"; IRange "a" "f"; IRange "A" "F"].

(** http[s]?://(?:[a-zA-Z]|[0-9]|[$-_@.&+]|[!*\\(\\),]|(?:%[0-9a-fA-F][0-9a-fA-F]))+ *)
Definition url_pattern : regex :=
  RSeqs [RLit "http"; ROpt (RSet false [IChar "s"]); RLit "://";
         RPlus (RAlts [RSet false [IRange "a" "z"; IRange "A" "Z"];
                       RSet false [IRange "0" "9"];
                       RSet false [IRange "$" "_"; IChar "@"; IChar ".";
                                   IChar "&"; IChar "+"];
                       RSet false [IChar "!"; IChar "*"; IChar "\"; IChar "(";
                                   IChar "\"; IChar ")"; IChar ","];
                       RSeqs [RChar "%"; hex_digit; hex_digit]])].

(** A dictionary of [_extract_sentiment_entities]. *)
Record sentiment_entity : Type := Sentiment {
  s_text : string;
  s_sentiment : string;
  s_confidence : Q
}.

Definition positive_words : list string :=
  ["great"; "excellent"; "amazing"; "wonderful"; "fantastic"].

Definition negative_words : list string :=
  ["bad"; "terrible"; "awful"; "horrible"; "disappointing"].

(** The loop over one list of words: a word whose lower case occurs in
    the lower case of the text gives one dictionary. *)
Definition sentiment_loop (sentiment : string) (words : list string)
    (txt : string) : list sentiment_entity :=
  omap (fun word =>
          if str_in (lower word) (lower txt)
          then Some (Sentiment word sentiment 0.7%Q) else None)
       words.

(** [_extract_sentiment_entities] *)
Definition _extract_sentiment_entities (txt : string)
    : list sentiment_entity :=
  sentiment_loop "positive" positive_words txt
  ++ sentiment_loop "negative" negative_words txt.

(** The dictionary of [extract_social_media_entities]; the early return
    for a post without text leaves two keys out, which read [None]. *)
Record social_media_entities : Type := SocialMedia {
  sm_entities : list entity;
  sm_hashtags : list string;
  sm_mentions : list string;
  sm_urls : option (list string);
  sm_sentiment_entities : option (list sentiment_entity)
}.

(** [extract_social_media_entities(post_data)], given
    [post_data.get("text")]. *)
Definition extract_social_media_entities (md : models)
    (post_text : option string) : exn + social_media_entities :=
  let txt := default "" post_text in
  if is_empty txt then inr (SocialMedia [] [] [] None None)
  else
    match extract_entities_default md txt with
    | inl e => inl e
    | inr entities =>
        let hashtags := findall false hashtag_pattern txt in
        let mentions := findall false mention_pattern txt in
        let urls := findall false url_pattern txt in
        match merged_of entities with
        | inl e => inl e
        | inr merged =>
            inr (SocialMedia merged
                   (map (drop 1) hashtags)
                   (map (drop 1) mentions)
                   (Some urls)
                   (Some (_extract_sentiment_entities txt)))
        end
    end.

End NERViews.

(* ===================================================================== *)
(** ** [routes/entities.py]: what the routes make of an extraction        *)
(* ===================================================================== *)

(** The content the routes hand to [JSONResponse], computed from the
    dictionary [EntityExtractionService.extract_entities] returned. The
    [try] blocks around the computations and the rendering of the
    response are not part of the model. *)
Module Routes.

Import PyStr EntityExtractionService.

(** [len([e for e in entities if e["type"] == entity_type])] *)
Definition count_of_type (entity_type : string)
    (ents : list ExtractedEntity) : nat :=
  length (List.filter (fun e => String.eqb (type e) entity_type) ents).

(** The block of [/extract] that filters [result] by the requested
    entity types; a request without [entity_types], or with an empty
    list, skips it. *)
Definition filter_entity_types (entity_types : option (list string))
    (result : extraction) : extraction :=
  match entity_types with
  | None | Some [] => result
  | Some types =>
      let filtered_entities := List.filter (type_in types) (entities result) in
      mkExtraction
        filtered_entities
        (Some (foldl (fun counts entity_type =>
                        <[entity_type :=
                            count_of_type entity_type filtered_entities]>
                          counts)
                     ∅ types))
        (text_length result) (word_count result) (calendar_events result)
  end.

(** A value of the dictionary [contacts] of [/people]. *)
Record contact : Type := Contact {
  name : string;
  emails : list string;
  phones : list string;
  contact_confidence : Q;
  contact_context : string
}.

(** [key in d] for a dictionary kept in insertion order. *)
Definition dict_mem (key : string) (d : list (string * contact)) : bool :=
  existsb (fun kv => String.eqb (fst kv) key) d.

(** [d[key] = v]: a key that is present keeps its place. *)
Fixpoint dict_set (key : string) (v : contact) (d : list (string * contact))
    : list (string * contact) :=
  match d with
  | [] => [(key, v)]
  | (k, old) :: rest =>
      if String.eqb k key then (key, v) :: rest
      else (k, old) :: dict_set key v rest
  end.

(** [d[key]["emails"].append(email)] for a key that is present. *)
Fixpoint dict_add_email (key email : string) (d : list (string * contact))
    : list (string * contact) :=
  match d with
  | [] => []
  | (k, c) :: rest =>
      if String.eqb k key
      then (k, Contact (name c) (emails c ++ [email]) (phones c)
                       (contact_confidence c) (contact_context c)) :: rest
      else (k, c) :: dict_add_email key email rest
  end.

(** One turn of the search for the closest person: [None] stands for the
    initial distance [float('inf')]. *)
Definition closest_step (position : Z) (st : option string * option Z)
    (person_entity : ExtractedEntity) : option string * option Z :=
  let distance := Z.abs (position - start_pos person_entity) in
  match snd st with
  | Some min_distance =>
      if (distance <? min_distance)%Z
      then (Some (value person_entity), Some distance) else st
  | None => (Some (value person_entity), Some distance)
  end.

(** The value of the closest PERSON entity, the first among the
    closest. *)
Definition closest_person (people_entities : list ExtractedEntity)
    (entity : ExtractedEntity) : option string :=
  fst (foldl (closest_step (start_pos entity)) (None, None)
             (List.filter (type_in ["PERSON"]) people_entities)).

(** One turn of the loop of [/people] over [people_entities]. *)
Definition contacts_step (people_entities : list ExtractedEntity)
    (contacts : list (string * contact)) (entity : ExtractedEntity)
    : list (string * contact) :=
  if String.eqb (type entity) "PERSON" then
    let name := value entity in
    if dict_mem name contacts then contacts
    else dict_set name
           (Contact name [] [] (confidence entity) (context entity)) contacts
  else if String.eqb (type entity) "EMAIL" then
    let email := value entity in
    match closest_person people_entities entity with
    | Some person =>
        if negb (is_empty person) && dict_mem person contacts
        then dict_add_email person email contacts
        else
          let anon_name := "Contact (" +:+ email +:+ ")" in
          dict_set anon_name
            (Contact anon_name [email] [] (confidence entity)
                     (context entity))
            contacts
    | None =>
        let anon_name := "Contact (" +:+ email +:+ ")" in
        dict_set anon_name
          (Contact anon_name [email] [] (confidence entity) (context entity))
          contacts
    end
  else contacts.

(** The content of the response of [/extract]. *)
Record extract_content : Type := ExtractContent {
  extract_success : bool;
  extraction_result : extraction;
  extract_text_length : nat
}.

Definition extract (txt : string) (entity_types : option (list string))
    (result : extraction) : extract_content :=
  ExtractContent true (filter_entity_types entity_types result)
                 (String.length txt).

(** The content of the response of [/people]. *)
Record people_content : Type := PeopleContent {
  people_success : bool;
  contacts : list contact;
  total_people_entities : nat;
  people_text_length : nat
}.

Definition people (txt : string) (result : extraction) : people_content :=
  let people_entities :=
    List.filter (type_in ["PERSON"; "EMAIL"; "PHONE"]) (entities result) in
  let contacts := foldl (contacts_step people_entities) [] people_entities in
  PeopleContent true (map snd contacts) (length people_entities)
                (String.length txt).

(** The content of the response of [/locations]. *)
Record locations_content : Type := LocationsContent {
  locations_success : bool;
  locations : list ExtractedEntity;
  location_count : nat;
  locations_text_length : nat
}.

Definition locations_of (txt : string) (result : extraction)
    : locations_content :=
  let location_entities :=
    List.filter (type_in ["GPE"; "LOC"; "FAC"]) (entities result) in
  LocationsContent true location_entities (length location_entities)
                   (String.length txt).

(** The content of the response of [/dates]. *)
Record dates_content : Type := DatesContent {
  dates_success : bool;
  temporal_entities : list ExtractedEntity;
  date_count : nat;
  time_count : nat;
  dates_text_length : nat
}.

Definition dates (txt : string) (result : extraction) : dates_content :=
  let temporal_entities :=
    List.filter (type_in ["DATE"; "TIME"]) (entities result) in
  DatesContent true temporal_entities
               (count_of_type "DATE" temporal_entities)
               (count_of_type "TIME" temporal_entities)
               (String.length txt).

End Routes.

(* ===================================================================== *)
(** ** The vocabulary of the specification                                *)
(* ===================================================================== *)

Module Spec.

(** [needle] occurs in [hay] as a run of consecutive characters. *)
Definition contains (hay needle : string) : Prop :=
  exists pre post : string, hay = pre +:+ needle +:+ post.

(** Half-open spans [a0,a1) and [b0,b1) overlap. *)
Definition overlap (a b : Z * Z) : Prop :=
  (fst a < snd b)%Z /\ (fst b < snd a)%Z.

Definition span (e : ExtractedEntity) : Z * Z := (start_pos e, end_pos e).

(** No two entities at different places of the list overlap. *)
Definition overlap_free (l : list ExtractedEntity) : Prop :=
  forall (i j : nat) (a b : ExtractedEntity),
    i <> j -> l !! i = Some a -> l !! j = Some b ->
    ~ overlap (span a) (span b).

(** The list is ordered by ascending [start_pos]. *)
Definition ascending (l : list ExtractedEntity) : Prop :=
  forall (i j : nat) (a b : ExtractedEntity),
    i < j -> l !! i = Some a -> l !! j = Some b ->
    (start_pos a <= start_pos b)%Z.

(** The number of entities of type [t]. *)
Definition count_type (t : string) (l : list ExtractedEntity) : nat :=
  length (filter (fun e => type e = t) l).

(** The sum of the values of a table of counts. *)
Definition total (counts : gmap string nat) : nat :=
  map_fold (fun _ n acc => n + acc) 0 counts.

(** The selection of the sentence's entities as the specification words
    it: the context contains the sentence, or the entity's own value
    appears within the sentence. *)
Definition sentence_entities_by_value (ents : list ExtractedEntity)
    (sentence : string) : list ExtractedEntity :=
  List.filter
    (fun e => PyStr.str_in sentence (context e)
              || PyStr.str_in (value e) sentence)
    ents.

(** What the five pattern recognizers find, in the order the orchestrator
    runs them. *)
Definition pattern_entities (env : externals) (txt : string)
    : list ExtractedEntity :=
  EntityExtractionService._extract_emails env txt
  ++ EntityExtractionService._extract_phone_numbers env txt
  ++ EntityExtractionService._extract_urls txt
  ++ EntityExtractionService._extract_dates env txt
  ++ EntityExtractionService._extract_times txt.

(** The mark the orchestrator puts on an entity it converted from the NER
    capability's output: [metadata={"source": "ner"}]. *)
Definition ner_derived (e : ExtractedEntity) : Prop :=
  metadata e = Some {[ "source" := MStr "ner" ]}.

(** The keys of the dictionary [NERService.extract_entities] returns. *)
Definition ner_result_keys : gset string :=
  {[ "spacy_entities"; "hf_entities"; "merged_entities"; "entity_counts";
     "text_length" ]}.

(** Matches that follow one another from offset [lo] on: each starts where
    the one before it ended, or later. *)
Fixpoint chained (lo : nat) (ms : list Re.mtch) : Prop :=
  match ms with
  | [] => True
  | m :: rest =>
      lo <= Re.m_start m /\ Re.m_start m <= Re.m_end m
      /\ chained (Re.m_end m) rest
  end.

(** The text is not blank: the guard [if not text.strip()] lets it through. *)
Definition not_blank (txt : string) : Prop :=
  PyStr.is_empty (PyStr.strip txt) = false.

(** Some entity of the list has type [t]. *)
Definition has_typed (t : string) (l : list ExtractedEntity) : Prop :=
  exists e, e ∈ l /\ type e = t.


(** The Merger's vocabulary, over the NER dictionaries. *)
Definition ner_overlap (a b : NERService.entity) : Prop :=
  overlap (NERService.span_of a) (NERService.span_of b).

Definition ner_overlap_free (l : list NERService.entity) : Prop :=
  forall (i j : nat) (a b : NERService.entity),
    i <> j -> l !! i = Some a -> l !! j = Some b -> ~ ner_overlap a b.

Definition ner_ascending (l : list NERService.entity) : Prop :=
  forall (i j : nat) (a b : NERService.entity),
    i < j -> l !! i = Some a -> l !! j = Some b ->
    (NERService.start a <= NERService.start b)%Z.

(** The order of the sort: by start position. *)
Definition by_start (a b : NERService.entity) : Prop :=
  (NERService.start a <= NERService.start b)%Z.

(** What the Merger promises of its result. *)
Definition already_merged (l : list NERService.entity) : Prop :=
  ner_ascending l /\ ner_overlap_free l.

Definition nonempty_spans (l : list NERService.entity) : Prop :=
  forall e, e ∈ l -> (NERService.start e < NERService.end_ e)%Z.

(** The walk of the Merger as the specification words it: a candidate is
    accepted iff it overlaps none of the entities accepted before it. *)
Fixpoint greedy (accepted : list NERService.entity)
    (candidates : list NERService.entity) : list NERService.entity :=
  match candidates with
  | [] => accepted
  | e :: rest =>
      if existsb (fun a => NERService._spans_overlap (NERService.span_of e)
                                                     (NERService.span_of a))
                 accepted
      then greedy accepted rest
      else greedy (accepted ++ [e]) rest
  end.

(** A stable sort by start position: a sorted rearrangement in which
    entities of equal start keep their input order. *)
Definition stable_sort_by_start (input output : list NERService.entity)
    : Prop :=
  Permutation input output
  /\ ner_ascending output
  /\ forall k : Z,
       filter (fun e => NERService.start e = k) output
       = filter (fun e => NERService.start e = k) input.

(** What the pattern recognizers make of the matches of their patterns:
    one entity for a match, except for a date that does not parse and a
    phone number that parses but is not valid, which give nothing. *)
Inductive recognized (env : externals) (txt : string)
    : ExtractedEntity -> Prop :=
| rec_email_valid (m : Re.mtch) (normalized : string) :
    In m (Re.finditer false EntityExtractionService.email_pattern txt) ->
    validate_email env (Re.group0 txt m) = Some normalized ->
    recognized env txt
      (EntityExtractionService.of_match txt m "EMAIL" normalized 0.9%Q
         (Some {[ "validated" := MBool true ]}))
| rec_email_invalid (m : Re.mtch) :
    In m (Re.finditer false EntityExtractionService.email_pattern txt) ->
    validate_email env (Re.group0 txt m) = None ->
    recognized env txt
      (EntityExtractionService.of_match txt m "EMAIL" (Re.group0 txt m)
         0.5%Q (Some {[ "validated" := MBool false ]}))
| rec_phone_valid (p : Re.regex) (m : Re.mtch) (formatted : string) :
    In p EntityExtractionService.phone_patterns ->
    In m (Re.finditer false p txt) ->
    phone_check env (Re.group0 txt m) = PhoneValid formatted ->
    recognized env txt
      (EntityExtractionService.of_match txt m "PHONE" formatted 0.9%Q
         (Some (<[ "original" := MStr (Re.group0 txt m) ]>
                  {[ "validated" := MBool true ]})))
| rec_phone_error (p : Re.regex) (m : Re.mtch) :
    In p EntityExtractionService.phone_patterns ->
    In m (Re.finditer false p txt) ->
    phone_check env (Re.group0 txt m) = PhoneError ->
    recognized env txt
      (EntityExtractionService.of_match txt m "PHONE" (Re.group0 txt m)
         0.6%Q (Some {[ "validated" := MBool false ]}))
| rec_url (m : Re.mtch) :
    In m (Re.finditer false EntityExtractionService.url_pattern txt) ->
    recognized env txt
      (EntityExtractionService.of_match txt m "URL" (Re.group0 txt m)
         0.8%Q None)
| rec_date (p : Re.regex) (m : Re.mtch) (parsed_date : PyDate.datetime) :
    In p EntityExtractionService.date_patterns ->
    In m (Re.finditer true p txt) ->
    EntityExtractionService._parse_date env (Re.group0 txt m)
    = Some parsed_date ->
    recognized env txt
      (EntityExtractionService.of_match txt m "DATE" (Re.group0 txt m)
         0.8%Q
         (Some {[ "parsed_date" := MStr (PyDate.isoformat parsed_date) ]}))
| rec_time (p : Re.regex) (m : Re.mtch) :
    In p EntityExtractionService.time_patterns ->
    In m (Re.finditer true p txt) ->
    recognized env txt
      (EntityExtractionService.of_match txt m "TIME" (Re.group0 txt m)
         0.7%Q None).

(** The patterns of the five recognizers, each with its case flag. *)
Definition recognizer_patterns : list (bool * Re.regex) :=
  [(false, EntityExtractionService.email_pattern)]
  ++ map (pair false) EntityExtractionService.phone_patterns
  ++ [(false, EntityExtractionService.url_pattern)]
  ++ map (pair true) EntityExtractionService.date_patterns
  ++ map (pair true) EntityExtractionService.time_patterns.

(** The literal keywords [_parse_date] tests, in its order. *)
Definition relative_keywords : list string :=
  ["tomorrow"; "yesterday"; "next week"; "next month"; "next year"].

(** The days [_parse_date] adds to reach the weekday [i] from [today]. *)
Definition days_ahead (today : PyDate.datetime) (i : Z) : Z :=
  if (i - PyDate.weekday today <=? 0)%Z
  then (i - PyDate.weekday today + 7)%Z
  else (i - PyDate.weekday today)%Z.

(** The number of NER entities of label [t]. *)
Definition count_label (t : string) (l : list NERService.entity) : nat :=
  length (filter (fun e => NERService.label e = t) l).

(** Strictly increasing start positions. *)
Definition before_start (a b : NERService.entity) : Prop :=
  (NERService.start a < NERService.start b)%Z.

(** The text between the offsets of an entity. *)
Definition span_text (txt : string) (e : ExtractedEntity) : string :=
  PyStr.slice (Z.to_nat (start_pos e)) (Z.to_nat (end_pos e)) txt.

(** The text [NERViews.extract_calendar_entities] scans for contact
    details and times: the text of the last merged entity, and the input
    when nothing was merged. *)
Definition scanned_text (txt : string) (merged : list NERService.entity)
    : string :=
  default txt (last (NERService.text <$> merged)).

(** The entities that carry one of the labels, in their order. *)
Definition labelled (labels : list string) (l : list NERService.entity)
    : list NERService.entity :=
  List.filter (NERViews.label_in labels) l.

(** The text between the offsets of a NER dictionary. *)
Definition ner_span_text (txt : string) (e : NERService.entity) : string :=
  PyStr.slice (Z.to_nat (NERService.start e)) (Z.to_nat (NERService.end_ e))
              txt.

(** The characters the phone patterns of
    [NERViews._extract_contact_info] take: digits, white space and the
    five signs. *)
Definition phone_char (c : ascii) : bool :=
  PyStr.is_digit c || PyStr.is_space c
  || existsb (Ascii.eqb c) ["-"; "."; "("; ")"; "+"]%char.

(** The keys of the dictionary [NERViews.extract_calendar_entities]
    returns. *)
Definition calendar_keys : gset string :=
  {[ "dates"; "times"; "people"; "locations"; "organizations";
     "phone_numbers"; "emails"; "events" ]}.

(** A datetime Python can hold: a date from 0001-01-01 to 9999-12-31
    and a time of day. *)
Definition valid_datetime (d : PyDate.datetime) : Prop :=
  (1 <= PyDate.ordinal d <= PyDate.MAXORDINAL)%Z
  /\ (0 <= PyDate.micros d < 86400000000)%Z.

(** [result] is [today + timedelta(days=n)]: the day [n] days after
    [today], at the same time of day; there is no result when that day is
    outside [date.min, date.max]. *)
Definition days_later (today : PyDate.datetime) (n : Z)
    (result : option PyDate.datetime) : Prop :=
  match result with
  | Some d =>
      PyDate.ordinal d = (PyDate.ordinal today + n)%Z
      /\ PyDate.micros d = PyDate.micros today
  | None =>
      (PyDate.ordinal today + n < 1)%Z
      \/ (PyDate.MAXORDINAL < PyDate.ordinal today + n)%Z
  end.

(** [d] falls on day [day] of month [m] of year [y] of the calendar. *)
Definition on_day (d : PyDate.datetime) (y m day : Z) : Prop :=
  (1 <= y <= 9999)%Z /\ (1 <= m <= 12)%Z
  /\ (1 <= day <= PyDate.days_in_month y m)%Z
  /\ PyDate.ordinal d = PyDate.ymd2ord y m day.

(** [result] is day [day] of month [m] of year [y], or the last day of
    that month when the month is shorter, at the time of day of [today];
    there is no result when the year is past 9999. *)
Definition on_clipped_day (today : PyDate.datetime) (y m day : Z)
    (result : option PyDate.datetime) : Prop :=
  match result with
  | Some d =>
      on_day d y m (Z.min day (PyDate.days_in_month y m))
      /\ PyDate.micros d = PyDate.micros today
  | None => (9999 < y)%Z
  end.

(** The clock and the fuzzy parser give datetimes Python can hold. *)
Definition valid_clock (env : externals) : Prop :=
  valid_datetime (now env)
  /\ forall (s : string) (d : PyDate.datetime),
       dateutil_parse env s = Some d -> valid_datetime d.

(** The start time [_combine_date_time] makes of a date and of the time
    entities: the date at the time of day of the first time entity when
    the fuzzy parser reads it, the date as it is otherwise. *)
Definition at_time_of (env : externals) (d : PyDate.datetime)
    (time_entities : list ExtractedEntity) : PyDate.datetime :=
  match time_entities with
  | time_entity :: _ =>
      match dateutil_parse env (value time_entity) with
      | Some t => PyDate.combine d (PyDate.micros t)
      | None => d
      end
  | [] => d
  end.

(** [email] is the value of an EMAIL entity of the list. *)
Definition email_of (l : list ExtractedEntity) (email : string) : Prop :=
  exists entity : ExtractedEntity,
    entity ∈ l /\ type entity = "EMAIL" /\ value entity = email.

(** The name [/people] gives the contact of an e-mail address that it
    attaches to no person. *)
Definition anonymous_name (email : string) : string :=
  "Contact (" +:+ email +:+ ")".

(** What holds of every contact [/people] builds from the entities [l]:
    it has no phone number, its e-mail addresses are values of EMAIL
    entities, and its name is the value of a PERSON entity or the
    anonymous name of an e-mail address. *)
Definition contact_of (l : list ExtractedEntity) (c : Routes.contact)
    : Prop :=
  Routes.phones c = []
  /\ Forall (email_of l) (Routes.emails c)
  /\ ((exists entity : ExtractedEntity,
         entity ∈ l /\ type entity = "PERSON"
         /\ value entity = Routes.name c)
      \/ (exists email : string,
            email_of l email /\ Routes.name c = anonymous_name email)).

(** A contact for one e-mail address alone. *)
Definition anonymous_contact (l : list ExtractedEntity) (c : Routes.contact)
    : Prop :=
  exists email : string,
    email_of l email
    /\ Routes.name c = anonymous_name email
    /\ Routes.emails c = [email]
    /\ Routes.phones c = [].

End Spec.

(* ===================================================================== *)
(** ** Sample configurations                                              *)
(* ===================================================================== *)

Module Sample.

(** A [NERService] whose models were never loaded. *)
Definition no_models : NERService.models :=
  NERService.Models None (fun _ => None) None.

(** 2026-11-03 (a Tuesday), 09:00:00. *)
Definition tuesday_morning : PyDate.datetime :=
  PyDate.Datetime (PyDate.ymd2ord 2026 11 3) 32400000000.

(** The extraction service over that [NERService]; every e-mail address
    validates to itself, no phone number parses, the fuzzy parser gives up. *)
Definition env : externals :=
  Externals (NERService.extract_entities_default no_models)
            (fun s => Some s) (fun _ => PhoneError)
            tuesday_morning (fun _ => None).

(** The same service over a NER capability that is down. *)
Definition env_ner_down : externals :=
  Externals (fun _ => inl (Raise "ServiceUnavailable"))
            (fun s => Some s) (fun _ => PhoneError)
            tuesday_morning (fun _ => None).

Definition date_0_9 : NERService.entity :=
  NERService.Entity "3/14/2025" "DATE" 0 9 None (Some None) "spacy".

Definition person_0_5 : NERService.entity :=
  NERService.Entity "3/14/" "PERSON" 0 5 (Some 0.9%Q) None "huggingface".

Definition org_12_16 : NERService.entity :=
  NERService.Entity "Acme" "ORG" 12 16 (Some 0.8%Q) None "huggingface".

(** A [NERService] with both models loaded: spaCy finds a date at [0,9),
    the Hugging Face pipeline a person at [0,5) with score 0.9, an
    organisation at [12,16) with score 0.8 and a location with score 0.3. *)
Definition two_models : NERService.models :=
  NERService.Models
    (Some (fun _ => inr [NERService.SpacySpan "3/14/2025" "DATE" 0 9]))
    (fun _ => None)
    (Some (fun _ =>
             inr [Some (NERService.HfItem (Some 0.9%Q) (Some "3/14/")
                          (Some "PERSON") (Some 0%Z) (Some 5%Z));
                  None;
                  Some (NERService.HfItem (Some 0.8%Q) (Some "Acme")
                          (Some "ORG") (Some 12%Z) (Some 16%Z));
                  Some (NERService.HfItem (Some 0.3%Q) (Some "Oslo")
                          (Some "LOC") (Some 20%Z) (Some 24%Z))])).

(** A NER capability whose result has the key [entities]: it reports a
    person at [0,3) with score 0.9. *)
Definition ann_0_3 : NERService.entity :=
  NERService.Entity "Ann" "PERSON" 0 3 (Some 0.9%Q) None "huggingface".

Definition env_ner_finds : externals :=
  Externals (fun _ => inr {[ "entities" := NERService.VEntities [ann_0_3] ]})
            (fun s => Some s) (fun _ => PhoneError)
            tuesday_morning (fun _ => None).

(** 2024-01-31 (a Wednesday), 09:00:00: ordinal 738916. *)
Definition wednesday_morning : PyDate.datetime :=
  PyDate.Datetime 738916 32400000000.

Definition env_wednesday : externals :=
  Externals (NERService.extract_entities_default no_models)
            (fun s => Some s) (fun _ => PhoneError)
            wednesday_morning (fun _ => None).

(** A long span and two shorter ones that start together inside it. *)
Definition note_0_10 : NERService.entity :=
  NERService.Entity "0123456789" "MISC" 0 10 None (Some None) "spacy".

Definition first_5_8 : NERService.entity :=
  NERService.Entity "567" "CARDINAL" 5 8 None (Some None) "spacy".

Definition second_5_7 : NERService.entity :=
  NERService.Entity "56" "DATE" 5 7 None (Some None) "spacy".

(** A [NERService] whose spaCy model raises. *)
Definition spacy_raises : NERService.models :=
  NERService.Models (Some (fun _ => inl (Raise "ValueError")))
                    (fun _ => None) None.

End Sample.

(* ===================================================================== *)
(** * Properties                                                          *)
(* ===================================================================== *)

(** ** Strings *)

Section StringFacts.

Import PyStr.

Lemma startswith_true (p s : string) :
  startswith p s = true <-> exists post, s = p +:+ post.
Proof.
  revert s. induction p as [|a p IH]; intros s; simpl.
  - split; [intros _; by exists s | done].
  - destruct s as [|b s].
    + split; [done | intros [post H]; discriminate H].
    + destruct (Ascii.eqb_spec a b) as [->|Hne].
      * rewrite IH. split; intros [post H]; exists post.
        -- by rewrite H.
        -- by injection H.
      * split; [done | intros [post H]; injection H; congruence].
Qed.

Lemma str_in_contains (needle hay : string) :
  str_in needle hay = true <-> Spec.contains hay needle.
Proof.
  induction hay as [|c hay IH]; simpl.
  - rewrite orb_false_r, startswith_true. split.
    + intros [post H]. by exists EmptyString, post.
    + intros [pre [post H]]. destruct pre; [by exists post | discriminate H].
  - rewrite orb_true_iff, startswith_true, IH. split.
    + intros [[post H] | [pre [post H]]].
      * by exists EmptyString, post.
      * exists (String c pre), post. simpl. by rewrite H.
    + intros [pre [post H]]. destruct pre as [|a pre]; simpl in H.
      * left. by exists post.
      * right. injection H as _ H. by exists pre, post.
Qed.

Lemma str_in_not_contains (needle hay : string) :
  str_in needle hay = false <-> ~ Spec.contains hay needle.
Proof.
  rewrite <- str_in_contains. destruct (str_in needle hay); split; congruence.
Qed.

End StringFacts.

(** ** The logging monad *)

Section MonadFacts.

Context {A B : Type}.

Lemma outcome_bind_inr (m : M A) (f : A -> M B) (b : B) :
  outcome (bind m f) = inr b ->
  exists a, outcome m = inr a /\ outcome (f a) = inr b.
Proof.
  destruct m as [log [e|a]]; simpl; [done|].
  destruct (f a) as [log' r] eqn:Hf. simpl. intros ->.
  exists a. by rewrite Hf.
Qed.

Lemma bind_raises (m : M A) (f : A -> M B) (e : exn) :
  outcome m = inl e -> bind m f = (trace m, inl e).
Proof. destruct m as [log [e'|a]]; simpl; congruence. Qed.

Lemma trace_bind (m : M A) (f : A -> M B) :
  exists rest, trace (bind m f) = trace m ++ rest.
Proof.
  destruct m as [log [e|a]]; simpl.
  - exists []. by rewrite app_nil_r.
  - destruct (f a) as [log' r]. by exists log'.
Qed.

End MonadFacts.

Lemma mapM_lift_inr {A B : Type} (f : A -> exn + B) (l : list A) (bs : list B) :
  outcome (mapM (fun a => EntityExtractionService.lift (f a)) l) = inr bs ->
  Forall2 (fun a b => f a = inr b) l bs.
Proof.
  revert bs. induction l as [|a l IH]; intros bs; cbn [mapM].
  - intros [= <-]. constructor.
  - intros H. apply outcome_bind_inr in H as (b & Hb & H).
    apply outcome_bind_inr in H as (bs' & Hbs & H).
    injection H as <-. constructor; [exact Hb | by apply IH].
Qed.

(** ** The orchestrator, read off its result *)

Section Orchestrator.

Import PyStr EntityExtractionService.

Variable env : externals.
Variable txt : string.
Variable include_calendar : bool.

Lemma recognize_inr (name : string) (found x : list ExtractedEntity) :
  outcome (recognize name found) = inr x -> x = found.
Proof. simpl. congruence. Qed.

(** A run that returns on a text that is not blank went through the NER
    call and the conversion of its entities, and returns the converted
    entities followed by the recognizers' finds. *)
Lemma extract_entities_returns (r : extraction) :
  Spec.not_blank txt ->
  outcome (extract_entities env txt include_calendar) = inr r ->
  exists d ner_list ner_ents,
    ner_extract env txt = inr d
    /\ ner_entities_of d = inr ner_list
    /\ Forall2 (fun n e => of_ner txt n = inr e) ner_list ner_ents
    /\ entities r = ner_ents ++ Spec.pattern_entities env txt
    /\ entity_counts r = Some (_count_entities (entities r))
    /\ text_length r = Some (String.length txt)
    /\ word_count r = Some (length (split_ws txt))
    /\ calendar_events r =
         if include_calendar
         then Some (_extract_calendar_events env txt (entities r))
         else None.
Proof.
  intros Hblank. unfold Spec.not_blank in Hblank.
  unfold extract_entities. rewrite Hblank. intros H.
  apply outcome_bind_inr in H as (d & Hd & H).
  apply outcome_bind_inr in H as (ner_list & Hl & H).
  apply outcome_bind_inr in H as (ner_ents & Hm & H).
  apply mapM_lift_inr in Hm.
  apply outcome_bind_inr in H as (em & ->%recognize_inr & H).
  apply outcome_bind_inr in H as (ph & ->%recognize_inr & H).
  apply outcome_bind_inr in H as (ur & ->%recognize_inr & H).
  apply outcome_bind_inr in H as (da & ->%recognize_inr & H).
  apply outcome_bind_inr in H as (ti & ->%recognize_inr & H).
  exists d, ner_list, ner_ents.
  split; [exact Hd|]. split; [exact Hl|]. split; [exact Hm|].
  unfold Spec.pattern_entities.
  destruct include_calendar.
  - apply outcome_bind_inr in H as (u & _ & H). injection H as <-.
    cbn [entities entity_counts text_length word_count calendar_events].
    by rewrite <- !app_assoc.
  - injection H as <-.
    cbn [entities entity_counts text_length word_count calendar_events].
    by rewrite <- !app_assoc.
Qed.

End Orchestrator.

(** ** Counting entities by type *)

Section Counting.

Import EntityExtractionService.

Implicit Types (l : list ExtractedEntity) (t : string) (m : gmap string nat).

Lemma count_type_cons (e : ExtractedEntity) l t :
  Spec.count_type t (e :: l)
  = (if decide (type e = t) then 1 else 0) + Spec.count_type t l.
Proof.
  unfold Spec.count_type. rewrite filter_cons.
  destruct (decide (type e = t)); reflexivity.
Qed.

Lemma count_type_zero l t :
  Spec.count_type t l = 0 <-> t ∉ type <$> l.
Proof.
  induction l as [|e l IH].
  - split; [intros _; apply not_elem_of_nil | done].
  - rewrite count_type_cons, fmap_cons, not_elem_of_cons.
    destruct (decide (type e = t)) as [Heq|Hne].
    + split; [done | intros [Hne _]; congruence].
    + rewrite <- IH. simpl. split; [intros H; split; [congruence | exact H] | tauto].
Qed.

(** The loop of [_count_entities], started from any table. *)
Lemma count_loop_lookup l m t :
  foldl (fun counts entity =>
           <[type entity := default 0 (counts !! type entity) + 1]> counts)
        m l !! t
  = if decide (Spec.count_type t l = 0) then m !! t
    else Some (default 0 (m !! t) + Spec.count_type t l).
Proof.
  revert m. induction l as [|e l IH]; intros m; [done|].
  cbn [foldl]. rewrite IH, count_type_cons.
  destruct (decide (type e = t)) as [->|Hne].
  - rewrite lookup_insert_eq. cbn [default].
    destruct (decide (Spec.count_type t l = 0)) as [->|Hn].
    + rewrite decide_False by lia; f_equal; lia.
    + rewrite decide_False by lia; f_equal; unfold id; lia.
  - rewrite lookup_insert_ne by done. cbn [Nat.add].
    destruct (decide (Spec.count_type t l = 0)); reflexivity.
Qed.

Lemma count_entities_lookup l t :
  _count_entities l !! t
  = if decide (Spec.count_type t l = 0) then None
    else Some (Spec.count_type t l).
Proof.
  unfold _count_entities. rewrite count_loop_lookup, lookup_empty.
  destruct (decide (Spec.count_type t l = 0)); reflexivity.
Qed.

Lemma total_insert m t (n : nat) :
  m !! t = None -> Spec.total (<[t := n]> m) = n + Spec.total m.
Proof.
  intros Hnone. unfold Spec.total.
  apply (map_fold_insert_L (fun _ n acc => n + acc)); [|exact Hnone].
  intros. lia.
Qed.

(** A table that holds exactly the counts of a list sums to its length. *)
Lemma total_of_counts m : forall l,
  (forall t, m !! t = if decide (Spec.count_type t l = 0) then None
                      else Some (Spec.count_type t l)) ->
  Spec.total m = length l.
Proof.
  induction m as [|k n m Hk IH] using map_ind; intros l Hm.
  - unfold Spec.total. rewrite map_fold_empty.
    destruct l as [|e l]; [done|].
    specialize (Hm (type e)). rewrite lookup_empty, count_type_cons in Hm.
    repeat case_decide; try done; lia.
  - rewrite total_insert by exact Hk.
    assert (Hn : Spec.count_type k l = n).
    { specialize (Hm k). rewrite lookup_insert_eq in Hm.
      destruct (decide (Spec.count_type k l = 0)); congruence. }
    rewrite (IH (filter (fun e => type e <> k) l)).
    + subst n. unfold Spec.count_type. clear.
      induction l as [|e l IHl]; [done|].
      rewrite !filter_cons. destruct (decide (type e = k)); simpl.
      * rewrite decide_False by tauto. simpl. lia.
      * rewrite decide_True by done. simpl. lia.
    + intros t. destruct (decide (t = k)) as [->|Hne].
      * rewrite Hk, decide_True; [done|].
        apply count_type_zero. rewrite list_elem_of_fmap.
        intros (e & He1 & He2). apply list_elem_of_filter in He2 as [He2 _].
        congruence.
      * specialize (Hm t). rewrite lookup_insert_ne in Hm by done.
        assert (Heq : Spec.count_type t (filter (fun e => type e <> k) l)
                      = Spec.count_type t l).
        { unfold Spec.count_type. clear -Hne.
          induction l as [|e l IHl]; [done|].
          rewrite !filter_cons.
          destruct (decide (type e = t)) as [He|He].
          - rewrite decide_True by congruence.
            rewrite filter_cons, decide_True by done. simpl. by rewrite IHl.
          - destruct (decide (type e <> k)); [|exact IHl].
            rewrite filter_cons, decide_False by done. exact IHl. }
        rewrite Heq. exact Hm.
Qed.

Lemma count_entities_total l : Spec.total (_count_entities l) = length l.
Proof. apply total_of_counts. intros t. apply count_entities_lookup. Qed.

Lemma count_entities_dom l :
  dom (_count_entities l) = list_to_set (type <$> l).
Proof.
  apply set_eq. intros t.
  rewrite elem_of_dom, elem_of_list_to_set, count_entities_lookup.
  destruct (decide (Spec.count_type t l = 0)) as [Hz|Hz].
  - apply count_type_zero in Hz. split; [by intros [? ?] | done].
  - rewrite count_type_zero in Hz. split; [intros _ | by eauto].
    by destruct (decide (t ∈ type <$> l)).
Qed.

End Counting.

(** C10. For a text that is not blank, the result of [extract_entities]
    carries a table [entity_counts] that gives each type the number of
    entities of that type in the returned list: a type that does not occur
    has no entry, the keys are exactly the types that occur, and the values
    sum to the length of the list. *)
Theorem entity_counts_agree (env : externals) (txt : string)
    (include_calendar : bool) (r : extraction) :
  Spec.not_blank txt ->
  outcome (EntityExtractionService.extract_entities env txt include_calendar)
  = inr r ->
  exists counts : gmap string nat,
    entity_counts r = Some counts
    /\ (forall t, counts !! t
                  = if decide (Spec.count_type t (entities r) = 0) then None
                    else Some (Spec.count_type t (entities r)))
    /\ dom counts = list_to_set (type <$> entities r)
    /\ Spec.total counts = length (entities r).
Proof.
  intros Hblank Hr.
  destruct (extract_entities_returns env txt include_calendar r Hblank Hr)
    as (d & nl & ne & _ & _ & _ & _ & Hc & _).
  exists (EntityExtractionService._count_entities (entities r)).
  split; [exact Hc|]. split; [|split].
  - intros t. apply count_entities_lookup.
  - apply count_entities_dom.
  - apply count_entities_total.
Qed.

Lemma entity_counts_agree_witness :
  exists r : extraction,
    outcome (EntityExtractionService.extract_entities Sample.env "at 3pm" true)
    = inr r
    /\ exists counts : gmap string nat,
         entity_counts r = Some counts
         /\ (forall t, counts !! t
                       = if decide (Spec.count_type t (entities r) = 0)
                         then None
                         else Some (Spec.count_type t (entities r)))
         /\ dom counts = list_to_set (type <$> entities r)
         /\ Spec.total counts = length (entities r).
Proof.
  eexists. split; [vm_compute; reflexivity|].
  apply (entity_counts_agree Sample.env "at 3pm" true);
    vm_compute; reflexivity.
Defined.

(** C10, as stated, fails: the text of one space is not empty, and the
    result the orchestrator gives for it has no [entity_counts] at all. *)
Lemma entity_counts_absent_on_blank :
  exists r : extraction,
    outcome (EntityExtractionService.extract_entities Sample.env " " true)
    = inr r
    /\ String.length " " = 1
    /\ entity_counts r = None
    /\ ~ exists counts : gmap string nat, entity_counts r = Some counts.
Proof.
  eexists. split; [vm_compute; reflexivity|].
  split; [reflexivity|]. split; [reflexivity|].
  intros [counts H]. discriminate H.
Qed.

(** ** The orchestrator over [NERService] *)

Section OverNERService.

Import EntityExtractionService.

Lemma ner_service_result (md : NERService.models) (txt : string)
    (d : gmap string NERService.value) :
  NERService.extract_entities_default md txt = inr d ->
  dom d = Spec.ner_result_keys /\ d !! "entities" = None.
Proof.
  unfold NERService.extract_entities_default, NERService.extract_entities.
  destruct (if _ : bool then NERService._extract_spacy_entities md txt else _)
    as [e|sp]; [done|].
  destruct (if _ : bool then NERService._extract_hf_entities md txt _ else _)
    as [e|hf]; [done|].
  intros [= <-]. split.
  - rewrite !dom_insert_L, dom_empty_L. unfold Spec.ner_result_keys.
    set_solver.
  - by rewrite !lookup_insert_ne, lookup_empty by done.
Qed.

Lemma pattern_entities_not_ner_derived (env : externals) (txt : string)
    (e : ExtractedEntity) :
  e ∈ Spec.pattern_entities env txt -> ~ Spec.ner_derived e.
Proof.
  unfold Spec.pattern_entities, Spec.ner_derived.
  rewrite !elem_of_app.
  assert (Hkey : forall (m : gmap string mvalue),
             m !! "source" = None ->
             Some m <> Some ({[ "source" := MStr "ner" ]} : gmap string mvalue)).
  { intros m Hm [= Heq]. rewrite Heq in Hm.
    by rewrite lookup_singleton_eq in Hm. }
  intros [He|[He|[He|[He|He]]]].
  - unfold _extract_emails in He. apply list_elem_of_fmap in He as (m & -> & _).
    destruct (validate_email env _); apply Hkey; done.
  - unfold _extract_phone_numbers in He.
    apply list_elem_of_In, in_flat_map in He as (pat & _ & He).
    apply list_elem_of_In, list_elem_of_omap in He as (m & _ & He).
    destruct (phone_check env _); [| done |]; injection He as <-; apply Hkey; done.
  - unfold _extract_urls in He. apply list_elem_of_fmap in He as (m & -> & _).
    done.
  - unfold _extract_dates in He.
    apply list_elem_of_In, in_flat_map in He as (pat & _ & He).
    apply list_elem_of_In, list_elem_of_omap in He as (m & _ & He).
    destruct (_parse_date env _); [|done]. injection He as <-. apply Hkey; done.
  - unfold _extract_times in He.
    apply list_elem_of_In, in_flat_map in He as (pat & _ & He).
    apply list_elem_of_In, list_elem_of_fmap in He as (m & -> & _). done.
Qed.

End OverNERService.

(** C2. When the NER capability of the orchestrator is
    [NERService.extract_entities], the dictionary it returns has the keys
    [spacy_entities], [hf_entities], [merged_entities], [entity_counts] and
    [text_length] and no key [entities]; the orchestrator's lookup
    [ner_results.get("entities", [])] therefore yields the empty list, no
    returned entity carries the metadata [{"source": "ner"}], and every
    returned entity was found by a pattern recognizer. *)
Theorem no_ner_entity_over_ner_service (md : NERService.models)
    (env : externals) (txt : string) (include_calendar : bool)
    (r : extraction) :
  ner_extract env = NERService.extract_entities_default md ->
  outcome (EntityExtractionService.extract_entities env txt include_calendar)
  = inr r ->
  (forall d, ner_extract env txt = inr d ->
             dom d = Spec.ner_result_keys
             /\ d !! "entities" = None
             /\ EntityExtractionService.ner_entities_of d = inr [])
  /\ (forall e, e ∈ entities r -> ~ Spec.ner_derived e)
  /\ (forall e, e ∈ entities r -> e ∈ Spec.pattern_entities env txt)
  /\ (Spec.not_blank txt -> entities r = Spec.pattern_entities env txt).
Proof.
  intros Hner Hr.
  assert (Hdict : forall d, ner_extract env txt = inr d ->
             dom d = Spec.ner_result_keys
             /\ d !! "entities" = None
             /\ EntityExtractionService.ner_entities_of d = inr []).
  { intros d Hd. rewrite Hner in Hd.
    destruct (ner_service_result md txt d Hd) as [Hdom Hnone].
    repeat split; [exact Hdom | exact Hnone |].
    unfold EntityExtractionService.ner_entities_of. by rewrite Hnone. }
  assert (Hshape : entities r = []
                   \/ entities r = Spec.pattern_entities env txt).
  { destruct (PyStr.is_empty (PyStr.strip txt)) eqn:Hblank.
    - left. unfold EntityExtractionService.extract_entities in Hr.
      rewrite Hblank in Hr. by injection Hr as <-.
    - right.
      destruct (extract_entities_returns env txt include_calendar r Hblank Hr)
        as (d & nl & ne & Hd & Hnl & Hconv & Hents & _).
      destruct (Hdict d Hd) as (_ & _ & Hempty).
      rewrite Hempty in Hnl. injection Hnl as <-.
      inversion Hconv; subst. exact Hents. }
  split; [exact Hdict|].
  assert (Hsub : forall e, e ∈ entities r -> e ∈ Spec.pattern_entities env txt).
  { intros e He. destruct Hshape as [Hs|Hs]; rewrite Hs in He; [|exact He].
    by apply elem_of_nil in He. }
  split; [|split].
  - intros e He. eapply pattern_entities_not_ner_derived. by apply Hsub.
  - exact Hsub.
  - intros Hblank. destruct Hshape as [Hs|Hs]; [|exact Hs].
    destruct (extract_entities_returns env txt include_calendar r Hblank Hr)
      as (d & nl & ne & Hd & Hnl & Hconv & Hents & _).
    destruct (Hdict d Hd) as (_ & _ & Hempty).
    rewrite Hempty in Hnl. injection Hnl as <-.
    inversion Hconv; subst. exact Hents.
Qed.

Lemma no_ner_entity_over_ner_service_witness :
  exists r : extraction,
    outcome (EntityExtractionService.extract_entities Sample.env "at 3pm" true)
    = inr r
    /\ (forall d, ner_extract Sample.env "at 3pm" = inr d ->
                  dom d = Spec.ner_result_keys
                  /\ d !! "entities" = None
                  /\ EntityExtractionService.ner_entities_of d = inr [])
    /\ (forall e, e ∈ entities r -> ~ Spec.ner_derived e)
    /\ (forall e, e ∈ entities r -> e ∈ Spec.pattern_entities Sample.env "at 3pm")
    /\ (Spec.not_blank "at 3pm"
        -> entities r = Spec.pattern_entities Sample.env "at 3pm").
Proof.
  eexists. split; [vm_compute; reflexivity|].
  apply (no_ner_entity_over_ner_service Sample.no_models Sample.env "at 3pm" true);
    [reflexivity | vm_compute; reflexivity].
Defined.

(** C9. On a text that is not blank, when the NER capability raises, the
    whole call raises that one error and returns no entity list; the only
    thing the run did is the NER call, which comes first in every run: no
    pattern recognizer ran. *)
Theorem ner_failure_is_fatal (env : externals) (txt : string)
    (include_calendar : bool) (e : exn) :
  Spec.not_blank txt ->
  ner_extract env txt = inl e ->
  EntityExtractionService.extract_entities env txt include_calendar
  = ([CallNER txt], inl e)
  /\ forall env' : externals,
       exists rest : list event,
         trace (EntityExtractionService.extract_entities env' txt
                  include_calendar)
         = CallNER txt :: rest.
Proof.
  intros Hblank Hraise. unfold Spec.not_blank in Hblank. split.
  - unfold EntityExtractionService.extract_entities. rewrite Hblank.
    rewrite (bind_raises _ _ e); [reflexivity|]. exact Hraise.
  - intros env'. unfold EntityExtractionService.extract_entities.
    rewrite Hblank.
    match goal with
    | |- exists rest, trace (bind ?m ?f) = _ =>
        destruct (trace_bind m f) as [rest Hrest]; exists rest; exact Hrest
    end.
Qed.

Lemma ner_failure_is_fatal_witness :
  EntityExtractionService.extract_entities Sample.env_ner_down
    "Let's have a meeting tomorrow at 3pm." true
  = ([CallNER "Let's have a meeting tomorrow at 3pm."],
     inl (Raise "ServiceUnavailable"))
  /\ forall env' : externals,
       exists rest : list event,
         trace (EntityExtractionService.extract_entities env'
                  "Let's have a meeting tomorrow at 3pm." true)
         = CallNER "Let's have a meeting tomorrow at 3pm." :: rest.
Proof.
  apply (ner_failure_is_fatal Sample.env_ner_down
           "Let's have a meeting tomorrow at 3pm." true
           (Raise "ServiceUnavailable"));
    vm_compute; reflexivity.
Defined.

(** ** The scanner reports matches left to right *)

Section Scanner.

Import PyStr Re.

Variable ignorecase : bool.

(** Whatever the matcher hands to its continuation lies at or after the
    position it started from. *)
Lemma run_advances (r : regex) :
  forall (c : cursor) (g : option (nat * nat)) (k : kont) (m : mtch),
    run ignorecase r c g k = Some m ->
    exists c' g', c_pos c <= c_pos c' /\ k c' g' = Some m.
Proof.
  induction r as [|a|neg items|r1 IH1 r2 IH2|r1 IH1 r2 IH2|r1 IH1| |r1 IH1];
    intros c g k m; cbn [run].
  - intros H. by exists c, g.
  - unfold eat. destruct (c_rest c) as [|b t]; [done|].
    destruct (item_match _ _ _); [|done]. intros H.
    eexists _, g. split; [|exact H]. simpl. lia.
  - unfold eat. destruct (c_rest c) as [|b t]; [done|].
    destruct (set_match _ _ _ _); [|done]. intros H.
    eexists _, g. split; [|exact H]. simpl. lia.
  - intros H. apply IH1 in H as (c1 & g1 & Hle1 & H).
    apply IH2 in H as (c2 & g2 & Hle2 & H).
    exists c2, g2. split; [lia | exact H].
  - destruct (run ignorecase r1 c g k) as [m'|] eqn:H1.
    + intros [= <-]. by apply IH1 in H1.
    + apply IH2.
  - generalize (String.length (c_rest c)). intros fuel.
    revert c g. induction fuel as [|fuel IHf]; intros c g.
    + intros H. by exists c, g.
    + match goal with
      | |- context [run ignorecase r1 c g ?k1] =>
          destruct (run ignorecase r1 c g k1) as [m'|] eqn:H1
      end.
      * intros [= <-]. apply IH1 in H1 as (c1 & g1 & Hle1 & H1).
        destruct (c_pos c <? c_pos c1) eqn:Hlt; [|done].
        apply IHf in H1 as (c2 & g2 & Hle2 & H2).
        exists c2, g2. split; [lia | exact H2].
      * intros H. by exists c, g.
  - destruct (at_boundary c); [|done]. intros H. by exists c, g.
  - intros H. apply IH1 in H as (c1 & g1 & Hle1 & H).
    by eexists c1, _.
Qed.

Lemma match_at_span (r : regex) (c : cursor) (must_advance : bool) (m : mtch) :
  match_at ignorecase r c must_advance = Some m ->
  m_start m = c_pos c
  /\ c_pos c <= m_end m
  /\ (must_advance = true -> c_pos c < m_end m).
Proof.
  unfold match_at. intros H.
  apply run_advances in H as (c' & g' & Hle & H).
  destruct (must_advance && (c_pos c' =? c_pos c)) eqn:Hadv; [done|].
  injection H as <-. simpl. repeat split; [exact Hle|].
  intros ->. simpl in Hadv. apply Nat.eqb_neq in Hadv. lia.
Qed.

Lemma chained_weaken (lo lo' : nat) (ms : list mtch) :
  lo' <= lo -> Spec.chained lo ms -> Spec.chained lo' ms.
Proof. destruct ms as [|m ms]; simpl; [done|]. intros ? (? & ? & ?). repeat split; [lia|done..]. Qed.

Lemma scan_chained (r : regex) (rest : string) :
  forall (prev : option ascii) (pos skip : nat),
    Spec.chained (pos + skip) (scan ignorecase r prev rest pos skip).
Proof.
  induction rest as [|a t IH]; intros prev pos skip.
  - destruct skip as [|k]; cbn [scan]; [|done].
    destruct (match_at ignorecase r _ false) as [m|] eqn:H1; [|done].
    apply match_at_span in H1 as (Hs & He & _). simpl in Hs, He.
    destruct (m_end m =? pos) eqn:Hempty.
    + destruct (match_at ignorecase r _ true) as [m2|] eqn:H2.
      * apply match_at_span in H2 as (Hs2 & He2 & _). simpl in Hs2, He2.
        apply Nat.eqb_eq in Hempty. simpl. lia.
      * simpl. lia.
    + simpl. lia.
  - destruct skip as [|k]; cbn [scan].
    + destruct (match_at ignorecase r _ false) as [m|] eqn:H1.
      * apply match_at_span in H1 as (Hs & He & _). simpl in Hs, He.
        destruct (m_end m =? pos) eqn:Hempty.
        -- apply Nat.eqb_eq in Hempty.
           destruct (match_at ignorecase r _ true) as [m2|] eqn:H2.
           ++ apply match_at_span in H2 as (Hs2 & He2 & Hadv).
              simpl in Hs2, He2, Hadv. specialize (Hadv eq_refl).
              cbn [Spec.chained]. repeat split; try lia.
              eapply chained_weaken; [|apply IH]. lia.
           ++ cbn [Spec.chained]. repeat split; try lia.
              eapply chained_weaken; [|apply IH]. lia.
        -- apply Nat.eqb_neq in Hempty.
           cbn [Spec.chained]. repeat split; try lia.
           eapply chained_weaken; [|apply IH]. lia.
      * eapply chained_weaken; [|apply IH]. lia.
    + eapply chained_weaken; [|apply IH]. lia.
Qed.

Lemma finditer_chained (r : regex) (text : string) :
  Spec.chained 0 (finditer ignorecase r text).
Proof. apply (scan_chained r text None 0 0). Qed.

End Scanner.

Section SinglePattern.

Import PyStr Re EntityExtractionService.

Lemma chained_bound (ms : list mtch) : forall (lo j : nat) (b : mtch),
  Spec.chained lo ms -> ms !! j = Some b ->
  lo <= m_start b /\ m_start b <= m_end b.
Proof.
  induction ms as [|m ms IH]; intros lo j b; [done|].
  intros (Hlo & Hm & Hrest). destruct j as [|j]; simpl.
  - intros [= <-]. lia.
  - intros Hb. destruct (IH _ _ _ Hrest Hb). lia.
Qed.

Lemma chained_lookup (ms : list mtch) : forall (lo i j : nat) (a b : mtch),
  Spec.chained lo ms -> i < j -> ms !! i = Some a -> ms !! j = Some b ->
  m_end a <= m_start b.
Proof.
  induction ms as [|m ms IH]; intros lo i j a b; [done|].
  intros (Hlo & Hm & Hrest) Hij. destruct j as [|j]; [lia|].
  destruct i as [|i]; simpl.
  - intros [= <-] Hb. by destruct (chained_bound _ _ _ _ Hrest Hb).
  - apply (IH _ i j a b Hrest). lia.
Qed.

(** Entities cut from the matches of one scan neither overlap nor leave
    the order of their start positions. *)
Lemma one_scan_disjoint (f : mtch -> ExtractedEntity) (ms : list mtch)
    (lo : nat) :
  (forall m, start_pos (f m) = Z.of_nat (m_start m)
             /\ end_pos (f m) = Z.of_nat (m_end m)) ->
  Spec.chained lo ms ->
  Spec.overlap_free (map f ms) /\ Spec.ascending (map f ms).
Proof.
  intros Hf Hch.
  assert (Hord : forall i j a b, i < j -> map f ms !! i = Some a ->
                   map f ms !! j = Some b ->
                   (start_pos a <= end_pos a)%Z /\ (end_pos a <= start_pos b)%Z).
  { intros i j a b Hij Ha Hb.
    change (map f ms) with (f <$> ms) in Ha, Hb.
    rewrite list_lookup_fmap in Ha, Hb.
    destruct (ms !! i) as [ma|] eqn:Hma; [|done].
    destruct (ms !! j) as [mb|] eqn:Hmb; [|done].
    injection Ha as <-. injection Hb as <-.
    destruct (Hf ma) as [-> ->]. destruct (Hf mb) as [-> _].
    pose proof (chained_lookup _ _ _ _ _ _ Hch Hij Hma Hmb).
    destruct (chained_bound _ _ _ _ Hch Hma). lia. }
  split.
  - intros i j a b Hne Ha Hb [H1 H2]. unfold Spec.span in H1, H2. simpl in H1, H2.
    destruct (Nat.lt_ge_cases i j) as [Hlt|Hge].
    + destruct (Hord _ _ _ _ Hlt Ha Hb). lia.
    + assert (Hlt : j < i) by lia.
      destruct (Hord _ _ _ _ Hlt Hb Ha). lia.
  - intros i j a b Hlt Ha Hb. destruct (Hord _ _ _ _ Hlt Ha Hb). lia.
Qed.

Lemma emails_disjoint (env : externals) (txt : string) :
  Spec.overlap_free (_extract_emails env txt)
  /\ Spec.ascending (_extract_emails env txt).
Proof.
  unfold _extract_emails. eapply one_scan_disjoint.
  - intros m. by destruct (validate_email env _).
  - apply finditer_chained.
Qed.

Lemma urls_disjoint (txt : string) :
  Spec.overlap_free (_extract_urls txt) /\ Spec.ascending (_extract_urls txt).
Proof.
  unfold _extract_urls. eapply one_scan_disjoint; [done|].
  apply finditer_chained.
Qed.

Lemma of_ner_derived (txt : string) (n : NERService.entity)
    (e : ExtractedEntity) :
  of_ner txt n = inr e -> Spec.ner_derived e.
Proof.
  unfold of_ner. destruct (NERService.confidence n); [|done].
  by intros [= <-].
Qed.

End SinglePattern.

(** C1, as the code has it. On a text that is not blank, a call that
    returns has called the NER capability and gives, first, one entity for
    each dictionary of the list under the key [entities] of its result, in
    the order of that list (none when the key is missing): the type is the
    label, the value the text, confidence, [start_pos] and [end_pos] are
    those of the dictionary, the context is the text from 50 characters
    before the start to 50 characters after the end, and the metadata is
    [source: ner]. The finds of the e-mail, phone, URL, date and time
    recognizers follow, in that order; the Merger is not applied. The
    finds of a single scan, the e-mail list and the URL list, are each
    free of overlaps and ordered by [start_pos]. *)
Theorem extract_entities_concatenates (env : externals) (txt : string)
    (include_calendar : bool) (r : extraction) :
  Spec.not_blank txt ->
  outcome (EntityExtractionService.extract_entities env txt include_calendar)
  = inr r ->
  (exists (ner_results : gmap string NERService.value)
          (ner_list : list NERService.entity)
          (ner_ents : list ExtractedEntity),
     ner_extract env txt = inr ner_results
     /\ (ner_results !! "entities" = Some (NERService.VEntities ner_list)
         \/ ner_list = []
            /\ (ner_results !! "entities" = None
                \/ ner_results !! "entities" = Some (NERService.VCounts ∅)))
     /\ Forall2
          (fun (n : NERService.entity) (e : ExtractedEntity) =>
             exists conf : Q,
               NERService.confidence n = Some conf
               /\ e = mkEntity (NERService.label n) (NERService.text n) conf
                       (PyStr.py_slice (Z.max 0 (NERService.start n - 50))
                                       (NERService.end_ n + 50) txt)
                       (NERService.start n) (NERService.end_ n)
                       (Some {[ "source" := MStr "ner" ]}))
          ner_list ner_ents
     /\ Forall Spec.ner_derived ner_ents
     /\ entities r
        = ner_ents
          ++ EntityExtractionService._extract_emails env txt
          ++ EntityExtractionService._extract_phone_numbers env txt
          ++ EntityExtractionService._extract_urls txt
          ++ EntityExtractionService._extract_dates env txt
          ++ EntityExtractionService._extract_times txt)
  /\ Spec.overlap_free (EntityExtractionService._extract_emails env txt)
  /\ Spec.ascending (EntityExtractionService._extract_emails env txt)
  /\ Spec.overlap_free (EntityExtractionService._extract_urls txt)
  /\ Spec.ascending (EntityExtractionService._extract_urls txt).
Proof.
  intros Hblank Hr.
  destruct (extract_entities_returns env txt include_calendar r Hblank Hr)
    as (d & nl & ne & Hd & Hnl & Hconv & Hents & _).
  split.
  - exists d, nl, ne. split; [exact Hd|]. split; [|split; [|split]].
    + unfold EntityExtractionService.ner_entities_of in Hnl.
      destruct (d !! "entities") as [[l|c|n]|]; [| | |].
      * injection Hnl as <-. by left.
      * destruct (decide (c = ∅)) as [->|]; [|done].
        injection Hnl as <-. right. split; [done | by right].
      * done.
      * injection Hnl as <-. right. split; [done | by left].
    + eapply Forall2_impl; [exact Hconv|]. intros n e Hne.
      unfold EntityExtractionService.of_ner in Hne.
      destruct (NERService.confidence n) as [conf|]; [|done].
      injection Hne as <-. by exists conf.
    + clear -Hconv. induction Hconv as [|n e nl ne Hne _ IH]; constructor.
      * by eapply of_ner_derived.
      * exact IH.
    + exact Hents.
  - destruct (emails_disjoint env txt), (urls_disjoint txt). auto.
Qed.

Lemma extract_entities_concatenates_witness :
  ner_extract Sample.env_ner_finds "Ann at 3pm"
  = inr {[ "entities" := NERService.VEntities [Sample.ann_0_3] ]}
  /\ exists r : extraction,
       outcome (EntityExtractionService.extract_entities Sample.env_ner_finds
                  "Ann at 3pm" true)
       = inr r
       /\ length (entities r) = 3
       /\ exists (ner_results : gmap string NERService.value)
                 (ner_list : list NERService.entity)
                 (ner_ents : list ExtractedEntity),
            ner_extract Sample.env_ner_finds "Ann at 3pm" = inr ner_results
            /\ (ner_results !! "entities"
                = Some (NERService.VEntities ner_list)
                \/ ner_list = []
                   /\ (ner_results !! "entities" = None
                       \/ ner_results !! "entities"
                          = Some (NERService.VCounts ∅)))
            /\ Forall2
                 (fun (n : NERService.entity) (e : ExtractedEntity) =>
                    exists conf : Q,
                      NERService.confidence n = Some conf
                      /\ e = mkEntity (NERService.label n) (NERService.text n)
                              conf
                              (PyStr.py_slice
                                 (Z.max 0 (NERService.start n - 50))
                                 (NERService.end_ n + 50) "Ann at 3pm")
                              (NERService.start n) (NERService.end_ n)
                              (Some {[ "source" := MStr "ner" ]}))
                 ner_list ner_ents
            /\ Forall Spec.ner_derived ner_ents
            /\ entities r
               = ner_ents
                 ++ EntityExtractionService._extract_emails
                      Sample.env_ner_finds "Ann at 3pm"
                 ++ EntityExtractionService._extract_phone_numbers
                      Sample.env_ner_finds "Ann at 3pm"
                 ++ EntityExtractionService._extract_urls "Ann at 3pm"
                 ++ EntityExtractionService._extract_dates
                      Sample.env_ner_finds "Ann at 3pm"
                 ++ EntityExtractionService._extract_times "Ann at 3pm".
Proof.
  split; [reflexivity|].
  eexists. split; [vm_compute; reflexivity|]. split; [reflexivity|].
  apply (extract_entities_concatenates Sample.env_ner_finds "Ann at 3pm" true);
    vm_compute; reflexivity.
Defined.

(** C1, as stated, fails: on the text "at 3pm" the second and the third
    time pattern both match, the list returned is [3pm] at [3,6) followed
    by [at 3pm] at [0,6), two overlapping spans out of order. *)
Lemma extract_entities_not_merged :
  exists r : extraction,
    outcome (EntityExtractionService.extract_entities Sample.env "at 3pm" true)
    = inr r
    /\ Spec.not_blank "at 3pm"
    /\ ~ Spec.overlap_free (entities r)
    /\ ~ Spec.ascending (entities r).
Proof.
  eexists. split; [vm_compute; reflexivity|].
  split; [reflexivity|]. split.
  - intros H. eapply (H 0 1); [lia | reflexivity | reflexivity |].
    split; reflexivity.
  - intros H.
    pose proof (H 0 1 _ _ ltac:(lia) eq_refl eq_refl) as H'.
    vm_compute in H'. by apply H'.
Qed.

(** ** The Calendar Event Synthesizer *)

Section Synthesizer.

Import PyStr EntityExtractionService.

Lemma filter_sublist {A : Type} (f : A -> bool) (l : list A) :
  List.filter f l `sublist_of` l.
Proof.
  induction l as [|a l IH]; simpl; [constructor|].
  destruct (f a); by constructor.
Qed.

Lemma elem_of_bool_filter {A : Type} (f : A -> bool) (l : list A) (x : A) :
  x ∈ List.filter f l <-> x ∈ l /\ f x = true.
Proof. rewrite !list_elem_of_In. apply filter_In. Qed.

Lemma nonempty_exists {A : Type} (l : list A) :
  nonempty l = true <-> exists x, x ∈ l.
Proof.
  destruct l as [|a l]; simpl.
  - split; [done | intros [x Hx]; by apply elem_of_nil in Hx].
  - split; [intros _; exists a; by left | done].
Qed.

Lemma nonempty_typed (t : string) (l : list ExtractedEntity) :
  nonempty (List.filter (type_in [t]) l) = true <-> Spec.has_typed t l.
Proof.
  rewrite nonempty_exists. unfold Spec.has_typed.
  split; intros [e He]; exists e.
  - apply elem_of_bool_filter in He as [He Ht]. split; [exact He|].
    unfold type_in in Ht. simpl in Ht. rewrite orb_false_r in Ht.
    by apply String.eqb_eq in Ht.
  - destruct He as [He Ht]. apply elem_of_bool_filter. split; [exact He|].
    unfold type_in. simpl. rewrite orb_false_r. by apply String.eqb_eq.
Qed.


(** The loop of [_extract_calendar_events] appends, sentence by sentence,
    what its body gives for the sentences that are not blank. *)
Lemma calendar_loop (env : externals) (ents : list ExtractedEntity)
    (pieces : list string) : forall events : list CalendarEvent,
  foldl (calendar_step env ents) events pieces
  = events
    ++ flat_map (fun raw => if is_empty (strip raw) then []
                            else sentence_events env ents (strip raw))
                pieces.
Proof.
  induction pieces as [|raw pieces IH]; intros events; simpl.
  - by rewrite app_nil_r.
  - rewrite IH. unfold calendar_step.
    destruct (is_empty (strip raw)); simpl; [done|].
    by rewrite app_assoc.
Qed.

End Synthesizer.

(** C3, as the code has it. The entities selected for a sentence are
    exactly the entities of the list, in the order of the list, whose
    context contains the sentence or whose context is contained in the
    sentence; the entity's value plays no part. *)
Theorem sentence_entities_by_context (ents : list ExtractedEntity)
    (sentence : string) :
  (forall e,
     e ∈ EntityExtractionService.sentence_entities ents sentence
     <-> e ∈ ents
         /\ (Spec.contains sentence (context e)
             \/ Spec.contains (context e) sentence))
  /\ EntityExtractionService.sentence_entities ents sentence `sublist_of` ents.
Proof.
  split.
  - intros e. unfold EntityExtractionService.sentence_entities.
    rewrite elem_of_bool_filter, orb_true_iff, !str_in_contains. tauto.
  - apply filter_sublist.
Qed.

(** C3, as stated, fails: in "Let's have a meeting tomorrow at 3pm." the
    TIME entity [3pm] has the context ['s have a meeting tomorrow at 3pm.],
    which neither contains the sentence nor lies within it, so the entity
    is left out although its value appears in the sentence. *)
Lemma sentence_entities_not_by_value :
  exists (r : extraction) (e : ExtractedEntity),
    outcome (EntityExtractionService.extract_entities Sample.env
               "Let's have a meeting tomorrow at 3pm." true) = inr r
    /\ map PyStr.strip (PyStr.split_char "." "Let's have a meeting tomorrow at 3pm.")
       = ["Let's have a meeting tomorrow at 3pm"; ""]
    /\ e ∈ entities r
    /\ value e = "3pm"
    /\ Spec.contains "Let's have a meeting tomorrow at 3pm" (value e)
    /\ ~ (e ∈ EntityExtractionService.sentence_entities (entities r)
                "Let's have a meeting tomorrow at 3pm")
    /\ (EntityExtractionService.sentence_entities (entities r)
          "Let's have a meeting tomorrow at 3pm"
        <> Spec.sentence_entities_by_value (entities r)
             "Let's have a meeting tomorrow at 3pm").
Proof.
  eexists. eexists.
  split; [vm_compute; reflexivity|].
  split; [reflexivity|].
  split; [right; left|].
  split; [reflexivity|].
  split; [apply str_in_contains; reflexivity|].
  split.
  - intros H. apply elem_of_bool_filter in H as [_ H].
    vm_compute in H. discriminate H.
  - intros H. apply (f_equal length) in H. vm_compute in H. discriminate H.
Qed.


(** ** Relative dates *)

Section RelativeDates.

Import PyStr EntityExtractionService.

Local Open Scope Z_scope.

Lemma add_days_some (today d : PyDate.datetime) (k : Z) :
  PyDate.add_days today k = Some d ->
  PyDate.ordinal d = PyDate.ordinal today + k
  /\ PyDate.micros d = PyDate.micros today
  /\ PyDate.weekday d = (PyDate.weekday today + k) mod 7.
Proof.
  unfold PyDate.add_days, PyDate.weekday.
  destruct (_ && _); [|done]. intros [= <-]. simpl.
  repeat split. Z.div_mod_to_equations. lia.
Qed.

Lemma add_days_in_range (today : PyDate.datetime) (k : Z) :
  1 <= PyDate.ordinal today + k <= PyDate.MAXORDINAL ->
  PyDate.add_days today k
  = Some (PyDate.Datetime (PyDate.ordinal today + k) (PyDate.micros today)).
Proof.
  intros [H1 H2]. unfold PyDate.add_days.
  apply Z.leb_le in H1, H2. by rewrite H1, H2.
Qed.

(** The number of days the weekday branch adds for the weekday [i]. *)
Lemma days_ahead_next (w i : Z) :
  0 <= w < 7 -> 0 <= i < 7 ->
  forall k, k = (if i - w <=? 0 then i - w + 7 else i - w) ->
  1 <= k <= 7
  /\ (w + k) mod 7 = i
  /\ (forall j, 1 <= j < k -> (w + j) mod 7 <> i)
  /\ (w = i -> k = 7).
Proof.
  intros Hw Hi k ->. destruct (Z.leb_spec (i - w) 0) as [H|H].
  - repeat split; try lia.
    + Z.div_mod_to_equations. lia.
    + intros j Hj. Z.div_mod_to_equations. lia.
  - repeat split; try lia.
    + Z.div_mod_to_equations. lia.
    + intros j Hj. Z.div_mod_to_equations. lia.
Qed.

Lemma weekday_range (d : PyDate.datetime) : 0 <= PyDate.weekday d < 7.
Proof. unfold PyDate.weekday. apply Z.mod_pos_bound. lia. Qed.

End RelativeDates.

(** ** Action items *)

(** C8, as the code has it. For "I need to call John tomorrow" the frame
    [need to X] and the frame [call X] both match, and
    [extract_action_items] returns two action items, in this order: the
    text "call John tomorrow" cut from "need to call John tomorrow", then
    the text "John tomorrow" cut from "call John tomorrow"; both have
    confidence 0.8 and type [action_item]. *)
Theorem action_items_need_to_call (env : externals) :
  map (fun a => (ai_text a, ai_full_context a, ai_confidence a, ai_type a))
      (EntityExtractionService.extract_action_items env
         "I need to call John tomorrow")
  = [ ("call John tomorrow", "need to call John tomorrow", 0.8%Q,
       "action_item");
      ("John tomorrow", "call John tomorrow", 0.8%Q, "action_item") ].
Proof. vm_compute. reflexivity. Qed.

(** C8, as stated, fails: the call returns two action items, not one. *)
Lemma action_items_not_single :
  length (EntityExtractionService.extract_action_items Sample.env
            "I need to call John tomorrow") <> 1
  /\ map ai_text (EntityExtractionService.extract_action_items Sample.env
                    "I need to call John tomorrow")
     = ["call John tomorrow"; "John tomorrow"].
Proof. split; [vm_compute; lia | vm_compute; reflexivity]. Qed.

(** ** The Merger: sorting *)

Section OrderedPairs.

Context {A : Type} (R : A -> A -> Prop).

(** A relation holds of every pair taken in list order exactly when it
    holds at every two increasing indices. *)
Lemma ordered_pairs_lookup (l : list A) :
  ForallOrdPairs R l
  <-> forall (i j : nat) (a b : A),
        i < j -> l !! i = Some a -> l !! j = Some b -> R a b.
Proof.
  induction l as [|x l IH].
  - split; [intros _ i j a b _ Hi; done | constructor].
  - split.
    + intros H. inversion H as [|? ? Hall Hrest]; subst.
      intros i j a b Hij Ha Hb. destruct j as [|j]; [lia|].
      destruct i as [|i]; simpl in Ha, Hb.
      * injection Ha as <-. rewrite Forall_forall in Hall.
        apply Hall. by eapply list_elem_of_lookup_2.
      * apply (proj1 IH Hrest i j a b); [lia | done..].
    + intros H. constructor.
      * apply Forall_forall. intros b Hb.
        apply list_elem_of_lookup_1 in Hb as [j Hj].
        apply (H 0 (S j) x b); [lia | done..].
      * apply IH. intros i j a b Hij Ha Hb.
        apply (H (S i) (S j) a b); [lia | done..].
Qed.

Lemma ordered_pairs_app (l1 l2 : list A) :
  ForallOrdPairs R (l1 ++ l2)
  <-> ForallOrdPairs R l1 /\ ForallOrdPairs R l2
      /\ (forall a b, a ∈ l1 -> b ∈ l2 -> R a b).
Proof.
  induction l1 as [|x l1 IH]; simpl.
  - split; [intros H; repeat split; [constructor | exact H |] | tauto].
    intros a b Ha. by apply elem_of_nil in Ha.
  - split.
    + intros H. inversion H as [|? ? Hall Hrest]; subst.
      apply IH in Hrest as (H1 & H2 & H12).
      apply Forall_app in Hall as [Hall1 Hall2].
      repeat split; [by constructor | exact H2 |].
      intros a b Ha Hb. apply elem_of_cons in Ha as [->|Ha].
      * rewrite Forall_forall in Hall2. by apply Hall2.
      * by apply H12.
    + intros (H1 & H2 & H12). inversion H1 as [|? ? Hall Hrest]; subst.
      constructor.
      * apply Forall_app. split; [exact Hall|].
        apply Forall_forall. intros b Hb. apply H12; [by left | exact Hb].
      * apply IH. repeat split; [exact Hrest | exact H2 |].
        intros a b Ha Hb. apply H12; [by right | exact Hb].
Qed.

Lemma ordered_pairs_sublist (l1 l2 : list A) :
  l1 `sublist_of` l2 -> ForallOrdPairs R l2 -> ForallOrdPairs R l1.
Proof.
  induction 1 as [|x l1 l2 Hsub IH|x l1 l2 Hsub IH]; intros H.
  - constructor.
  - inversion H as [|? ? Hall Hrest]; subst. constructor; [|by apply IH].
    rewrite Forall_forall in *. intros b Hb. apply Hall.
    by eapply elem_of_sublist.
  - inversion H; subst. by apply IH.
Qed.

End OrderedPairs.

Section Sorting.

Import NERService.

Implicit Types (e : entity) (l : list entity).

Lemma ner_ascending_pairs l :
  Spec.ner_ascending l <-> ForallOrdPairs Spec.by_start l.
Proof. symmetry. apply ordered_pairs_lookup. Qed.

Lemma insert_by_start_perm e l : Permutation (e :: l) (insert_by_start e l).
Proof.
  induction l as [|x l IH]; simpl; [done|].
  destruct (start e <=? start x)%Z; [done|].
  rewrite perm_swap. by constructor.
Qed.

Lemma sort_by_start_perm l : Permutation l (sort_by_start l).
Proof.
  induction l as [|e l IH]; simpl; [done|].
  rewrite <- insert_by_start_perm. by constructor.
Qed.

Lemma insert_by_start_sorted e l :
  ForallOrdPairs Spec.by_start l -> ForallOrdPairs Spec.by_start (insert_by_start e l).
Proof.
  induction l as [|x l IH]; intros H; simpl.
  - repeat constructor.
  - inversion H as [|? ? Hall Hrest]; subst.
    destruct (Z.leb_spec (start e) (start x)) as [Hle|Hgt].
    + constructor; [|exact H]. constructor; [exact Hle|].
      rewrite Forall_forall in *. intros b Hb. specialize (Hall b Hb).
      unfold Spec.by_start in *. lia.
    + constructor; [|by apply IH].
      rewrite Forall_forall in *. intros b Hb.
      rewrite <- insert_by_start_perm in Hb.
      apply elem_of_cons in Hb as [->|Hb]; [unfold Spec.by_start; lia | by apply Hall].
Qed.

Lemma sort_by_start_sorted l : ForallOrdPairs Spec.by_start (sort_by_start l).
Proof.
  induction l as [|e l IH]; simpl; [constructor | by apply insert_by_start_sorted].
Qed.

(** Among the entities of one start position the sort changes nothing. *)
Lemma insert_by_start_stable e l (k : Z) :
  filter (fun x => start x = k) (insert_by_start e l)
  = filter (fun x => start x = k) (e :: l).
Proof.
  induction l as [|x l IH]; simpl; [done|].
  destruct (Z.leb_spec (start e) (start x)) as [Hle|Hgt]; [done|].
  rewrite filter_cons, IH, !filter_cons.
  destruct (decide (start x = k)), (decide (start e = k)); try done. lia.
Qed.

Lemma sort_by_start_stable l (k : Z) :
  filter (fun x => start x = k) (sort_by_start l)
  = filter (fun x => start x = k) l.
Proof.
  induction l as [|e l IH]; simpl; [done|].
  by rewrite insert_by_start_stable, !filter_cons, IH.
Qed.

Lemma sort_by_start_is_stable_sort l :
  Spec.stable_sort_by_start l (sort_by_start l).
Proof.
  split; [apply sort_by_start_perm|]. split.
  - apply ner_ascending_pairs, sort_by_start_sorted.
  - apply sort_by_start_stable.
Qed.

(** A list that is already in order is left as it is. *)
Lemma sort_by_start_sorted_id l :
  ForallOrdPairs Spec.by_start l -> sort_by_start l = l.
Proof.
  induction l as [|e l IH]; intros H; simpl; [done|].
  inversion H as [|? ? Hall Hrest]; subst. rewrite IH by exact Hrest.
  destruct l as [|x l]; simpl; [done|].
  inversion Hall as [|? ? Hx _]; subst. unfold Spec.by_start in Hx.
  apply Z.leb_le in Hx. by rewrite Hx.
Qed.

End Sorting.

(** ** The Merger: the walk *)

Section Walk.

Import NERService.

Implicit Types (e a : entity) (l acc : list entity).

Lemma spans_overlap_true (s1 s2 : Z * Z) :
  _spans_overlap s1 s2 = true <-> Spec.overlap s1 s2.
Proof.
  unfold _spans_overlap, Spec.overlap.
  by rewrite andb_true_iff, !Z.ltb_lt.
Qed.

Lemma ner_overlap_sym a e : Spec.ner_overlap a e -> Spec.ner_overlap e a.
Proof. unfold Spec.ner_overlap, Spec.overlap. tauto. Qed.

Lemma blocked_true acc e :
  existsb (fun a => _spans_overlap (span_of e) (span_of a)) acc = true
  <-> exists a, a ∈ acc /\ Spec.ner_overlap e a.
Proof.
  rewrite existsb_exists. unfold Spec.ner_overlap.
  split; intros (a & Ha & H); exists a.
  - split; [by apply list_elem_of_In | by apply spans_overlap_true].
  - split; [by apply list_elem_of_In | by apply spans_overlap_true].
Qed.

Lemma blocked_false acc e :
  existsb (fun a => _spans_overlap (span_of e) (span_of a)) acc = false
  <-> forall a, a ∈ acc -> ~ Spec.ner_overlap e a.
Proof.
  rewrite <- not_true_iff_false, blocked_true. split.
  - intros H a Ha Ho. apply H. by exists a.
  - intros H (a & Ha & Ho). by apply (H a).
Qed.

(** The test against the set of seen spans is the test against the
    entities accepted so far. *)
Lemma seen_spans_test acc e :
  existsb (_spans_overlap (span_of e))
          (elements (list_to_set (span_of <$> acc) : gset (Z * Z)))
  = existsb (fun a => _spans_overlap (span_of e) (span_of a)) acc.
Proof.
  apply eq_true_iff_eq. rewrite !existsb_exists. split.
  - intros (s & Hs & H). apply list_elem_of_In, elem_of_elements in Hs.
    apply elem_of_list_to_set, list_elem_of_fmap in Hs as (a & -> & Ha).
    exists a. split; [by apply list_elem_of_In | exact H].
  - intros (a & Ha & H). exists (span_of a). split; [|exact H].
    apply list_elem_of_In, elem_of_elements, elem_of_list_to_set.
    apply list_elem_of_fmap. exists a. split; [done | by apply list_elem_of_In].
Qed.

Lemma merge_loop_greedy l : forall acc (seen : gset (Z * Z)),
  seen = list_to_set (span_of <$> acc) ->
  fst (foldl merge_step (acc, seen) l) = Spec.greedy acc l.
Proof.
  induction l as [|e l IH]; intros acc seen Hseen; [done|].
  cbn [foldl Spec.greedy]. unfold merge_step at 2.
  rewrite Hseen, seen_spans_test.
  destruct (existsb _ acc); [by apply IH|].
  apply IH. rewrite fmap_app, list_to_set_app_L. simpl.
  rewrite (right_id_L ∅ (∪)). apply (comm_L (∪)).
Qed.

(** The code's loop over the set of spans is the greedy walk. *)
Lemma merge_entities_greedy (l1 l2 : list entity) :
  _merge_entities l1 l2 = Spec.greedy [] (sort_by_start (l1 ++ l2)).
Proof. unfold _merge_entities. by apply merge_loop_greedy. Qed.

Lemma greedy_app (u w : list entity) : forall acc,
  Spec.greedy acc (u ++ w) = Spec.greedy (Spec.greedy acc u) w.
Proof.
  induction u as [|e u IH]; intros acc; [done|]. simpl.
  destruct (existsb _ acc); apply IH.
Qed.

(** What was accepted stays, and what is added is taken from the
    candidates in their order. *)
Lemma greedy_extends l : forall acc,
  exists extra, Spec.greedy acc l = acc ++ extra /\ extra `sublist_of` l.
Proof.
  induction l as [|e l IH]; intros acc; simpl.
  - exists []. by rewrite app_nil_r.
  - destruct (existsb _ acc).
    + destruct (IH acc) as (extra & -> & Hsub).
      exists extra. split; [done | by constructor].
    + destruct (IH (acc ++ [e])) as (extra & -> & Hsub).
      exists (e :: extra). rewrite <- app_assoc. split; [done | by constructor].
Qed.

Lemma greedy_sublist l : Spec.greedy [] l `sublist_of` l.
Proof. by destruct (greedy_extends l []) as (extra & -> & Hsub). Qed.

(** Every candidate is accepted or overlaps an accepted entity. *)
Lemma greedy_covers l : forall acc a,
  a ∈ l ->
  a ∈ Spec.greedy acc l
  \/ exists x, x ∈ Spec.greedy acc l /\ Spec.ner_overlap a x.
Proof.
  induction l as [|e l IH]; intros acc a Ha; [by apply elem_of_nil in Ha|].
  simpl. apply elem_of_cons in Ha as [->|Ha].
  - destruct (existsb _ acc) eqn:Hb.
    + right. apply blocked_true in Hb as (x & Hx & Ho). exists x.
      split; [|exact Ho].
      destruct (greedy_extends l acc) as (extra & -> & _).
      apply elem_of_app. by left.
    + left. destruct (greedy_extends l (acc ++ [e])) as (extra & -> & _).
      rewrite !elem_of_app. left. right. by left.
  - destruct (existsb _ acc); by apply IH.
Qed.

Lemma greedy_overlap_free l : forall acc,
  ForallOrdPairs (fun a b => ~ Spec.ner_overlap a b) acc ->
  ForallOrdPairs (fun a b => ~ Spec.ner_overlap a b) (Spec.greedy acc l).
Proof.
  induction l as [|e l IH]; intros acc Hacc; [done|]. simpl.
  destruct (existsb _ acc) eqn:Hb; [by apply IH|].
  apply IH. apply ordered_pairs_app. repeat split; [exact Hacc | repeat constructor |].
  intros a b Ha Hb' Ho. apply list_elem_of_singleton in Hb' as ->.
  rewrite blocked_false in Hb. apply (Hb a Ha). by apply ner_overlap_sym.
Qed.

Lemma ner_overlap_free_pairs l :
  Spec.ner_overlap_free l
  <-> ForallOrdPairs (fun a b => ~ Spec.ner_overlap a b) l.
Proof.
  rewrite ordered_pairs_lookup. unfold Spec.ner_overlap_free. split.
  - intros H i j a b Hij. apply H. lia.
  - intros H i j a b Hne Ha Hb Ho.
    destruct (Nat.lt_ge_cases i j) as [Hlt|Hge].
    + by apply (H i j a b).
    + apply (H j i b a); [lia | done..|]. by apply ner_overlap_sym.
Qed.

(** The result of the Merger is ordered by start and free of overlaps. *)
Lemma merge_entities_already_merged (l1 l2 : list entity) :
  Spec.already_merged (_merge_entities l1 l2).
Proof.
  rewrite merge_entities_greedy. split.
  - apply ner_ascending_pairs.
    eapply ordered_pairs_sublist; [apply greedy_sublist|].
    apply sort_by_start_sorted.
  - apply ner_overlap_free_pairs, greedy_overlap_free. constructor.
Qed.

End Walk.

(** ** The Merger: ties and repetition *)

Section Ties.

Import NERService.

Implicit Types (e a b x : entity) (l u v p q t : list entity).

(** Inserting into a sorted list around one of its entities [b]: the
    entity goes to one side of [b], and to the left when its start is not
    larger. *)
Lemma insert_around x b v : forall u,
  ForallOrdPairs Spec.by_start (u ++ b :: v) ->
  exists u' v',
    insert_by_start x (u ++ b :: v) = u' ++ b :: v'
    /\ insert_by_start x (u ++ v) = u' ++ v'
    /\ (forall y, y ∈ u -> y ∈ u')
    /\ ((start x <= start b)%Z -> x ∈ u').
Proof.
  induction u as [|y u IH]; intros Hsorted; simpl.
  - destruct (Z.leb_spec (start x) (start b)) as [Hle|Hgt].
    + exists [x], v. split; [done|]. split; [|split].
      * destruct v as [|z v]; simpl; [done|].
        inversion Hsorted as [|? ? Hall _]; subst.
        inversion Hall as [|? ? Hz _]; subst. unfold Spec.by_start in Hz.
        assert (Hxz : (start x <=? start z)%Z = true) by (apply Z.leb_le; lia).
        by rewrite Hxz.
      * intros y Hy. by apply elem_of_nil in Hy.
      * intros _. by left.
    + exists [], (insert_by_start x v). split; [done|]. split; [done|].
      split; [done | lia].
  - destruct (Z.leb_spec (start x) (start y)) as [Hle|Hgt].
    + exists (x :: y :: u), v. split; [done|]. split; [|split].
      * done.
      * intros z Hz. by right.
      * intros _. by left.
    + inversion Hsorted as [|? ? _ Hrest]; subst.
      destruct (IH Hrest) as (u' & v' & Heq1 & Heq2 & Hu & Hx).
      exists (y :: u'), v'. split; [by rewrite Heq1|]. split; [|split].
      * by rewrite Heq2.
      * intros z Hz. apply elem_of_cons in Hz as [->|Hz]; [by left|].
        right. by apply Hu.
      * intros Hle. right. by apply Hx.
Qed.

Lemma insert_split x l :
  exists u v, insert_by_start x l = u ++ x :: v /\ l = u ++ v.
Proof.
  induction l as [|y l IH]; simpl.
  - by exists [], [].
  - destruct (start x <=? start y)%Z.
    + by exists [], (y :: l).
    + destruct IH as (u & v & -> & ->). by exists (y :: u), v.
Qed.

(** Taking one entity out of the input takes it out of the sorted list,
    and whatever stood before it with a start that is not larger stays to
    its left. *)
Lemma sort_by_start_remove b t : forall p,
  exists u v,
    sort_by_start (p ++ b :: t) = u ++ b :: v
    /\ sort_by_start (p ++ t) = u ++ v
    /\ (forall y, y ∈ p -> (start y <= start b)%Z -> y ∈ u).
Proof.
  induction p as [|x p IH]; simpl.
  - destruct (insert_split b (sort_by_start t)) as (u & v & -> & ->).
    exists u, v. repeat split. intros y Hy. by apply elem_of_nil in Hy.
  - destruct IH as (u & v & Hs1 & Hs2 & Hleft).
    pose proof (sort_by_start_sorted (p ++ b :: t)) as Hsorted.
    rewrite Hs1 in Hsorted. rewrite Hs1, Hs2.
    destruct (insert_around x b v u Hsorted) as (u' & v' & -> & -> & Hu & Hx).
    exists u', v'. repeat split.
    intros y Hy Hle. apply elem_of_cons in Hy as [->|Hy]; [by apply Hx|].
    by apply Hu, Hleft.
Qed.

(** Of two overlapping entities with the same start, the one that comes
    later in the input is discarded: the result is that of the input
    without it. *)
Lemma merge_drops_later_tie (l1 l2 p q t : list entity) a b :
  l1 ++ l2 = p ++ a :: q ++ b :: t ->
  start a = start b ->
  Spec.ner_overlap a b ->
  _merge_entities l1 l2 = _merge_entities (p ++ a :: q ++ t) [].
Proof.
  intros Hinput Hstart Hab.
  rewrite !merge_entities_greedy, Hinput, app_nil_r.
  replace (p ++ a :: q ++ b :: t) with ((p ++ a :: q) ++ b :: t)
    by (by rewrite <- app_assoc).
  replace (p ++ a :: q ++ t) with ((p ++ a :: q) ++ t)
    by (by rewrite <- app_assoc).
  destruct (sort_by_start_remove b t (p ++ a :: q))
    as (u & v & Hs1 & Hs2 & Hleft).
  pose proof (sort_by_start_sorted ((p ++ a :: q) ++ b :: t)) as Hsorted.
  rewrite Hs1 in Hsorted. rewrite Hs1, Hs2, !greedy_app.
  cbn [Spec.greedy].
  assert (Hau : a ∈ u).
  { apply Hleft; [|lia]. rewrite elem_of_app. right. by left. }
  assert (Hblocked :
    existsb (fun x => _spans_overlap (span_of b) (span_of x))
            (Spec.greedy [] u) = true).
  { apply blocked_true.
    destruct (greedy_covers u [] a Hau) as [Hin|(x & Hx & Hax)].
    - exists a. split; [exact Hin | by apply ner_overlap_sym].
    - exists x. split; [exact Hx|].
      assert (Hxu : x ∈ u) by (eapply elem_of_sublist; [exact Hx | apply greedy_sublist]).
      apply ordered_pairs_app in Hsorted as (_ & _ & Hcross).
      assert (Hxb : Spec.by_start x b) by (apply Hcross; [exact Hxu | by left]).
      unfold Spec.by_start in Hxb.
      unfold Spec.ner_overlap, Spec.overlap, span_of in *. simpl in *. lia. }
  by rewrite Hblocked.
Qed.

Lemma sort_by_start_app l : forall p,
  sort_by_start (p ++ l) = foldr insert_by_start (sort_by_start l) p.
Proof. induction p as [|x p IH]; simpl; [done | by rewrite IH]. Qed.

Lemma foldr_insert_above e u : forall t,
  (forall x, x ∈ t -> (start e < start x)%Z) ->
  foldr insert_by_start (e :: u) t = e :: foldr insert_by_start u t.
Proof.
  induction t as [|x t IH]; intros Habove; simpl; [done|].
  rewrite IH by (intros y Hy; apply Habove; by right). simpl.
  assert (Hx : (start x <=? start e)%Z = false).
  { apply Z.leb_gt, Habove. by left. }
  by rewrite Hx.
Qed.

(** Sorting two copies of a list whose starts increase puts every entity
    next to its copy. *)
Lemma sort_by_start_double l :
  ForallOrdPairs (fun a b => (start a < start b)%Z) l ->
  sort_by_start (l ++ l) = flat_map (fun e => [e; e]) l.
Proof.
  induction l as [|e t IH]; intros Hstrict; [done|].
  inversion Hstrict as [|? ? Hall Hrest]; subst.
  rewrite Forall_forall in Hall.
  assert (Hsorted : forall l', ForallOrdPairs (fun a b => (start a < start b)%Z) l' ->
                       sort_by_start l' = l').
  { intros l' H'. apply sort_by_start_sorted_id.
    apply ordered_pairs_lookup. rewrite ordered_pairs_lookup in H'.
    intros i j a b Hij Ha Hb. specialize (H' i j a b Hij Ha Hb).
    unfold Spec.by_start. lia. }
  cbn [app sort_by_start flat_map].
  rewrite sort_by_start_app, (Hsorted (e :: t) Hstrict).
  rewrite foldr_insert_above by exact Hall.
  rewrite <- (Hsorted t Hrest) at 1. rewrite <- sort_by_start_app, IH by exact Hrest.
  simpl. by rewrite Z.leb_refl.
Qed.

(** Walking a list of non-overlapping, non-empty entities in which every
    entity is followed by its copy accepts the entities and rejects the
    copies. *)
Lemma greedy_double l : forall acc,
  (forall e, e ∈ l -> (start e < end_ e)%Z) ->
  ForallOrdPairs (fun a b => ~ Spec.ner_overlap a b) l ->
  (forall a e, a ∈ acc -> e ∈ l -> ~ Spec.ner_overlap e a) ->
  Spec.greedy acc (flat_map (fun e => [e; e]) l) = acc ++ l.
Proof.
  induction l as [|e t IH]; intros acc Hne Hfree Hacc; simpl.
  - by rewrite app_nil_r.
  - inversion Hfree as [|? ? Hall Hrest]; subst.
    rewrite Forall_forall in Hall.
    assert (H1 : existsb (fun a => _spans_overlap (span_of e) (span_of a)) acc
                 = false).
    { apply blocked_false. intros a Ha. apply Hacc; [exact Ha | by left]. }
    assert (H2 : existsb (fun a => _spans_overlap (span_of e) (span_of a))
                         (acc ++ [e]) = true).
    { apply blocked_true. exists e. split; [apply elem_of_app; right; by left|].
      assert (start e < end_ e)%Z by (apply Hne; by left).
      unfold Spec.ner_overlap, Spec.overlap, span_of. simpl. lia. }
    rewrite H1, H2, IH.
    + by rewrite <- app_assoc.
    + intros x Hx. apply Hne. by right.
    + exact Hrest.
    + intros a x Ha Hx. apply elem_of_app in Ha as [Ha|Ha].
      * apply Hacc; [exact Ha | by right].
      * apply list_elem_of_singleton in Ha as ->.
        intros Ho. apply (Hall x Hx). by apply ner_overlap_sym.
Qed.

Lemma merged_strictly_ascending l :
  Spec.already_merged l -> Spec.nonempty_spans l ->
  ForallOrdPairs (fun a b => (start a < start b)%Z) l.
Proof.
  intros [Hasc Hfree] Hne. apply ordered_pairs_lookup.
  intros i j a b Hij Ha Hb.
  pose proof (Hasc i j a b Hij Ha Hb) as Hle.
  assert (Hno : ~ Spec.ner_overlap a b) by (apply (Hfree i j); [lia | done..]).
  pose proof (Hne a (list_elem_of_lookup_2 _ _ _ Ha)).
  pose proof (Hne b (list_elem_of_lookup_2 _ _ _ Hb)).
  unfold Spec.ner_overlap, Spec.overlap, span_of in Hno. simpl in Hno. lia.
Qed.

End Ties.

(** C5. The Merger concatenates its two lists, sorts the result by start
    position with a stable sort, and walks the sorted list accepting a
    candidate if and only if its span overlaps no span accepted before,
    spans [a0,a1) and [b0,b1) overlapping when [a0 < b1] and [b0 < a1].
    Hence, of two overlapping entities with the same start, the one that
    comes later in the input is never the one kept: the result is that of
    the input without it, and when the two are the whole input the result
    is the first alone, as for DATE [0,9) before PERSON [0,5). *)
Theorem merge_entities_rule (l1 l2 : list NERService.entity) :
  Spec.stable_sort_by_start (l1 ++ l2) (NERService.sort_by_start (l1 ++ l2))
  /\ NERService._merge_entities l1 l2
     = Spec.greedy [] (NERService.sort_by_start (l1 ++ l2))
  /\ (forall s1 s2 : Z * Z,
        NERService._spans_overlap s1 s2 = true
        <-> (fst s1 < snd s2)%Z /\ (fst s2 < snd s1)%Z)
  /\ (forall (s : list NERService.entity) (e : NERService.entity),
        (forall a, a ∈ Spec.greedy [] s -> ~ Spec.ner_overlap e a) ->
        Spec.greedy [] (s ++ [e]) = Spec.greedy [] s ++ [e])
  /\ (forall (s : list NERService.entity) (e a : NERService.entity),
        a ∈ Spec.greedy [] s -> Spec.ner_overlap e a ->
        Spec.greedy [] (s ++ [e]) = Spec.greedy [] s)
  /\ (forall (p q t : list NERService.entity) (a b : NERService.entity),
        l1 ++ l2 = p ++ a :: q ++ b :: t ->
        NERService.start a = NERService.start b ->
        Spec.ner_overlap a b ->
        NERService._merge_entities l1 l2
        = NERService._merge_entities (p ++ a :: q ++ t) [])
  /\ (forall a b : NERService.entity,
        NERService.start a = NERService.start b ->
        Spec.ner_overlap a b ->
        NERService._merge_entities [a; b] [] = [a]
        /\ NERService._merge_entities [a] [b] = [a]
        /\ NERService._merge_entities [] [a; b] = [a])
  /\ NERService._merge_entities [Sample.date_0_9; Sample.person_0_5] []
     = [Sample.date_0_9].
Proof.
  split; [apply sort_by_start_is_stable_sort|].
  split; [apply merge_entities_greedy|].
  split; [intros s1 s2; apply spans_overlap_true|].
  split.
  { intros s e Hfree. rewrite greedy_app. cbn [Spec.greedy].
    apply blocked_false in Hfree. by rewrite Hfree. }
  split.
  { intros s e a Ha Ho. rewrite greedy_app. cbn [Spec.greedy].
    assert (Hb : existsb
                   (fun x => NERService._spans_overlap (NERService.span_of e)
                                                       (NERService.span_of x))
                   (Spec.greedy [] s) = true)
      by (apply blocked_true; by exists a).
    by rewrite Hb. }
  split; [intros p q t a b; apply merge_drops_later_tie|].
  assert (Htwo : forall a b : NERService.entity,
             NERService.start a = NERService.start b ->
             Spec.ner_overlap a b ->
             NERService._merge_entities [a; b] [] = [a]
             /\ NERService._merge_entities [a] [b] = [a]
             /\ NERService._merge_entities [] [a; b] = [a]).
  { intros a b Hstart Ho.
    assert (H1 : NERService._merge_entities [a] [] = [a]).
    { rewrite merge_entities_greedy. reflexivity. }
    repeat split.
    - rewrite (merge_drops_later_tie [a; b] [] [] [] [] a b); done.
    - rewrite (merge_drops_later_tie [a] [b] [] [] [] a b); done.
    - rewrite (merge_drops_later_tie [] [a; b] [] [] [] a b); done. }
  split; [exact Htwo|].
  apply Htwo; [reflexivity|]. split; reflexivity.
Qed.

(** C5, as stated, fails: [first_5_8] and [second_5_7] overlap and start
    together, [first_5_8] comes first in the input, and yet it is not
    kept, whichever of the two lists the entities come in: the span
    [0,10) accepted before it overlaps it. *)
Lemma merge_first_of_tie_not_kept :
  NERService.start Sample.first_5_8 = NERService.start Sample.second_5_7
  /\ Spec.ner_overlap Sample.first_5_8 Sample.second_5_7
  /\ NERService._merge_entities
       [Sample.note_0_10; Sample.first_5_8; Sample.second_5_7] []
     = [Sample.note_0_10]
  /\ NERService._merge_entities
       [Sample.note_0_10] [Sample.first_5_8; Sample.second_5_7]
     = [Sample.note_0_10]
  /\ Sample.first_5_8
     ∉ NERService._merge_entities
         [Sample.note_0_10; Sample.first_5_8; Sample.second_5_7] [].
Proof.
  split; [reflexivity|]. split; [split; reflexivity|].
  assert (H : NERService._merge_entities
                [Sample.note_0_10; Sample.first_5_8; Sample.second_5_7] []
              = [Sample.note_0_10]) by (vm_compute; reflexivity).
  split; [exact H|]. split; [vm_compute; reflexivity|].
  rewrite H. intros Hin. apply list_elem_of_singleton in Hin. discriminate Hin.
Qed.

(** C7. The Merger is idempotent on its own results: a list that is
    ordered by start position, free of overlaps and made of spans that are
    not empty, merged with itself, comes back as it is. *)
Theorem merge_entities_idempotent (l : list NERService.entity) :
  Spec.already_merged l ->
  Spec.nonempty_spans l ->
  NERService._merge_entities l l = l.
Proof.
  intros Hmerged Hne.
  rewrite merge_entities_greedy.
  rewrite sort_by_start_double by (by apply merged_strictly_ascending).
  rewrite greedy_double; [done | exact Hne | |].
  - apply ner_overlap_free_pairs. by destruct Hmerged.
  - intros a e Ha. by apply elem_of_nil in Ha.
Qed.

Lemma merge_entities_idempotent_witness :
  NERService._merge_entities [Sample.date_0_9; Sample.org_12_16]
                             [Sample.date_0_9; Sample.org_12_16]
  = [Sample.date_0_9; Sample.org_12_16].
Proof.
  apply (merge_entities_idempotent [Sample.date_0_9; Sample.org_12_16]).
  - split.
    + apply ner_ascending_pairs. repeat constructor. vm_compute. discriminate.
    + apply ner_overlap_free_pairs. repeat constructor.
      intros [H1 H2]. vm_compute in H2. discriminate H2.
  - intros e He. repeat (apply elem_of_cons in He as [->|He]); [done..|].
    by apply elem_of_nil in He.
Defined.

(** ** The examples of the specification, run on the model *)

Section Examples.

Import PyStr EntityExtractionService.

(** "We had a meeting." holds a keyword and neither date nor time: no
    event. *)
Example no_event_without_date_or_time :
  option_map calendar_events
    (match outcome (extract_entities Sample.env "We had a meeting." true) with
     | inr r => Some r
     | inl _ => None
     end)
  = Some (Some []).
Proof. vm_compute. reflexivity. Qed.

(** "Let's have a meeting tomorrow at 3pm." gives one event, of
    confidence 0.7, whose title starts with the keyword. *)
Example one_event_with_date_and_time :
  match outcome (extract_entities Sample.env
                   "Let's have a meeting tomorrow at 3pm." true) with
  | inr r =>
      map (fun ev => (ev_title ev, ev_confidence ev, ev_source_text ev))
          (default [] (calendar_events r))
  | inl _ => []
  end
  = [("Meeting tomorrow at 3pm", 0.7%Q, "Let's have a meeting tomorrow at 3pm")].
Proof. vm_compute. reflexivity. Qed.

(** On a Tuesday, "Tuesday" is the Tuesday of the week after. *)
Example tuesday_on_a_tuesday :
  PyDate.weekday Sample.tuesday_morning = 1%Z
  /\ _parse_date Sample.env "Tuesday"
     = PyDate.add_days Sample.tuesday_morning 7.
Proof. split; reflexivity. Qed.

(** A literal keyword wins over a weekday name in the same text. *)
Example keyword_before_weekday :
  _parse_date Sample.env "next week Monday"
  = PyDate.add_days Sample.tuesday_morning 7
  /\ _parse_date Sample.env "Monday"
     = PyDate.add_days Sample.tuesday_morning 6.
Proof. split; reflexivity. Qed.

(** One calendar month after the last day of January. *)
Example next_month_clips_the_day :
  option_map (fun d => PyDate.ord2ymd (PyDate.ordinal d))
    (PyDate.add_relativedelta
       (PyDate.Datetime (PyDate.ymd2ord 2024 1 31) 0) 0 1)
  = Some (2024, 2, 29)%Z.
Proof. reflexivity. Qed.

(** An e-mail address, a phone number that does not parse and a URL. *)
Example contact_details :
  map (fun e => (type e, value e, start_pos e, end_pos e))
      (Spec.pattern_entities Sample.env
         "contact me at a@b.com or 555-123-4567, see https://x.org/a")
  = [("EMAIL", "a@b.com", 14%Z, 21%Z);
     ("PHONE", "555-123-4567", 25%Z, 37%Z);
     ("URL", "https://x.org/a", 43%Z, 58%Z)].
Proof. vm_compute. reflexivity. Qed.

(** The isoformat of a datetime reads back as that datetime. *)
Example isoformat_round_trip :
  PyDate.isoformat Sample.tuesday_morning = "2026-11-03T09:00:00"
  /\ PyDate.fromisoformat (PyDate.isoformat Sample.tuesday_morning)
     = Some Sample.tuesday_morning.
Proof. split; vm_compute; reflexivity. Qed.

End Examples.


(** * Further properties *)

(** ** More on strings *)

Section StringAlgebra.

Import PyStr.

Implicit Types (s t w : string) (n : nat) (ok : ascii -> bool).

Lemma str_app_cons (c : ascii) s t : String c s +:+ t = String c (s +:+ t).
Proof. reflexivity. Qed.

Lemma str_app_nil_l s : "" +:+ s = s.
Proof. reflexivity. Qed.

Lemma str_app_assoc s t w : (s +:+ t) +:+ w = s +:+ (t +:+ w).
Proof.
  induction s as [|c s IH]; [done|]. by rewrite !str_app_cons, IH.
Qed.

Lemma str_app_nil_r s : s +:+ "" = s.
Proof. induction s as [|c s IH]; [done|]. by rewrite str_app_cons, IH. Qed.

Lemma str_length_app s t :
  String.length (s +:+ t) = String.length s + String.length t.
Proof.
  induction s as [|c s IH]; [done|]. rewrite str_app_cons. simpl.
  by rewrite IH.
Qed.

Lemma take_app_length w t : take (String.length w) (w +:+ t) = w.
Proof.
  induction w as [|c w IH]; [by destruct t|].
  rewrite str_app_cons. simpl. by rewrite IH.
Qed.

Lemma drop_app_length w t : drop (String.length w) (w +:+ t) = t.
Proof. induction w as [|c w IH]; [done|]. rewrite str_app_cons. exact IH. Qed.

Lemma take_drop_id n s : take n s +:+ drop n s = s.
Proof.
  revert s. induction n as [|n IH]; intros [|c s]; simpl; try done.
  by rewrite str_app_cons, IH.
Qed.

Lemma take_length n s : String.length (take n s) = Nat.min n (String.length s).
Proof.
  revert s. induction n as [|n IH]; intros [|c s]; simpl; try done.
  by rewrite IH.
Qed.

Lemma drop_length n s : String.length (drop n s) = String.length s - n.
Proof.
  revert s. induction n as [|n IH]; intros [|c s]; simpl; try done; lia.
Qed.

Lemma drop_drop n k s : drop n (drop k s) = drop (k + n) s.
Proof.
  revert s. induction k as [|k IH]; intros s; simpl; [done|].
  destruct s as [|c s]; [by destruct n | apply IH].
Qed.

(** A slice within the bounds has the length of its span. *)
Lemma slice_length a b s :
  a <= b -> b <= String.length s -> String.length (slice a b s) = b - a.
Proof.
  intros Hab Hb. unfold slice. rewrite take_length, drop_length. lia.
Qed.

(** A slice occurs in the string it is cut from. *)
Lemma slice_contains a b s : Spec.contains s (slice a b s).
Proof.
  exists (take a s), (drop (b - a) (drop a s)). unfold slice.
  by rewrite !take_drop_id.
Qed.

Lemma contains_refl s : Spec.contains s s.
Proof. exists "", "". by rewrite str_app_nil_l, str_app_nil_r. Qed.

Lemma contains_trans s t w :
  Spec.contains s t -> Spec.contains t w -> Spec.contains s w.
Proof.
  intros (p1 & q1 & ->) (p2 & q2 & ->).
  exists (p1 +:+ p2), (q2 +:+ q1). by rewrite !str_app_assoc.
Qed.

Lemma all_of_app ok s t : all_of ok (s +:+ t) = all_of ok s && all_of ok t.
Proof.
  induction s as [|c s IH]; [done|]. rewrite str_app_cons. simpl.
  by rewrite IH, andb_assoc.
Qed.

Lemma all_of_contains ok s t :
  Spec.contains s t -> all_of ok s = true -> all_of ok t = true.
Proof.
  intros (p & q & ->). rewrite !all_of_app, !andb_true_iff. tauto.
Qed.

End StringAlgebra.


(** ** The matcher is sound for [accepts] *)

Section MatcherSound.

Import PyStr Re.

Variable ignorecase : bool.

(** What the matcher hands to its continuation is the end of an accepted
    match. *)
Lemma run_accepts (r : regex) :
  forall (c : cursor) (g : option (nat * nat)) (k : kont) (m : mtch),
    run ignorecase r c g k = Some m ->
    exists c' g', accepts ignorecase r c c' /\ k c' g' = Some m.
Proof.
  induction r as [|a|neg items|r1 IH1 r2 IH2|r1 IH1 r2 IH2|r1 IH1| |r1 IH1];
    intros c g k m; cbn [run].
  - intros H. exists c, g. split; [constructor | exact H].
  - unfold eat. destruct c as [prev rest pos]. simpl.
    destruct rest as [|b t]; [done|].
    destruct (item_match _ _ _) eqn:Hb; [|done]. intros H.
    eexists _, g. split; [|exact H]. by constructor.
  - unfold eat. destruct c as [prev rest pos]. simpl.
    destruct rest as [|b t]; [done|].
    destruct (set_match _ _ _ _) eqn:Hb; [|done]. intros H.
    eexists _, g. split; [|exact H]. by constructor.
  - intros H. apply IH1 in H as (c1 & g1 & Ha1 & H).
    apply IH2 in H as (c2 & g2 & Ha2 & H).
    exists c2, g2. split; [by econstructor | exact H].
  - destruct (run ignorecase r1 c g k) as [m'|] eqn:H1.
    + intros [= <-]. apply IH1 in H1 as (c1 & g1 & Ha & H1).
      exists c1, g1. split; [by apply acc_alt_l | exact H1].
    + intros H. apply IH2 in H as (c1 & g1 & Ha & H).
      exists c1, g1. split; [by apply acc_alt_r | exact H].
  - generalize (String.length (c_rest c)). intros fuel.
    revert c g. induction fuel as [|fuel IHf]; intros c g.
    + intros H. exists c, g. split; [constructor | exact H].
    + match goal with
      | |- context [run ignorecase r1 c g ?k1] =>
          destruct (run ignorecase r1 c g k1) as [m'|] eqn:H1
      end.
      * intros [= <-]. apply IH1 in H1 as (c1 & g1 & Ha1 & H1).
        destruct (c_pos c <? c_pos c1) eqn:Hlt; [|done].
        apply IHf in H1 as (c2 & g2 & Ha2 & H2).
        exists c2, g2. split; [by econstructor | exact H2].
      * intros H. exists c, g. split; [constructor | exact H].
  - destruct (at_boundary c) eqn:Hb; [|done]. intros H.
    exists c, g. split; [by constructor | exact H].
  - intros H. apply IH1 in H as (c1 & g1 & Ha & H).
    eexists c1, _. split; [by constructor | exact H].
Qed.

(** The span recorded for the capturing group is that of an accepted
    match of its body. *)
Lemma run_group_accepts (r : regex) (c : cursor) (g : option (nat * nat))
    (k : kont) (m : mtch) :
  run ignorecase (RGroup r) c g k = Some m ->
  exists c', accepts ignorecase r c c'
             /\ k c' (Some (c_pos c, c_pos c')) = Some m.
Proof.
  cbn [run]. intros H. apply run_accepts in H as (c' & g' & Ha & H).
  by exists c'.
Qed.

Lemma match_at_accepts (r : regex) (c : cursor) (must_advance : bool)
    (m : mtch) :
  match_at ignorecase r c must_advance = Some m ->
  exists c', accepts ignorecase r c c'
             /\ m_start m = c_pos c /\ m_end m = c_pos c'.
Proof.
  unfold match_at. intros H. apply run_accepts in H as (c' & g' & Ha & H).
  destruct (_ && _); [done|]. injection H as <-. by exists c'.
Qed.

(** An accepted match takes a run of characters off the text. *)
Lemma accepts_rest (r : regex) (c c' : cursor) :
  accepts ignorecase r c c' ->
  exists w : string,
    c_rest c = w +:+ c_rest c' /\ c_pos c' = c_pos c + String.length w.
Proof.
  induction 1 as [c|a b prev t pos Hb|neg items b prev t pos Hb
                  |r1 r2 c c1 c2 _ IH1 _ IH2|r1 r2 c c' _ IH|r1 r2 c c' _ IH
                  |r c|r c c1 c2 _ IH1 _ IH2|c Hb|r c c' _ IH].
  - exists "". simpl. split; [done | lia].
  - exists (String b ""). simpl. split; [done | lia].
  - exists (String b ""). simpl. split; [done | lia].
  - destruct IH1 as (w1 & Hr1 & Hp1), IH2 as (w2 & Hr2 & Hp2).
    exists (w1 +:+ w2). rewrite Hr1, Hr2, Hp2, Hp1.
    rewrite str_length_app, str_app_assoc. split; [done | lia].
  - exact IH.
  - exact IH.
  - exists "". simpl. split; [done | lia].
  - destruct IH1 as (w1 & Hr1 & Hp1), IH2 as (w2 & Hr2 & Hp2).
    exists (w1 +:+ w2). rewrite Hr1, Hr2, Hp2, Hp1.
    rewrite str_length_app, str_app_assoc. split; [done | lia].
  - exists "". simpl. split; [done | lia].
  - exact IH.
Qed.

End MatcherSound.


(** ** What the scanner finds *)

Section ScannerSound.

Import PyStr Re.

Variable ignorecase : bool.

Lemma drop_step (text : string) (pos : nat) (a : ascii) (t : string) :
  drop pos text = String a t ->
  drop (S pos) text = t /\ S pos <= String.length text.
Proof.
  intros H. split.
  - replace (S pos) with (pos + 1) by lia. by rewrite <- drop_drop, H.
  - pose proof (drop_length pos text) as Hlen. rewrite H in Hlen.
    simpl in Hlen. lia.
Qed.

(** An accepted match stays on the text, and what it takes is the slice
    between its two offsets. *)
Lemma accepts_on_text (text : string) (r : regex) (c c' : cursor) :
  accepts ignorecase r c c' ->
  at_offset text c ->
  at_offset text c'
  /\ c_pos c <= c_pos c'
  /\ c_rest c = slice (c_pos c) (c_pos c') text +:+ c_rest c'.
Proof.
  intros Ha [Hlen Hrest].
  destruct (accepts_rest ignorecase r c c' Ha) as (w & Hw & Hpos).
  assert (Hdrop : drop (c_pos c') text = c_rest c').
  { rewrite Hpos, <- drop_drop, <- Hrest, Hw. apply drop_app_length. }
  split; [|split].
  - split; [|by rewrite Hdrop].
    pose proof (drop_length (c_pos c) text) as Hl.
    rewrite <- Hrest, Hw, str_length_app in Hl. lia.
  - lia.
  - unfold slice. rewrite <- Hrest, Hw.
    replace (c_pos c' - c_pos c) with (String.length w) by lia.
    by rewrite take_app_length.
Qed.

Lemma match_at_found (text : string) (r : regex) (c : cursor)
    (must_advance : bool) (m : mtch) :
  at_offset text c ->
  match_at ignorecase r c must_advance = Some m ->
  found ignorecase r text m.
Proof.
  intros Hc H. apply match_at_accepts in H as (c' & Ha & Hs & He).
  by exists c, c'.
Qed.

(** What holds of every attempt of the matcher on the text holds of
    every match the scanner reports. *)
Lemma scan_all (Q : mtch -> Prop) (text : string) (r : regex) :
  (forall c must_advance m,
     at_offset text c -> match_at ignorecase r c must_advance = Some m -> Q m) ->
  forall (rest : string) (prev : option ascii) (pos skip : nat),
    at_offset text (Cursor prev rest pos) ->
    Forall Q (scan ignorecase r prev rest pos skip).
Proof.
  intros HQ. induction rest as [|a t IH]; intros prev pos skip Hc.
  - destruct skip as [|k]; cbn [scan]; [|constructor].
    destruct (match_at ignorecase r _ false) as [m|] eqn:H1; [|constructor].
    apply HQ in H1; [|exact Hc].
    destruct (m_end m =? pos).
    + destruct (match_at ignorecase r _ true) as [m2|] eqn:H2.
      * apply HQ in H2; [|exact Hc]. by repeat constructor.
      * by repeat constructor.
    + by repeat constructor.
  - assert (Hnext : forall k,
             Forall Q (scan ignorecase r (Some a) t (S pos) k)).
    { intros k. apply IH. destruct Hc as [_ Hrest].
      cbn [c_pos c_rest] in Hrest.
      destruct (drop_step text pos a t (eq_sym Hrest)) as [Hd Hl].
      unfold at_offset. cbn [c_pos c_rest]. split; [exact Hl | by symmetry]. }
    destruct skip as [|k]; cbn [scan]; [|apply Hnext].
    destruct (match_at ignorecase r _ false) as [m|] eqn:H1; [|apply Hnext].
    apply HQ in H1; [|exact Hc].
    destruct (m_end m =? pos).
    + destruct (match_at ignorecase r _ true) as [m2|] eqn:H2.
      * apply HQ in H2; [|exact Hc].
        constructor; [exact H1|]. constructor; [exact H2 | apply Hnext].
      * constructor; [exact H1 | apply Hnext].
    + constructor; [exact H1 | apply Hnext].
Qed.

Lemma finditer_all (Q : mtch -> Prop) (r : regex) (text : string) :
  (forall c must_advance m,
     at_offset text c -> match_at ignorecase r c must_advance = Some m -> Q m) ->
  Forall Q (finditer ignorecase r text).
Proof. intros HQ. apply (scan_all Q text r HQ). split; simpl; [lia | done]. Qed.

(** Every match of [finditer] spans an accepted match in the text. *)
Lemma finditer_found (r : regex) (text : string) :
  Forall (found ignorecase r text) (finditer ignorecase r text).
Proof.
  apply finditer_all. intros c adv m Hc H. by eapply match_at_found.
Qed.

Lemma accepts_must_consume (r : regex) (c c' : cursor) :
  accepts ignorecase r c c' -> must_consume r = true -> c_pos c < c_pos c'.
Proof.
  induction 1 as [c|a b prev t pos Hb|neg items b prev t pos Hb
                  |r1 r2 c c1 c2 H1 IH1 H2 IH2|r1 r2 c c' _ IH|r1 r2 c c' _ IH
                  |r c|r c c1 c2 _ IH1 _ IH2|c Hb|r c c' _ IH];
    cbn [must_consume]; try done; try (simpl; lia).
  - intros Hm.
    destruct (accepts_rest ignorecase _ _ _ H1) as (w1 & _ & Hp1).
    destruct (accepts_rest ignorecase _ _ _ H2) as (w2 & _ & Hp2).
    apply orb_true_iff in Hm as [Hm|Hm].
    + specialize (IH1 Hm). lia.
    + specialize (IH2 Hm). lia.
  - intros [Hm _]%andb_true_iff. by apply IH.
  - intros [_ Hm]%andb_true_iff. by apply IH.
Qed.

Lemma in_all_chars (b : ascii) : In b all_chars.
Proof.
  unfold all_chars. apply in_map_iff. exists (nat_of_ascii b).
  split; [apply ascii_nat_embedding|].
  apply in_seq. pose proof (nat_ascii_bounded b). lia.
Qed.

Lemma accepts_chars_within (ok : ascii -> bool) (r : regex) (c c' : cursor) :
  accepts ignorecase r c c' ->
  chars_within ignorecase ok r = true ->
  exists w : string,
    c_rest c = w +:+ c_rest c'
    /\ c_pos c' = c_pos c + String.length w
    /\ all_of ok w = true.
Proof.
  induction 1 as [c|a b prev t pos Hb|neg items b prev t pos Hb
                  |r1 r2 c c1 c2 _ IH1 _ IH2|r1 r2 c c' _ IH|r1 r2 c c' _ IH
                  |r c|r c c1 c2 _ IH1 _ IH2|c Hb|r c c' _ IH];
    cbn [chars_within]; intros Hok.
  - exists "". simpl. repeat split; lia.
  - exists (String b ""). simpl. repeat split; [lia|].
    rewrite forallb_forall in Hok. specialize (Hok b (in_all_chars b)).
    rewrite Hb in Hok. simpl in Hok. by rewrite Hok.
  - exists (String b ""). simpl. repeat split; [lia|].
    rewrite forallb_forall in Hok. specialize (Hok b (in_all_chars b)).
    rewrite Hb in Hok. simpl in Hok. by rewrite Hok.
  - apply andb_true_iff in Hok as [Hok1 Hok2].
    destruct (IH1 Hok1) as (w1 & Hr1 & Hp1 & Ha1).
    destruct (IH2 Hok2) as (w2 & Hr2 & Hp2 & Ha2).
    exists (w1 +:+ w2). rewrite Hr1, Hr2, Hp2, Hp1, str_length_app,
      str_app_assoc, all_of_app, Ha1, Ha2. repeat split. lia.
  - apply andb_true_iff in Hok as [Hok1 Hok2]. by apply IH.
  - apply andb_true_iff in Hok as [Hok1 Hok2]. by apply IH.
  - exists "". simpl. repeat split; lia.
  - destruct (IH1 Hok) as (w1 & Hr1 & Hp1 & Ha1).
    destruct (IH2 Hok) as (w2 & Hr2 & Hp2 & Ha2).
    exists (w1 +:+ w2). rewrite Hr1, Hr2, Hp2, Hp1, str_length_app,
      str_app_assoc, all_of_app, Ha1, Ha2. repeat split. lia.
  - exists "". simpl. repeat split; lia.
  - by apply IH.
Qed.

(** The facts about one match that the recognizers rely on. *)
Lemma found_bounds (r : regex) (text : string) (m : mtch) :
  found ignorecase r text m ->
  m_start m <= m_end m <= String.length text
  /\ (must_consume r = true -> m_start m < m_end m)
  /\ forall ok, chars_within ignorecase ok r = true ->
                all_of ok (group0 text m) = true.
Proof.
  intros (c & c' & Hc & Ha & Hs & He).
  destruct (accepts_on_text text r c c' Ha Hc) as ([Hlen' _] & Hle & Hslice).
  rewrite Hs, He. split; [lia|]. split.
  - by apply accepts_must_consume.
  - intros ok Hok.
    destruct (accepts_chars_within ok r c c' Ha Hok) as (w & Hw & Hp & Hall).
    unfold group0. rewrite Hs, He.
    destruct Hc as [_ Hrest]. unfold slice. rewrite <- Hrest, Hw.
    replace (c_pos c' - c_pos c) with (String.length w) by lia.
    by rewrite take_app_length.
Qed.

End ScannerSound.


(** ** The pattern recognizers *)

Section Recognizers.

Import PyStr Re EntityExtractionService.

Variable env : externals.
Variable txt : string.

(** The finds of the five recognizers are the entities [recognized]
    describes. *)
Lemma pattern_entities_recognized (e : ExtractedEntity) :
  e ∈ Spec.pattern_entities env txt <-> Spec.recognized env txt e.
Proof.
  unfold Spec.pattern_entities. rewrite !elem_of_app. split.
  - intros [He|[He|[He|[He|He]]]].
    + unfold _extract_emails in He.
      apply list_elem_of_fmap in He as (m & -> & Hm).
      apply list_elem_of_In in Hm.
      destruct (validate_email env _) eqn:Hv; by econstructor.
    + unfold _extract_phone_numbers in He.
      apply list_elem_of_In, in_flat_map in He as (p & Hp & He).
      apply list_elem_of_In, list_elem_of_omap in He as (m & Hm & He).
      apply list_elem_of_In in Hm.
      destruct (phone_check env _) eqn:Hv; [|done|]; injection He as <-.
      * by eapply Spec.rec_phone_valid.
      * by eapply Spec.rec_phone_error.
    + unfold _extract_urls in He.
      apply list_elem_of_fmap in He as (m & -> & Hm).
      apply list_elem_of_In in Hm. by constructor.
    + unfold _extract_dates in He.
      apply list_elem_of_In, in_flat_map in He as (p & Hp & He).
      apply list_elem_of_In, list_elem_of_omap in He as (m & Hm & He).
      apply list_elem_of_In in Hm.
      destruct (_parse_date env _) eqn:Hv; [|done]. injection He as <-.
      by eapply Spec.rec_date.
    + unfold _extract_times in He.
      apply list_elem_of_In, in_flat_map in He as (p & Hp & He).
      apply list_elem_of_In, list_elem_of_fmap in He as (m & -> & Hm).
      apply list_elem_of_In in Hm. by eapply Spec.rec_time.
  - intros [m n Hm Hv|m Hm Hv|p m f Hp Hm Hv|p m Hp Hm Hv|m Hm
            |p m d Hp Hm Hv|p m Hp Hm].
    + left. unfold _extract_emails. apply list_elem_of_fmap.
      exists m. rewrite Hv. split; [done | by apply list_elem_of_In].
    + left. unfold _extract_emails. apply list_elem_of_fmap.
      exists m. rewrite Hv. split; [done | by apply list_elem_of_In].
    + right; left. unfold _extract_phone_numbers.
      apply list_elem_of_In, in_flat_map. exists p. split; [exact Hp|].
      apply list_elem_of_In, list_elem_of_omap. exists m.
      rewrite Hv. split; [by apply list_elem_of_In | done].
    + right; left. unfold _extract_phone_numbers.
      apply list_elem_of_In, in_flat_map. exists p. split; [exact Hp|].
      apply list_elem_of_In, list_elem_of_omap. exists m.
      rewrite Hv. split; [by apply list_elem_of_In | done].
    + right; right; left. unfold _extract_urls. apply list_elem_of_fmap.
      exists m. split; [done | by apply list_elem_of_In].
    + right; right; right; left. unfold _extract_dates.
      apply list_elem_of_In, in_flat_map. exists p. split; [exact Hp|].
      apply list_elem_of_In, list_elem_of_omap. exists m.
      rewrite Hv. split; [by apply list_elem_of_In | done].
    + right; right; right; right. unfold _extract_times.
      apply list_elem_of_In, in_flat_map. exists p. split; [exact Hp|].
      apply list_elem_of_In, list_elem_of_fmap. exists m.
      split; [done | by apply list_elem_of_In].
Qed.

(** Every recognized entity is cut from a match of one of the patterns;
    unless it is a validated e-mail address or phone number (confidence
    0.9), its value is the matched text. *)
Lemma recognized_cut (e : ExtractedEntity) :
  Spec.recognized env txt e ->
  exists (ic : bool) (p : regex) (m : mtch),
    In (ic, p) Spec.recognizer_patterns
    /\ In m (finditer ic p txt)
    /\ start_pos e = Z.of_nat (m_start m)
    /\ end_pos e = Z.of_nat (m_end m)
    /\ context e = window txt m
    /\ (confidence e <> 0.9%Q -> value e = group0 txt m).
Proof.
  assert (Hin : forall (ic : bool) (p : regex)
                      (l1 : list (bool * regex)) (l2 : list regex)
                      (l3 : list (bool * regex)),
             In p l2 ->
             In (ic, p) (l1 ++ map (pair ic) l2 ++ l3)).
  { intros ic p l1 l2 l3 Hp. apply in_or_app. right. apply in_or_app. left.
    by apply in_map. }
  intros [m n Hm Hv|m Hm Hv|p m f Hp Hm Hv|p m Hp Hm Hv|m Hm
          |p m d Hp Hm Hv|p m Hp Hm].
  - exists false, email_pattern, m. repeat split; try done. by left.
  - exists false, email_pattern, m. repeat split; try done. by left.
  - exists false, p, m. repeat split; try done.
    by apply (Hin false p [_] phone_patterns).
  - exists false, p, m. repeat split; try done.
    by apply (Hin false p [_] phone_patterns).
  - exists false, url_pattern, m. repeat split; try done.
    unfold Spec.recognizer_patterns. apply in_or_app. right.
    apply in_or_app. right. by left.
  - exists true, p, m. repeat split; try done.
    unfold Spec.recognizer_patterns. apply in_or_app. right.
    apply in_or_app. right. apply in_or_app. right.
    apply in_or_app. left. by apply in_map.
  - exists true, p, m. repeat split; try done.
    unfold Spec.recognizer_patterns. apply in_or_app. right.
    apply in_or_app. right. apply in_or_app. right.
    apply in_or_app. right. by apply in_map.
Qed.

Lemma recognizer_patterns_consume :
  forallb (fun icp => must_consume (snd icp)) Spec.recognizer_patterns = true.
Proof. vm_compute. reflexivity. Qed.

End Recognizers.

Section Slices.

Import PyStr.

Implicit Types (s : string) (a b n k : nat).

Lemma take_take n k s : take n (take k s) = take (Nat.min n k) s.
Proof.
  revert k s. induction n as [|n IH]; intros [|k] [|c s]; simpl; try done.
  by rewrite IH.
Qed.

Lemma drop_take n k s : drop n (take k s) = take (k - n) (drop n s).
Proof.
  revert k s. induction n as [|n IH]; intros [|k] [|c s]; simpl; try done.
  by destruct (k - n).
Qed.

(** A slice of a slice is a slice of the string. *)
Lemma slice_slice a' b' a b s :
  a' <= a -> b <= b' ->
  slice (a - a') (b - a') (slice a' b' s) = slice a b s.
Proof.
  intros Ha Hb. unfold slice.
  rewrite drop_take, drop_drop, take_take.
  replace (a' + (a - a')) with a by lia.
  f_equal. lia.
Qed.

Lemma slice_within a' b' a b s :
  a' <= a -> b <= b' -> Spec.contains (slice a' b' s) (slice a b s).
Proof.
  intros Ha Hb. rewrite <- (slice_slice a' b' a b s Ha Hb).
  apply slice_contains.
Qed.

End Slices.

(** X1. Every entity found by a pattern recognizer lies on the text and
    is not empty: [0 <= start_pos < end_pos <= len(text)]. *)
Theorem pattern_entity_span (env : externals) (txt : string) :
  Forall (fun e => (0 <= start_pos e < end_pos e
                    /\ end_pos e <= Z.of_nat (String.length txt))%Z)
         (Spec.pattern_entities env txt).
Proof.
  apply Forall_forall. intros e He.
  apply pattern_entities_recognized, recognized_cut in He
    as (ic & p & m & Hp & Hm & -> & -> & _).
  pose proof (finditer_found ic p txt) as Hfound.
  rewrite Forall_forall in Hfound.
  apply list_elem_of_In, Hfound in Hm.
  destruct (found_bounds ic p txt m Hm) as (Hb & Hne & _).
  pose proof recognizer_patterns_consume as Hall.
  rewrite forallb_forall in Hall. specialize (Hall _ Hp). simpl in Hall.
  specialize (Hne Hall). lia.
Qed.

(** X2. The context of an entity found by a pattern recognizer is the
    window [text[max(0, start-30) : end+30]] and contains the matched
    text; unless the entity is a validated e-mail address or phone
    number (confidence 0.9), its value is the matched text
    [text[start:end]], of length [end_pos - start_pos]. *)
Theorem pattern_entity_value (env : externals) (txt : string) :
  Forall (fun e =>
            context e
            = PyStr.slice (Z.to_nat (start_pos e) - 30)
                          (Z.to_nat (end_pos e) + 30) txt
            /\ Spec.contains (context e) (Spec.span_text txt e)
            /\ (confidence e <> 0.9%Q ->
                value e = Spec.span_text txt e
                /\ Z.of_nat (String.length (value e))
                   = (end_pos e - start_pos e)%Z))
         (Spec.pattern_entities env txt).
Proof.
  apply Forall_forall. intros e He.
  apply pattern_entities_recognized, recognized_cut in He
    as (ic & p & m & Hp & Hm & Hs & He & Hc & Hv).
  pose proof (finditer_found ic p txt) as Hfound.
  rewrite Forall_forall in Hfound.
  apply list_elem_of_In, Hfound in Hm.
  destruct (found_bounds ic p txt m Hm) as (Hb & _ & _).
  unfold Spec.span_text. rewrite Hs, He, Hc, !Nat2Z.id.
  unfold EntityExtractionService.window.
  split; [done|]. split; [apply slice_within; lia|].
  intros Hconf. rewrite (Hv Hconf). unfold Re.group0.
  split; [done|]. rewrite slice_length by lia. lia.
Qed.


(** ** Reading a match off its pattern *)

Section Inversions.

Import PyStr Re.

Variable ignorecase : bool.

Lemma accepts_seq_inv (r1 r2 : regex) (c c2 : cursor) :
  accepts ignorecase (RSeq r1 r2) c c2 ->
  exists c1, accepts ignorecase r1 c c1 /\ accepts ignorecase r2 c1 c2.
Proof. inversion 1; subst. by eexists. Qed.

Lemma accepts_alt_inv (r1 r2 : regex) (c c' : cursor) :
  accepts ignorecase (RAlt r1 r2) c c' ->
  accepts ignorecase r1 c c' \/ accepts ignorecase r2 c c'.
Proof. inversion 1; subst; auto. Qed.

Lemma accepts_eps_inv (c c' : cursor) : accepts ignorecase REps c c' -> c' = c.
Proof. by inversion 1. Qed.

Lemma accepts_char_inv (a : ascii) (c c' : cursor) :
  accepts ignorecase (RChar a) c c' ->
  exists b, item_match ignorecase (IChar a) b = true
            /\ c_rest c = String b (c_rest c').
Proof. inversion 1; subst. by eexists. Qed.

Lemma str_app_inv_r (x y r : string) : x +:+ r = y +:+ r -> x = y.
Proof.
  intros H. assert (Hlen : String.length x = String.length y).
  { apply (f_equal String.length) in H. rewrite !str_length_app in H. lia. }
  rewrite <- (take_app_length x r), H, Hlen. apply take_app_length.
Qed.

End Inversions.

Section Literals.

Import PyStr Re.

(** A literal word, matched with case, is found as it is written. *)
Lemma accepts_lit (s : string) : forall c c' : cursor,
  accepts false (RLit s) c c' -> c_rest c = s +:+ c_rest c'.
Proof.
  induction s as [|a s IH]; intros c c' H; cbn [RLit] in H.
  - by apply accepts_eps_inv in H as ->.
  - apply accepts_seq_inv in H as (c1 & H1 & H2).
    apply accepts_char_inv in H1 as (b & Hb & ->).
    unfold item_match, item_has in Hb. apply Ascii.eqb_eq in Hb as <-.
    by rewrite (IH _ _ H2).
Qed.

Lemma accepts_opt_char (a : ascii) (c c' : cursor) :
  accepts false (ROpt (RChar a)) c c' ->
  c_rest c = c_rest c' \/ c_rest c = String a (c_rest c').
Proof.
  intros [H|H]%accepts_alt_inv.
  - apply accepts_char_inv in H as (b & Hb & ->).
    unfold item_match, item_has in Hb. apply Ascii.eqb_eq in Hb as <-.
    by right.
  - apply accepts_eps_inv in H as ->. by left.
Qed.

End Literals.

(** X3. The value of a URL entity begins with [http://], [https://] or
    [www.] and holds no white space. *)
Theorem url_entity_shape (txt : string) :
  Forall (fun e =>
            type e = "URL"
            /\ (PyStr.startswith "http://" (value e)
                || PyStr.startswith "https://" (value e)
                || PyStr.startswith "www." (value e)) = true
            /\ PyStr.all_of (fun c => negb (PyStr.is_space c)) (value e) = true)
         (EntityExtractionService._extract_urls txt).
Proof.
  apply Forall_forall. intros e He.
  unfold EntityExtractionService._extract_urls in He.
  apply list_elem_of_fmap in He as (m & -> & Hm).
  cbn [type value EntityExtractionService.of_match].
  pose proof (finditer_found false EntityExtractionService.url_pattern txt)
    as Hfound.
  rewrite Forall_forall in Hfound. specialize (Hfound m Hm).
  split; [done|]. split.
  - destruct Hfound as (c & c' & Hc & Ha & Hs & He).
    destruct (accepts_on_text false txt _ c c' Ha Hc) as (_ & _ & Hslice).
    unfold Re.group0. rewrite Hs, He.
    unfold EntityExtractionService.url_pattern in Ha.
    apply accepts_alt_inv in Ha as [Ha|Ha]; cbn [Re.RSeqs] in Ha.
    + apply accepts_seq_inv in Ha as (c1 & H1 & Ha).
      apply accepts_seq_inv in Ha as (c2 & H2 & Ha).
      apply accepts_seq_inv in Ha as (c3 & H3 & Ha).
      apply accepts_lit in H1, H3.
      destruct (accepts_rest false _ _ _ Ha) as (w & Hw & _).
      apply accepts_opt_char in H2 as [H2|H2];
        rewrite H1, H2, H3, Hw in Hslice.
      * change ("http" +:+ "://" +:+ w +:+ Re.c_rest c')
          with (("http://" +:+ w) +:+ Re.c_rest c') in Hslice.
        apply str_app_inv_r in Hslice as <-. reflexivity.
      * change ("http" +:+ String "s" ("://" +:+ w +:+ Re.c_rest c'))
          with (("https://" +:+ w) +:+ Re.c_rest c') in Hslice.
        apply str_app_inv_r in Hslice as <-. reflexivity.
    + apply accepts_seq_inv in Ha as (c1 & H1 & Ha).
      apply accepts_seq_inv in Ha as (c2 & H2 & Ha).
      apply accepts_lit in H1.
      apply accepts_char_inv in H2 as (b & Hb & H2).
      unfold Re.item_match, Re.item_has in Hb. apply Ascii.eqb_eq in Hb as <-.
      destruct (accepts_rest false _ _ _ Ha) as (w & Hw & _).
      rewrite H1, H2, Hw in Hslice.
      change ("www" +:+ String "." (w +:+ Re.c_rest c'))
        with (("www." +:+ w) +:+ Re.c_rest c') in Hslice.
      apply str_app_inv_r in Hslice as <-.
      rewrite orb_true_iff. by right.
  - destruct (found_bounds false _ txt m Hfound) as (_ & _ & Hall).
    apply Hall. vm_compute. reflexivity.
Qed.


(** ** The capturing group *)

Section Groups.

Import PyStr Re.

Variable ignorecase : bool.

(** A pattern that ends with its capturing group records, as the span of
    the group, an accepted match of the group's body that ends where the
    whole match ends. *)
Lemma run_last_group (text : string) (body : regex) (r : regex) :
  last_group r = Some body ->
  forall (c : cursor) (g : option (nat * nat)) (k : kont) (m : mtch),
    at_offset text c ->
    run ignorecase r c g k = Some m ->
    exists c1 c2,
      at_offset text c1 /\ c_pos c <= c_pos c1
      /\ accepts ignorecase body c1 c2
      /\ k c2 (Some (c_pos c1, c_pos c2)) = Some m.
Proof.
  induction r as [|a|neg items|r1 IH1 r2 IH2|r1 IH1 r2 IH2|r1 IH1| |r1 IH1];
    cbn [last_group]; try done.
  - intros Hbody c g k m Hc H. cbn [run] in H.
    apply run_accepts in H as (c' & g' & Ha & H).
    destruct (accepts_on_text ignorecase text r1 c c' Ha Hc) as (Hc' & Hle & _).
    destruct (IH2 Hbody c' g' k m Hc' H) as (c1 & c2 & Hc1 & Hle1 & Hb & Hk).
    exists c1, c2. repeat split; [apply Hc1 | apply Hc1 | lia | done..].
  - intros [= <-] c g k m Hc H.
    apply run_group_accepts in H as (c' & Ha & H).
    exists c, c'. repeat split; [apply Hc | apply Hc | lia | done..].
Qed.

Lemma match_at_group (text : string) (body r : regex) (c : cursor)
    (must_advance : bool) (m : mtch) :
  last_group r = Some body ->
  at_offset text c ->
  match_at ignorecase r c must_advance = Some m ->
  exists a : nat,
    m_group1 m = Some (a, m_end m)
    /\ m_start m <= a <= m_end m
    /\ m_end m <= String.length text
    /\ (must_consume body = true -> a < m_end m)
    /\ forall ok, chars_within ignorecase ok body = true ->
                  all_of ok (slice a (m_end m) text) = true.
Proof.
  intros Hbody Hc H. unfold match_at in H.
  destruct (run_last_group text body r Hbody _ _ _ _ Hc H)
    as (c1 & c2 & Hc1 & Hle & Ha & Hk).
  destruct (_ && _); [done|]. injection Hk as <-.
  cbn [m_group1 m_start m_end].
  destruct (accepts_on_text ignorecase text body c1 c2 Ha Hc1)
    as ([Hlen2 _] & Hle2 & Hslice).
  exists (c_pos c1). repeat split; try lia.
  - intros Hm. by apply (accepts_must_consume ignorecase body).
  - intros ok Hok.
    destruct (accepts_chars_within ignorecase ok body c1 c2 Ha Hok)
      as (w & Hw & Hp & Hall).
    destruct Hc1 as [_ Hrest]. unfold slice. rewrite <- Hrest, Hw.
    replace (c_pos c2 - c_pos c1) with (String.length w) by lia.
    by rewrite take_app_length.
Qed.

End Groups.

(** ** Stripping *)

Section Stripping.

Import PyStr.

Implicit Types s : string.

Lemma lstrip_suffix s : exists pre, s = pre +:+ lstrip s.
Proof.
  induction s as [|c s IH]; [by exists ""|]. simpl.
  destruct (is_space c); [|by exists ""].
  destruct IH as [pre IH]. exists (String c pre).
  by rewrite str_app_cons, <- IH.
Qed.

Lemma rstrip_prefix s : exists post, s = rstrip s +:+ post.
Proof.
  induction s as [|c s IH]; [by exists ""|]. simpl.
  destruct IH as [post IH]. destruct (rstrip s) as [|d t] eqn:Hr.
  - destruct (is_space c).
    + by exists (String c s).
    + exists s. by rewrite str_app_cons.
  - exists post. rewrite str_app_cons. by rewrite <- IH.
Qed.

(** What [strip] returns occurs in its argument. *)
Lemma strip_contains s : Spec.contains s (strip s).
Proof.
  unfold strip. destruct (lstrip_suffix s) as [pre Hpre].
  destruct (rstrip_prefix (lstrip s)) as [post Hpost].
  exists pre, post. by rewrite <- Hpost.
Qed.

Lemma lstrip_length s : String.length (lstrip s) <= String.length s.
Proof.
  induction s as [|c s IH]; simpl; [lia|]. destruct (is_space c); simpl; lia.
Qed.

Lemma lstrip_fixed s :
  lstrip s = s <->
  match s with EmptyString => True | String c _ => is_space c = false end.
Proof.
  destruct s as [|c s]; simpl; [done|].
  destruct (is_space c) eqn:Hc; split; try done.
  intros H. pose proof (lstrip_length s) as Hl. rewrite H in Hl. simpl in Hl.
  lia.
Qed.

Lemma lstrip_idem s : lstrip (lstrip s) = lstrip s.
Proof.
  induction s as [|c s IH]; simpl; [done|].
  destruct (is_space c) eqn:Hc; [exact IH|]. simpl. by rewrite Hc.
Qed.

Lemma rstrip_idem s : rstrip (rstrip s) = rstrip s.
Proof.
  induction s as [|c s IH]; simpl; [done|].
  destruct (rstrip s) as [|d t] eqn:Hr.
  - destruct (is_space c) eqn:Hc; simpl; [done | by rewrite Hc].
  - change (rstrip (String c (String d t)))
      with (match rstrip (String d t) with
            | EmptyString => if is_space c then EmptyString
                             else String c EmptyString
            | t' => String c t'
            end).
    by rewrite IH.
Qed.

Lemma lstrip_rstrip s : lstrip s = s -> lstrip (rstrip s) = rstrip s.
Proof.
  intros H. apply lstrip_fixed in H. apply lstrip_fixed.
  destruct s as [|c s]; simpl; [done|].
  destruct (rstrip s); [|done]. by rewrite H.
Qed.

(** Stripping twice is stripping once: what [strip] returns has no white
    space at either end. *)
Lemma strip_idem s : strip (strip s) = strip s.
Proof.
  unfold strip. rewrite lstrip_rstrip by apply lstrip_idem.
  apply rstrip_idem.
Qed.

Lemma is_empty_true s : is_empty s = true <-> s = "".
Proof. by destruct s. Qed.

End Stripping.


(** X4. Every action item has type [action_item] and confidence 0.8; its
    text is not empty, has no white space at either end and holds none of
    the characters [.], [!] and [?]; the text lies within the item's
    [full_context], which lies within the input. *)
Theorem action_item_shape (env : externals) (txt : string) :
  Forall (fun a =>
            ai_type a = "action_item"
            /\ ai_confidence a = 0.8%Q
            /\ ai_text a <> ""
            /\ PyStr.strip (ai_text a) = ai_text a
            /\ PyStr.all_of
                 (fun c => negb (Ascii.eqb c "." || Ascii.eqb c "!"
                                 || Ascii.eqb c "?"))
                 (ai_text a) = true
            /\ Spec.contains (ai_full_context a) (ai_text a)
            /\ Spec.contains txt (ai_full_context a))
         (EntityExtractionService.extract_action_items env txt).
Proof.
  apply Forall_forall. intros a Ha.
  unfold EntityExtractionService.extract_action_items in Ha.
  apply list_elem_of_In, in_flat_map in Ha as (p & Hp & Ha).
  apply list_elem_of_In, list_elem_of_omap in Ha as (m & Hm & Ha).
  destruct (PyStr.is_empty (PyStr.strip (Re.group1 txt m))) eqn:Hempty;
    [done|]. injection Ha as <-.
  cbn [ai_type ai_confidence ai_text ai_full_context].
  assert (Hbody : Re.last_group p
                  = Some (Re.RPlus (Re.RSet true [Re.IChar "."; Re.IChar "!";
                                                  Re.IChar "?"]))).
  { clear -Hp. revert p Hp. apply List.Forall_forall. repeat constructor. }
  pose proof (finditer_all true
                (fun m => exists a : nat,
                   Re.m_group1 m = Some (a, Re.m_end m)
                   /\ Re.m_start m <= a <= Re.m_end m
                   /\ forall ok,
                        Re.chars_within true ok
                          (Re.RPlus (Re.RSet true [Re.IChar "."; Re.IChar "!";
                                                   Re.IChar "?"])) = true ->
                        PyStr.all_of ok (PyStr.slice a (Re.m_end m) txt) = true)
                p txt) as Hall.
  rewrite Forall_forall in Hall.
  destruct (Hall ltac:(intros c adv m' Hc Hm';
                       destruct (match_at_group true txt _ p c adv m' Hbody Hc Hm')
                         as (a & ? & ? & ? & ? & ?); by exists a)
              m Hm) as (a & Hg & Hle & Hchars).
  unfold Re.group1, Re.group0. rewrite Hg.
  assert (Hsub : Spec.contains (PyStr.slice a (Re.m_end m) txt)
                   (PyStr.strip (PyStr.slice a (Re.m_end m) txt)))
    by apply strip_contains.
  repeat split.
  - intros Heq. unfold Re.group1 in Hempty. rewrite Hg, Heq in Hempty.
    discriminate Hempty.
  - apply strip_idem.
  - eapply all_of_contains; [exact Hsub|]. apply Hchars.
    vm_compute. reflexivity.
  - eapply contains_trans; [|exact Hsub]. apply slice_within; lia.
  - apply slice_contains.
Qed.


(** ** Blank texts *)

Section Blank.

Import PyStr.

Implicit Types s : string.

Lemma lstrip_all_space s : all_of is_space s = true -> lstrip s = "".
Proof.
  induction s as [|c s IH]; simpl; [done|].
  intros [Hc Hs]%andb_true_iff. rewrite Hc. by apply IH.
Qed.

Lemma rstrip_empty s : rstrip s = "" -> all_of is_space s = true.
Proof.
  induction s as [|c s IH]; simpl; [done|].
  destruct (rstrip s) eqn:Hr; [|done].
  destruct (is_space c); [|done]. intros _. by apply IH.
Qed.

Lemma lstrip_spaces_back s :
  all_of is_space (lstrip s) = true -> all_of is_space s = true.
Proof.
  induction s as [|c s IH]; simpl; [done|].
  destruct (is_space c) eqn:Hc; simpl; [exact IH | by rewrite Hc].
Qed.

(** A text is blank for the orchestrator exactly when it is made of white
    space only. *)
Lemma blank_all_space s :
  is_empty (strip s) = true <-> all_of is_space s = true.
Proof.
  rewrite is_empty_true. unfold strip. split.
  - intros H. by apply lstrip_spaces_back, rstrip_empty.
  - intros H. by rewrite lstrip_all_space.
Qed.

End Blank.

(** X5. On a text made of white space only (the empty text included)
    [extract_entities] calls nothing, neither the NER capability nor a
    recognizer, and returns no entities and an empty list of calendar
    events, whatever [include_calendar] is, with no [entity_counts],
    [text_length] or [word_count]; on any other text the NER capability
    is called first. *)
Theorem blank_text_short_circuit (env : externals) (txt : string)
    (include_calendar : bool) :
  (PyStr.all_of PyStr.is_space txt = true ->
   EntityExtractionService.extract_entities env txt include_calendar
   = ([], inr (mkExtraction [] None None None (Some []))))
  /\ (PyStr.all_of PyStr.is_space txt = false ->
      exists rest,
        trace (EntityExtractionService.extract_entities env txt
                 include_calendar)
        = CallNER txt :: rest).
Proof.
  pose proof (blank_all_space txt) as Hblank.
  unfold EntityExtractionService.extract_entities.
  destruct (PyStr.is_empty (PyStr.strip txt)).
  - split; [done|]. intros H. rewrite H in Hblank.
    discriminate (proj1 Hblank eq_refl).
  - split.
    + intros H. discriminate (proj2 Hblank H).
    + intros _.
      match goal with
      | |- exists rest, trace (bind ?m ?f) = _ =>
          destruct (trace_bind m f) as [rest Hrest]; exists rest; exact Hrest
      end.
Qed.

(** ** More on relative dates *)

Section WeekdayOrder.

Import PyStr EntityExtractionService.

Lemma weekday_loop_none (today : PyDate.datetime) (lowered : string)
    (otherwise : option PyDate.datetime) (days : list string) : forall i : Z,
  (forall d, In d days -> str_in d lowered = false) ->
  weekday_loop today lowered i days otherwise = otherwise.
Proof.
  induction days as [|d days IH]; intros i Hnone; simpl; [done|].
  rewrite (Hnone d) by (by left). apply IH. intros d' Hd'. apply Hnone.
  by right.
Qed.

Lemma weekday_loop_first (today : PyDate.datetime) (lowered : string)
    (otherwise : option PyDate.datetime) (name : string)
    (post : list string) (pre : list string) : forall i : Z,
  (forall d, In d pre -> str_in d lowered = false) ->
  str_in name lowered = true ->
  weekday_loop today lowered i (pre ++ name :: post) otherwise
  = PyDate.add_days today
      (Spec.days_ahead today (i + Z.of_nat (length pre))).
Proof.
  induction pre as [|d pre IH]; intros i Hnone Hname; simpl.
  - rewrite Hname. unfold Spec.days_ahead. by rewrite Z.add_0_r.
  - rewrite (Hnone d) by (by left).
    rewrite IH; [|intros d' Hd'; apply Hnone; by right | exact Hname].
    do 2 f_equal. lia.
Qed.

Lemma parse_date_no_keyword (env : externals) (date_text : string) :
  (forall k, In k Spec.relative_keywords ->
             ~ Spec.contains (lower date_text) k) ->
  _parse_date env date_text
  = weekday_loop (now env) (lower date_text) 0 weekday_names
      (dateutil_parse env date_text).
Proof.
  intros Hno. unfold _parse_date.
  assert (H : forall k, In k Spec.relative_keywords ->
                        str_in k (lower date_text) = false).
  { intros k Hk. by apply str_in_not_contains, Hno. }
  rewrite !H; [done|simpl; auto 10..].
Qed.

End WeekdayOrder.

(** X6. In a text without literal keyword, the weekday names are tried
    from Monday to Sunday, not in the order of the text: the first name
    of that list the text contains decides, and the date is today plus
    the days that lead to that weekday. *)
Theorem parse_date_weekday_order (env : externals) (date_text : string)
    (i : nat) (name : string) :
  (forall k, In k Spec.relative_keywords ->
             ~ Spec.contains (PyStr.lower date_text) k) ->
  EntityExtractionService.weekday_names !! i = Some name ->
  Spec.contains (PyStr.lower date_text) name ->
  (forall (j : nat) (earlier : string),
     j < i -> EntityExtractionService.weekday_names !! j = Some earlier ->
     ~ Spec.contains (PyStr.lower date_text) earlier) ->
  EntityExtractionService._parse_date env date_text
  = PyDate.add_days (now env) (Spec.days_ahead (now env) (Z.of_nat i)).
Proof.
  intros Hno Hname Hin Hfirst.
  rewrite parse_date_no_keyword by exact Hno.
  rewrite <- (take_drop_middle _ _ _ Hname).
  rewrite weekday_loop_first.
  - rewrite length_take_le; [done|].
    apply lookup_lt_Some in Hname. lia.
  - intros d Hd. apply str_in_not_contains.
    apply list_elem_of_In, list_elem_of_lookup_1 in Hd as [j Hj].
    pose proof (lookup_lt_Some _ _ _ Hj) as Hlt.
    rewrite length_take in Hlt.
    apply (Hfirst j d); [lia|].
    rewrite lookup_take_lt in Hj by lia. exact Hj.
  - by apply str_in_contains.
Qed.

Lemma parse_date_weekday_order_witness :
  EntityExtractionService._parse_date Sample.env "Sunday or Monday"
  = PyDate.add_days (now Sample.env) (Spec.days_ahead (now Sample.env) (Z.of_nat 0)).
Proof.
  apply (parse_date_weekday_order Sample.env "Sunday or Monday" 0 "monday").
  - intros k Hk. apply str_in_not_contains.
    repeat (destruct Hk as [<-|Hk]; [reflexivity|]). destruct Hk.
  - reflexivity.
  - apply str_in_contains. reflexivity.
  - intros j earlier Hj. lia.
Defined.

(** X7. A text that holds neither a literal keyword nor a weekday name is
    left to the fuzzy parser: [_parse_date] returns what
    [dateutil.parser.parse] returns, and nothing when it fails. *)
Theorem parse_date_fallback (env : externals) (date_text : string) :
  (forall k, In k Spec.relative_keywords ->
             ~ Spec.contains (PyStr.lower date_text) k) ->
  (forall d, In d EntityExtractionService.weekday_names ->
             ~ Spec.contains (PyStr.lower date_text) d) ->
  EntityExtractionService._parse_date env date_text
  = dateutil_parse env date_text.
Proof.
  intros Hno Hdays. rewrite parse_date_no_keyword by exact Hno.
  apply weekday_loop_none. intros d Hd. by apply str_in_not_contains, Hdays.
Qed.

Lemma parse_date_fallback_witness :
  EntityExtractionService._parse_date Sample.env "in 3 days"
  = dateutil_parse Sample.env "in 3 days".
Proof.
  apply (parse_date_fallback Sample.env "in 3 days").
  - intros k Hk. apply str_in_not_contains.
    repeat (destruct Hk as [<-|Hk]; [reflexivity|]). destruct Hk.
  - intros d Hd. apply str_in_not_contains.
    repeat (destruct Hd as [<-|Hd]; [reflexivity|]). destruct Hd.
Defined.


(** ** More on the Calendar Event Synthesizer *)

Section Sentences.

Import PyStr EntityExtractionService.

(** The pieces of [s.split(c)] hold no [c], and each occurs in [s]; the
    first is a prefix of [s]. *)
Lemma split_char_pieces (c : ascii) (s : string) :
  exists w ws,
    split_char c s = w :: ws
    /\ (exists r, s = w +:+ r)
    /\ all_of (fun a => negb (Ascii.eqb a c)) w = true
    /\ Forall (fun p => Spec.contains s p
                        /\ all_of (fun a => negb (Ascii.eqb a c)) p = true)
              ws.
Proof.
  induction s as [|a s IH]; simpl.
  - exists "", []. repeat split; [by exists "" | constructor].
  - destruct IH as (w & ws & Hsplit & [r Hr] & Hw & Hws).
    assert (Hlift : Forall (fun p => Spec.contains (String a s) p
                        /\ all_of (fun a => negb (Ascii.eqb a c)) p = true) ws).
    { eapply Forall_impl; [exact Hws|]. intros p [[pre [post Hp]] Hok].
      split; [|exact Hok]. exists (String a pre), post.
      by rewrite str_app_cons, <- Hp. }
    destruct (Ascii.eqb a c) eqn:Hac.
    + exists "", (split_char c s). repeat split; [by exists (String a s)|].
      rewrite Hsplit. constructor; [|exact Hlift].
      split; [|exact Hw]. exists (String a ""), r. by rewrite Hr at 1.
    + rewrite Hsplit. exists (String a w), ws. repeat split.
      * exists r. by rewrite str_app_cons, <- Hr.
      * simpl. by rewrite Hac.
      * exact Hlift.
Qed.

Lemma split_char_all (c : ascii) (s : string) :
  Forall (fun p => Spec.contains s p
                   /\ all_of (fun a => negb (Ascii.eqb a c)) p = true)
         (split_char c s).
Proof.
  destruct (split_char_pieces c s) as (w & ws & -> & [r Hr] & Hw & Hws).
  constructor; [|exact Hws]. split; [|exact Hw].
  exists "", r. by rewrite str_app_nil_l.
Qed.

Lemma startswith_app (p s : string) : startswith p (p +:+ s) = true.
Proof. apply startswith_true. by exists s. Qed.

Lemma startswith_refl (p : string) : startswith p p = true.
Proof. apply startswith_true. exists "". by rewrite str_app_nil_r. Qed.

Lemma title_from_length (b : bool) (s : string) :
  String.length (title_from b s) = String.length s.
Proof.
  revert b. induction s as [|c s IH]; intros b; simpl; [done|]. by rewrite IH.
Qed.

(** When a keyword is present the title is made from the first keyword of
    the list the sentence contains. *)
Lemma title_loop_keyword (sentence : string) (keywords : list string) :
  existsb (fun keyword => str_in keyword (lower sentence)) keywords = true ->
  exists k, In k keywords
            /\ str_in k (lower sentence) = true
            /\ startswith (title k) (title_loop sentence keywords) = true
            /\ String.length (title_loop sentence keywords)
               <= String.length k + 51.
Proof.
  induction keywords as [|k keywords IH]; cbn [title_loop existsb]; [done|].
  destruct (str_in k (lower sentence)) eqn:Hk.
  - intros _. exists k. split; [by left|]. split; [done|].
    destruct (split_sub k (lower sentence)) as [|p0 [|p1 ps]].
    + split; [apply startswith_refl|]. unfold title.
      rewrite title_from_length. lia.
    + split; [apply startswith_refl|]. unfold title.
      rewrite title_from_length. lia.
    + split; [apply startswith_app|].
      rewrite !str_length_app. unfold title. rewrite title_from_length.
      rewrite take_length. change (String.length " ") with 1. lia.
  - cbn [orb]. intros H. destruct (IH H) as (k' & Hin & Hk' & Hs & Hl).
    exists k'. split; [by right|]. done.
Qed.

End Sentences.

Section Events.

Import PyStr EntityExtractionService.

Variable env : externals.
Variable ents : list ExtractedEntity.

(** What holds of the events of each stripped, non-empty piece holds of
    the events of the text. *)
Lemma calendar_events_all (Q : CalendarEvent -> Prop) (txt : string) :
  (forall raw ev,
     In raw (split_char "." txt) ->
     is_empty (strip raw) = false ->
     In ev (sentence_events env ents (strip raw)) -> Q ev) ->
  Forall Q (_extract_calendar_events env txt ents).
Proof.
  intros HQ. unfold _extract_calendar_events. rewrite calendar_loop.
  apply List.Forall_forall. intros ev Hev. simpl in Hev.
  apply in_flat_map in Hev as (raw & Hraw & Hev).
  destruct (is_empty (strip raw)) eqn:He; [done|]. by apply (HQ raw).
Qed.

Lemma sentence_events_inv (sentence : string) (ev : CalendarEvent) :
  In ev (sentence_events env ents sentence) ->
  has_event_keyword sentence = true
  /\ ev_title ev = _extract_event_title sentence
  /\ ev_description ev = sentence
  /\ ev_source_text ev = sentence
  /\ ev_end_time ev = None
  /\ ev_entities ev = sentence_entities ents sentence
  /\ ev_start_time ev
     = _combine_date_time env
         (List.filter (type_in ["DATE"]) (sentence_entities ents sentence))
         (List.filter (type_in ["TIME"]) (sentence_entities ents sentence))
  /\ ev_attendees ev
     = map value (List.filter (type_in ["PERSON"; "ORG"])
                    (sentence_entities ents sentence))
  /\ ev_location ev
     = match List.filter (type_in ["GPE"; "LOC"; "FAC"])
               (sentence_entities ents sentence) with
       | loc :: _ => Some (value loc)
       | [] => None
       end
  /\ (nonempty (List.filter (type_in ["DATE"])
                  (sentence_entities ents sentence))
      || nonempty (List.filter (type_in ["TIME"])
                     (sentence_entities ents sentence))) = true
  /\ ev_confidence ev
     = (if nonempty (List.filter (type_in ["DATE"])
                       (sentence_entities ents sentence))
           && nonempty (List.filter (type_in ["TIME"])
                          (sentence_entities ents sentence))
        then 0.7%Q else 0.5%Q).
Proof.
  unfold sentence_events.
  destruct (has_event_keyword sentence) eqn:Hk; [|done].
  cbn [andb].
  destruct (nonempty _ || nonempty _) eqn:Hdt; [|done].
  intros [<-|[]]. cbn. repeat split; done.
Qed.

End Events.


Section EventFacts.

Import PyStr EntityExtractionService.

Lemma filter_none {A : Type} (f : A -> bool) (l : list A) :
  (forall x, In x l -> f x = false) -> List.filter f l = [].
Proof.
  induction l as [|a l IH]; intros H; simpl; [done|].
  rewrite (H a) by (by left). apply IH. intros x Hx. apply H. by right.
Qed.

Lemma length_flat_map_le {A B : Type} (f : A -> list B) (l : list A) :
  (forall a, length (f a) <= 1) -> length (flat_map f l) <= length l.
Proof.
  intros Hf. induction l as [|a l IH]; simpl; [lia|].
  rewrite length_app. specialize (Hf a). lia.
Qed.

Lemma recognized_type (env : externals) (txt : string) (e : ExtractedEntity) :
  Spec.recognized env txt e ->
  In (type e) ["EMAIL"; "PHONE"; "URL"; "DATE"; "TIME"].
Proof. intros []; simpl; auto 10. Qed.

End EventFacts.

(** X8. Every calendar event has no end time; its description and its
    source text are the same sentence, which is not empty, has no white
    space at either end, holds no full stop and occurs in the input; its
    entities are the entities selected for that sentence. There are at
    most as many events as pieces of [text.split('.')]. *)
Theorem calendar_event_sentence (env : externals) (txt : string)
    (ents : list ExtractedEntity) :
  Forall (fun ev =>
            ev_end_time ev = None
            /\ ev_description ev = ev_source_text ev
            /\ ev_source_text ev <> ""
            /\ PyStr.strip (ev_source_text ev) = ev_source_text ev
            /\ PyStr.all_of (fun c => negb (Ascii.eqb c "."))
                 (ev_source_text ev) = true
            /\ Spec.contains txt (ev_source_text ev)
            /\ ev_entities ev
               = EntityExtractionService.sentence_entities ents
                   (ev_source_text ev))
         (EntityExtractionService._extract_calendar_events env txt ents)
  /\ length (EntityExtractionService._extract_calendar_events env txt ents)
     <= length (PyStr.split_char "." txt).
Proof.
  split.
  - apply calendar_events_all. intros raw ev Hraw Hne Hev.
    apply sentence_events_inv in Hev
      as (_ & _ & Hd & Hs & He & Hents & _).
    rewrite Hd, Hs, He, Hents.
    pose proof (split_char_all "." txt) as Hpieces.
    rewrite List.Forall_forall in Hpieces.
    destruct (Hpieces raw Hraw) as [Hin Hdot].
    pose proof (strip_contains raw) as Hsub.
    repeat split.
    + intros Heq. by rewrite Heq in Hne.
    + apply strip_idem.
    + by eapply all_of_contains.
    + by eapply contains_trans.
  - unfold EntityExtractionService._extract_calendar_events.
    rewrite calendar_loop. simpl. apply length_flat_map_le.
    intros raw. destruct (PyStr.is_empty _); [simpl; lia|].
    unfold EntityExtractionService.sentence_events.
    destruct (_ && _); simpl; lia.
Qed.

(** X9. The title of every calendar event begins with an event keyword
    in title case, a keyword the sentence contains; the fall-back title
    (the first 50 characters of the sentence) is never used, and the
    title is at most 51 characters longer than the keyword. *)
Theorem calendar_event_title (env : externals) (txt : string)
    (ents : list ExtractedEntity) :
  Forall (fun ev =>
            exists k,
              In k EntityExtractionService.event_keywords
              /\ Spec.contains (PyStr.lower (ev_source_text ev)) k
              /\ PyStr.startswith (PyStr.title k) (ev_title ev) = true
              /\ String.length (ev_title ev) <= String.length k + 51)
         (EntityExtractionService._extract_calendar_events env txt ents).
Proof.
  apply calendar_events_all. intros raw ev Hraw Hne Hev.
  apply sentence_events_inv in Hev as (Hk & Ht & _ & Hs & _).
  rewrite Ht, Hs. unfold EntityExtractionService._extract_event_title.
  destruct (title_loop_keyword _ _ Hk) as (k & Hin & Hk' & Hstart & Hlen).
  exists k. repeat split; try done. by apply str_in_contains.
Qed.

(** X10. A calendar event whose sentence has no DATE entity has no start
    time, whatever TIME entities it has, and its confidence is 0.5. *)
Theorem calendar_event_without_date (env : externals) (txt : string)
    (ents : list ExtractedEntity) :
  Forall (fun ev =>
            ~ Spec.has_typed "DATE" (ev_entities ev) ->
            ev_start_time ev = None
            /\ ev_confidence ev = 0.5%Q
            /\ Spec.has_typed "TIME" (ev_entities ev))
         (EntityExtractionService._extract_calendar_events env txt ents).
Proof.
  apply calendar_events_all. intros raw ev Hraw Hne Hev.
  apply sentence_events_inv in Hev
    as (_ & _ & _ & _ & _ & He & Hst & _ & _ & Hdt & Hc).
  rewrite He, Hst, Hc. intros Hnodate.
  rewrite <- nonempty_typed in Hnodate.
  destruct (EntityExtractionService.nonempty
              (List.filter (EntityExtractionService.type_in ["DATE"]) _))
    eqn:Hd; [done|].
  simpl in Hdt. apply nonempty_typed in Hdt.
  destruct (List.filter (EntityExtractionService.type_in ["DATE"]) _);
    [|done].
  done.
Qed.

(** X11. Without a DATE or TIME entity in the list there is no calendar
    event, whatever the text: in particular none for the empty list. *)
Theorem no_temporal_entity_no_event (env : externals) (txt : string)
    (ents : list ExtractedEntity) :
  Forall (fun e => type e <> "DATE" /\ type e <> "TIME") ents ->
  EntityExtractionService._extract_calendar_events env txt ents = [].
Proof.
  intros Hents.
  assert (Hall : Forall (fun _ => False)
            (EntityExtractionService._extract_calendar_events env txt ents)).
  { apply calendar_events_all. intros raw ev Hraw Hne Hev.
    apply sentence_events_inv in Hev
      as (_ & _ & _ & _ & _ & _ & _ & _ & _ & Hdt & _).
    rewrite Forall_forall in Hents.
    apply orb_true_iff in Hdt as [H|H];
      apply nonempty_typed in H as (e & He & Ht);
      apply elem_of_bool_filter in He as [He _];
      destruct (Hents e He); congruence. }
  destruct (EntityExtractionService._extract_calendar_events env txt ents);
    [done|]. by inversion Hall.
Qed.

Lemma no_temporal_entity_no_event_witness :
  EntityExtractionService._extract_calendar_events Sample.env
    "We had a meeting at www.example.org."
    (EntityExtractionService._extract_urls
       "We had a meeting at www.example.org.")
  = [].
Proof.
  apply (no_temporal_entity_no_event Sample.env).
  vm_compute. repeat constructor; discriminate.
Defined.

(** X12. Over [NERService] the orchestrator's calendar events never have
    attendees nor a location: the entities it returns are the
    recognizers' finds, none of them a person, an organisation or a
    place. *)
Theorem composed_events_lack_people_and_places (md : NERService.models)
    (env : externals) (txt : string) (include_calendar : bool)
    (r : extraction) (events : list CalendarEvent) :
  ner_extract env = NERService.extract_entities_default md ->
  outcome (EntityExtractionService.extract_entities env txt include_calendar)
  = inr r ->
  calendar_events r = Some events ->
  Forall (fun ev => ev_attendees ev = [] /\ ev_location ev = None) events
  /\ Forall (fun e => In (type e) ["EMAIL"; "PHONE"; "URL"; "DATE"; "TIME"])
            (entities r).
Proof.
  intros Hner Hr Hev.
  destruct (PyStr.is_empty (PyStr.strip txt)) eqn:Hblank.
  - unfold EntityExtractionService.extract_entities in Hr.
    rewrite Hblank in Hr. injection Hr as <-. injection Hev as <-.
    split; constructor.
  - destruct (extract_entities_returns env txt include_calendar r Hblank Hr)
      as (d & nl & ne & Hd & Hnl & Hconv & Hents & _ & _ & _ & Hcal).
    rewrite Hner in Hd.
    destruct (ner_service_result md txt d Hd) as [_ Hnone].
    unfold EntityExtractionService.ner_entities_of in Hnl.
    rewrite Hnone in Hnl. injection Hnl as <-. inversion Hconv; subst.
    simpl in Hents.
    assert (Htypes : forall e, In e (entities r) ->
              In (type e) ["EMAIL"; "PHONE"; "URL"; "DATE"; "TIME"]).
    { intros e He. rewrite Hents in He.
      apply list_elem_of_In, pattern_entities_recognized in He.
      by eapply recognized_type. }
    split; [|by apply List.Forall_forall].
    destruct include_calendar; [|by rewrite Hcal in Hev].
    rewrite Hcal in Hev. injection Hev as <-.
    apply calendar_events_all. intros raw ev Hraw Hne Hin.
    apply sentence_events_inv in Hin
      as (_ & _ & _ & _ & _ & _ & _ & Hatt & Hloc & _).
    rewrite Hatt, Hloc.
    assert (Hnone' : forall types,
              (forall t, In t types ->
                         ~ In t ["EMAIL"; "PHONE"; "URL"; "DATE"; "TIME"]) ->
              List.filter (EntityExtractionService.type_in types)
                (EntityExtractionService.sentence_entities (entities r)
                   (PyStr.strip raw)) = []).
    { intros types Htys. apply filter_none. intros e He.
      apply filter_In in He as [He _]. specialize (Htypes e He).
      unfold EntityExtractionService.type_in.
      apply not_true_iff_false. intros Hex.
      apply existsb_exists in Hex as (t & Ht & Heq).
      apply String.eqb_eq in Heq. rewrite Heq in Htypes.
      by apply (Htys t). }
    rewrite !Hnone'; [done|..];
      intros t Ht Hin5; simpl in Ht, Hin5;
      repeat (destruct Ht as [<-|Ht];
              [repeat (destruct Hin5 as [Hin5|Hin5]; [discriminate Hin5|]);
               done|]);
      done.
Qed.

Lemma composed_events_lack_people_and_places_witness :
  exists (r : extraction) (events : list CalendarEvent),
    outcome (EntityExtractionService.extract_entities Sample.env
               "Let's have a meeting tomorrow at 3pm." true) = inr r
    /\ calendar_events r = Some events
    /\ Forall (fun ev => ev_attendees ev = [] /\ ev_location ev = None) events
    /\ Forall (fun e => In (type e) ["EMAIL"; "PHONE"; "URL"; "DATE"; "TIME"])
              (entities r).
Proof.
  eexists. eexists. split; [vm_compute; reflexivity|].
  split; [vm_compute; reflexivity|].
  apply (composed_events_lack_people_and_places Sample.no_models Sample.env
           "Let's have a meeting tomorrow at 3pm." true);
    [reflexivity | vm_compute; reflexivity | vm_compute; reflexivity].
Defined.


(** ** More on [NERService] *)

Section NERResult.

Import NERService.

Implicit Types (l : list entity) (m : gmap string nat) (t : string).

Lemma count_label_cons (e : entity) l t :
  Spec.count_label t (e :: l)
  = (if decide (label e = t) then 1 else 0) + Spec.count_label t l.
Proof.
  unfold Spec.count_label. rewrite filter_cons.
  destruct (decide (label e = t)); reflexivity.
Qed.

Lemma count_label_zero l t :
  Spec.count_label t l = 0 <-> t ∉ label <$> l.
Proof.
  induction l as [|e l IH].
  - split; [intros _; apply not_elem_of_nil | done].
  - rewrite count_label_cons, fmap_cons, not_elem_of_cons.
    destruct (decide (label e = t)) as [Heq|Hne].
    + split; [done | intros [Hne _]; congruence].
    + rewrite <- IH. simpl.
      split; [intros H; split; [congruence | exact H] | tauto].
Qed.

Lemma ner_count_loop_lookup l m t :
  foldl (fun counts e => <[label e := default 0 (counts !! label e) + 1]> counts)
        m l !! t
  = if decide (Spec.count_label t l = 0) then m !! t
    else Some (default 0 (m !! t) + Spec.count_label t l).
Proof.
  revert m. induction l as [|e l IH]; intros m; [done|].
  cbn [foldl]. rewrite IH, count_label_cons.
  destruct (decide (label e = t)) as [->|Hne].
  - rewrite lookup_insert_eq. cbn [default].
    destruct (decide (Spec.count_label t l = 0)) as [Hz|Hn].
    + rewrite Hz, decide_False by lia; f_equal; lia.
    + rewrite decide_False by lia; f_equal; unfold id; lia.
  - rewrite lookup_insert_ne by done. cbn [Nat.add].
    destruct (decide (Spec.count_label t l = 0)); reflexivity.
Qed.

Lemma ner_count_entities_lookup l t :
  _count_entities l !! t
  = if decide (Spec.count_label t l = 0) then None
    else Some (Spec.count_label t l).
Proof.
  unfold _count_entities. rewrite ner_count_loop_lookup, lookup_empty.
  destruct (decide (Spec.count_label t l = 0)); reflexivity.
Qed.

(** A table that holds exactly the label counts of a list sums to its
    length. *)
Lemma total_of_label_counts m : forall l,
  (forall t, m !! t = if decide (Spec.count_label t l = 0) then None
                      else Some (Spec.count_label t l)) ->
  Spec.total m = length l.
Proof.
  induction m as [|k n m Hk IH] using map_ind; intros l Hm.
  - unfold Spec.total. rewrite map_fold_empty.
    destruct l as [|e l]; [done|].
    specialize (Hm (label e)). rewrite lookup_empty, count_label_cons in Hm.
    repeat case_decide; try done; lia.
  - rewrite total_insert by exact Hk.
    assert (Hn : Spec.count_label k l = n).
    { specialize (Hm k). rewrite lookup_insert_eq in Hm.
      destruct (decide (Spec.count_label k l = 0)); congruence. }
    rewrite (IH (filter (fun e => label e <> k) l)).
    + subst n. unfold Spec.count_label. clear.
      induction l as [|e l IHl]; [done|].
      rewrite !filter_cons. destruct (decide (label e = k)); simpl.
      * rewrite decide_False by tauto. simpl. lia.
      * rewrite decide_True by done. simpl. lia.
    + intros t. destruct (decide (t = k)) as [->|Hne].
      * rewrite Hk, decide_True; [done|].
        apply count_label_zero. rewrite list_elem_of_fmap.
        intros (e & He1 & He2). apply list_elem_of_filter in He2 as [He2 _].
        congruence.
      * specialize (Hm t). rewrite lookup_insert_ne in Hm by done.
        assert (Heq : Spec.count_label t (filter (fun e => label e <> k) l)
                      = Spec.count_label t l).
        { unfold Spec.count_label. clear -Hne.
          induction l as [|e l IHl]; [done|].
          rewrite !filter_cons.
          destruct (decide (label e = t)) as [He|He].
          - rewrite decide_True by congruence.
            rewrite filter_cons, decide_True by done. simpl. by rewrite IHl.
          - destruct (decide (label e <> k)); [|exact IHl].
            rewrite filter_cons, decide_False by done. exact IHl. }
        rewrite Heq. exact Hm.
Qed.

End NERResult.


Section NERExtract.

Import NERService.

Variable md : models.
Variable txt : string.
Variable use_spacy use_huggingface : bool.
Variable threshold : Q.

Lemma spacy_entities_facts (l : list entity) :
  _extract_spacy_entities md txt = inr l ->
  Forall (fun e => source e = "spacy" /\ confidence e = None) l.
Proof.
  unfold _extract_spacy_entities. destruct (spacy_nlp md) as [nlp|]; [|done].
  destruct (nlp txt) as [e|ents]; [done|]. intros [= <-].
  apply Forall_forall. intros e He.
  by apply list_elem_of_fmap in He as (sp & -> & _).
Qed.

Lemma hf_entities_facts (l : list entity) :
  _extract_hf_entities md txt threshold = inr l ->
  Forall (fun e => source e = "huggingface"
                   /\ exists c, confidence e = Some c /\ (threshold <= c)%Q) l.
Proof.
  unfold _extract_hf_entities. destruct (hf_ner md) as [pipe|]; [|done].
  destruct (pipe txt) as [e|results]; [done|]. intros [= <-].
  apply Forall_forall. intros e He.
  apply list_elem_of_omap in He as (item & _ & He).
  destruct (hf_keep threshold item) eqn:Hkeep; [|done].
  destruct item as [it|]; [|done]. injection He as <-.
  split; [done|]. eexists. split; [reflexivity|].
  by apply Qle_bool_iff.
Qed.

(** The dictionary a call that returns has built. *)
Lemma ner_extract_returns (d : gmap string value) :
  extract_entities md txt use_spacy use_huggingface threshold = inr d ->
  exists sp hf,
    Forall (fun e => source e = "spacy" /\ confidence e = None) sp
    /\ Forall (fun e => source e = "huggingface"
                        /\ exists c, confidence e = Some c
                                     /\ (threshold <= c)%Q) hf
    /\ d !! "spacy_entities" = Some (VEntities sp)
    /\ d !! "hf_entities" = Some (VEntities hf)
    /\ d !! "merged_entities" = Some (VEntities (_merge_entities sp hf))
    /\ d !! "entity_counts"
       = Some (VCounts (_count_entities (_merge_entities sp hf)))
    /\ d !! "text_length" = Some (VInt (Z.of_nat (String.length txt))).
Proof.
  unfold extract_entities.
  destruct (use_spacy && bool_decide (is_Some (spacy_nlp md))).
  - destruct (_extract_spacy_entities md txt) as [e|sp] eqn:Hsp; [done|].
    apply spacy_entities_facts in Hsp.
    destruct (use_huggingface && bool_decide (is_Some (hf_ner md))).
    + destruct (_extract_hf_entities md txt threshold) as [e|hf] eqn:Hhf;
        [done|].
      apply hf_entities_facts in Hhf. intros [= <-].
      exists sp, hf. by repeat split.
    + intros [= <-]. exists sp, []. by repeat split.
  - destruct (use_huggingface && bool_decide (is_Some (hf_ner md))).
    + destruct (_extract_hf_entities md txt threshold) as [e|hf] eqn:Hhf;
        [done|].
      apply hf_entities_facts in Hhf. intros [= <-].
      exists [], hf. by repeat split.
    + intros [= <-]. exists [], []. by repeat split.
Qed.

(** A call can only raise what one of the two models raises. *)
Lemma ner_extract_raises_inv (e : exn) :
  extract_entities md txt use_spacy use_huggingface threshold = inl e ->
  (exists nlp, spacy_nlp md = Some nlp /\ nlp txt = inl e)
  \/ (exists pipe, hf_ner md = Some pipe /\ pipe txt = inl e).
Proof.
  unfold extract_entities, _extract_spacy_entities, _extract_hf_entities.
  destruct use_spacy, use_huggingface,
    (spacy_nlp md) as [nlp|], (hf_ner md) as [pipe|];
    cbn [andb bool_decide];
    try destruct (nlp txt) as [e1|ents] eqn:Hn;
    try destruct (pipe txt) as [e2|res] eqn:Hp;
    cbn; intros H; try discriminate H; injection H as <-; eauto.
Qed.

End NERExtract.

(** X13. [NERService.extract_entities] raises exactly when a model that
    is loaded and in use raises, spaCy first: the "not loaded" errors of
    the two private methods are never reached through it, and with no
    model loaded it returns. *)
Theorem ner_extract_raises_with_a_model (md : NERService.models)
    (txt : string) (use_spacy use_huggingface : bool) (threshold : Q)
    (e : exn) :
  NERService.extract_entities md txt use_spacy use_huggingface threshold
  = inl e
  <-> (use_spacy = true
       /\ exists nlp, NERService.spacy_nlp md = Some nlp /\ nlp txt = inl e)
      \/ ((use_spacy = false \/ NERService.spacy_nlp md = None
           \/ exists nlp ents,
                NERService.spacy_nlp md = Some nlp /\ nlp txt = inr ents)
          /\ use_huggingface = true
          /\ exists pipe,
               NERService.hf_ner md = Some pipe /\ pipe txt = inl e).
Proof.
  unfold NERService.extract_entities, NERService._extract_spacy_entities,
    NERService._extract_hf_entities.
  destruct use_spacy, use_huggingface,
    (NERService.spacy_nlp md) as [nlp|], (NERService.hf_ner md) as [pipe|];
    cbn [andb bool_decide];
    try destruct (nlp txt) as [e1|ents] eqn:Hn;
    try destruct (pipe txt) as [e2|res] eqn:Hp;
    cbn;
    (split;
     [ intros H; try discriminate H; try injection H as <-;
       first [ left; split; [done|]; eexists; split; [done|]; done
             | right; split; [eauto 6|]; split; [done|];
               eexists; split; [done|]; done ]
     | intros [[Hu (n' & Hs & Hr)] | [Hc [Hu (p' & Hs & Hr)]]];
       try discriminate; try (injection Hs as <-); try congruence;
       try (destruct Hc as [Hc|[Hc|(n' & ents' & Hc & Hc')]];
            try discriminate; try (injection Hc as <-); congruence) ]).
Qed.

(** X14. The dictionary [NERService.extract_entities] returns has the
    five keys; [merged_entities] is the merge of [spacy_entities] and
    [hf_entities], ordered by start position and free of overlaps;
    [entity_counts] gives each label the number of merged entities that
    carry it and sums to their number; [text_length] is the length of
    the text. *)
Theorem ner_result_dictionary (md : NERService.models) (txt : string)
    (use_spacy use_huggingface : bool) (threshold : Q)
    (d : gmap string NERService.value) :
  NERService.extract_entities md txt use_spacy use_huggingface threshold
  = inr d ->
  exists (sp hf merged : list NERService.entity) (counts : gmap string nat),
    d !! "spacy_entities" = Some (NERService.VEntities sp)
    /\ d !! "hf_entities" = Some (NERService.VEntities hf)
    /\ d !! "merged_entities" = Some (NERService.VEntities merged)
    /\ d !! "entity_counts" = Some (NERService.VCounts counts)
    /\ d !! "text_length"
       = Some (NERService.VInt (Z.of_nat (String.length txt)))
    /\ merged = NERService._merge_entities sp hf
    /\ Spec.already_merged merged
    /\ (forall t, counts !! t
                  = if decide (Spec.count_label t merged = 0) then None
                    else Some (Spec.count_label t merged))
    /\ Spec.total counts = length merged.
Proof.
  intros H.
  destruct (ner_extract_returns md txt _ _ _ d H)
    as (sp & hf & _ & _ & H1 & H2 & H3 & H4 & H5).
  exists sp, hf, (NERService._merge_entities sp hf),
    (NERService._count_entities (NERService._merge_entities sp hf)).
  repeat split; try done.
  - apply merge_entities_already_merged.
  - apply merge_entities_already_merged.
  - apply ner_count_entities_lookup.
  - apply total_of_label_counts. intros t. apply ner_count_entities_lookup.
Qed.

Lemma ner_result_dictionary_witness :
  exists (d : gmap string NERService.value)
         (sp hf merged : list NERService.entity) (counts : gmap string nat),
    NERService.extract_entities Sample.two_models "3/14/2025 Acme in Oslo"
      true true 0.5%Q = inr d
    /\ d !! "spacy_entities" = Some (NERService.VEntities sp)
    /\ d !! "hf_entities" = Some (NERService.VEntities hf)
    /\ d !! "merged_entities" = Some (NERService.VEntities merged)
    /\ d !! "entity_counts" = Some (NERService.VCounts counts)
    /\ d !! "text_length" = Some (NERService.VInt 22)
    /\ merged = NERService._merge_entities sp hf
    /\ Spec.already_merged merged
    /\ (forall t, counts !! t
                  = if decide (Spec.count_label t merged = 0) then None
                    else Some (Spec.count_label t merged))
    /\ Spec.total counts = length merged.
Proof.
  destruct (NERService.extract_entities Sample.two_models
              "3/14/2025 Acme in Oslo" true true 0.5%Q) as [e|d] eqn:Hd.
  - exfalso.
    destruct (ner_extract_raises_inv _ _ _ _ _ _ Hd)
      as [(f & Hf & Hr)|(f & Hf & Hr)];
      injection Hf as <-; discriminate Hr.
  - destruct (ner_result_dictionary Sample.two_models
                "3/14/2025 Acme in Oslo" true true 0.5%Q d Hd)
      as (sp & hf & merged & counts & H1 & H2 & H3 & H4 & H5 & H).
    exists d, sp, hf, merged, counts. split; [reflexivity|].
    split; [exact H1|]. split; [exact H2|]. split; [exact H3|].
    split; [exact H4|]. split; [|exact H].
    rewrite H5. reflexivity.
Defined.

(** ** More on the Merger *)

Section MergerFacts.

Import NERService.

Implicit Types (e a b x : entity) (l u v acc : list entity).

(** A candidate that is not accepted overlaps an entity that was accepted
    before its turn. *)
Lemma greedy_covers_before u a v :
  a ∈ Spec.greedy [] (u ++ a :: v)
  \/ exists x, x ∈ Spec.greedy [] u /\ x ∈ Spec.greedy [] (u ++ a :: v)
               /\ Spec.ner_overlap a x.
Proof.
  rewrite greedy_app. cbn [Spec.greedy].
  destruct (existsb _ (Spec.greedy [] u)) eqn:Hb.
  - right. apply blocked_true in Hb as (x & Hx & Ho). exists x.
    split; [exact Hx|]. split; [|exact Ho].
    destruct (greedy_extends v (Spec.greedy [] u)) as (extra & -> & _).
    apply elem_of_app. by left.
  - left. destruct (greedy_extends v (Spec.greedy [] u ++ [a]))
      as (extra & -> & _).
    rewrite !elem_of_app. left. right. by left.
Qed.

(** On candidates none of which overlaps another or an accepted entity
    the walk accepts everything. *)
Lemma greedy_accepts_all l : forall acc,
  ForallOrdPairs (fun a b => ~ Spec.ner_overlap a b) (acc ++ l) ->
  Spec.greedy acc l = acc ++ l.
Proof.
  induction l as [|e l IH]; intros acc Hfree; simpl.
  - by rewrite app_nil_r.
  - assert (Hb : existsb (fun a => _spans_overlap (span_of e) (span_of a)) acc
                 = false).
    { apply blocked_false. intros a Ha Ho.
      apply ordered_pairs_app in Hfree as (_ & _ & Hcross).
      apply (Hcross a e Ha); [by left | by apply ner_overlap_sym]. }
    rewrite Hb, IH; rewrite <- app_assoc; [done | exact Hfree].
Qed.

Lemma sublist_submseteq_app l1 l2 :
  _merge_entities l1 l2 ⊆+ l1 ++ l2.
Proof.
  rewrite merge_entities_greedy.
  rewrite (sort_by_start_perm (l1 ++ l2)) at 2.
  apply sublist_submseteq, greedy_sublist.
Qed.

End MergerFacts.

(** X15. The Merger only drops: its result is taken from the two input
    lists without repetition, so it is never longer than both together,
    and an entity is dropped only when it overlaps an entity that is kept
    and that starts at the same place or before it. *)
Theorem merge_entities_maximal (l1 l2 : list NERService.entity) :
  NERService._merge_entities l1 l2 ⊆+ l1 ++ l2
  /\ length (NERService._merge_entities l1 l2) <= length l1 + length l2
  /\ forall a : NERService.entity,
       a ∈ l1 ++ l2 ->
       a ∈ NERService._merge_entities l1 l2
       \/ exists x : NERService.entity,
            x ∈ NERService._merge_entities l1 l2
            /\ Spec.ner_overlap a x
            /\ (NERService.start x <= NERService.start a)%Z.
Proof.
  split; [apply sublist_submseteq_app|].
  split.
  { rewrite <- length_app. apply submseteq_length, sublist_submseteq_app. }
  intros a Ha. rewrite merge_entities_greedy.
  rewrite (sort_by_start_perm (l1 ++ l2)) in Ha.
  apply list_elem_of_split in Ha as (u & v & Hsplit).
  pose proof (sort_by_start_sorted (l1 ++ l2)) as Hsorted.
  rewrite Hsplit in *.
  destruct (greedy_covers_before u a v) as [Hin|(x & Hxu & Hx & Ho)];
    [by left|].
  right. exists x. split; [exact Hx|]. split; [exact Ho|].
  apply ordered_pairs_app in Hsorted as (_ & _ & Hcross).
  apply (Hcross x a); [|by left].
  eapply elem_of_sublist; [exact Hxu | apply greedy_sublist].
Qed.

(** X16. The lists the Merger leaves as they are, merged with nothing,
    are exactly those ordered by start position and free of overlaps; the
    result of a merge is one of them, so merging it once more, on either
    side, changes nothing. *)
Theorem merge_entities_fixed_points (l : list NERService.entity) :
  (NERService._merge_entities l [] = l <-> Spec.already_merged l)
  /\ (NERService._merge_entities [] l = l <-> Spec.already_merged l)
  /\ forall l1 l2 : list NERService.entity,
       NERService._merge_entities (NERService._merge_entities l1 l2) []
       = NERService._merge_entities l1 l2
       /\ NERService._merge_entities [] (NERService._merge_entities l1 l2)
          = NERService._merge_entities l1 l2.
Proof.
  assert (Hfix : forall l' : list NERService.entity,
             Spec.already_merged l' ->
             Spec.greedy [] (NERService.sort_by_start l') = l').
  { intros l' [Hasc Hfree].
    rewrite sort_by_start_sorted_id by (by apply ner_ascending_pairs).
    rewrite greedy_accepts_all; [done|]. by apply ner_overlap_free_pairs. }
  split; [|split].
  - split.
    + intros <-. apply merge_entities_already_merged.
    + intros H. rewrite merge_entities_greedy, app_nil_r. by apply Hfix.
  - split.
    + intros <-. apply merge_entities_already_merged.
    + intros H. rewrite merge_entities_greedy. by apply Hfix.
  - intros l1 l2. split.
    + rewrite (merge_entities_greedy (_ l1 l2) []), app_nil_r.
      apply Hfix, merge_entities_already_merged.
    + rewrite (merge_entities_greedy [] (_ l1 l2)).
      apply Hfix, merge_entities_already_merged.
Qed.

Section SortUnique.

Import NERService.

Implicit Types (e a b x : entity) (l s : list entity).

(** Two lists in ascending order with the same entities, no two of which
    start at the same place, are the same list. *)
Lemma sorted_perm_unique s1 : forall s2,
  ForallOrdPairs Spec.by_start s1 -> ForallOrdPairs Spec.by_start s2 ->
  Permutation s1 s2 -> NoDup (start <$> s1) -> s1 = s2.
Proof.
  induction s1 as [|x s1 IH]; intros s2 H1 H2 Hperm Hnd.
  - by apply Permutation_nil in Hperm.
  - destruct s2 as [|y s2];
      [by apply Permutation_sym, Permutation_nil in Hperm|].
    inversion H1 as [|? ? Hall1 Hrest1]; subst.
    inversion H2 as [|? ? Hall2 Hrest2]; subst.
    rewrite Forall_forall in Hall1, Hall2.
    apply NoDup_cons in Hnd as [Hx Hnd].
    assert (Hxy : x = y).
    { assert (Hx2 : x ∈ y :: s2) by (rewrite <- Hperm; by left).
      assert (Hy1 : y ∈ x :: s1) by (rewrite Hperm; by left).
      apply elem_of_cons in Hx2 as [?|Hx2]; [done|].
      apply elem_of_cons in Hy1 as [?|Hy1]; [done|].
      exfalso. apply Hx.
      pose proof (Hall1 y Hy1) as Hle1. pose proof (Hall2 x Hx2) as Hle2.
      unfold Spec.by_start in Hle1, Hle2.
      replace (start x) with (start y) by lia.
      apply list_elem_of_fmap. by exists y. }
    subst y. f_equal. apply IH; try done.
    by apply Permutation_cons_inv in Hperm.
Qed.

Lemma sort_by_start_swap l1 l2 :
  NoDup (start <$> (l1 ++ l2)) ->
  sort_by_start (l1 ++ l2) = sort_by_start (l2 ++ l1).
Proof.
  intros Hnd. apply sorted_perm_unique.
  - apply sort_by_start_sorted.
  - apply sort_by_start_sorted.
  - rewrite <- !sort_by_start_perm. apply Permutation_app_comm.
  - by rewrite <- sort_by_start_perm.
Qed.

End SortUnique.

(** X17. When no two entities of the two lists start at the same place,
    the order of the Merger's arguments makes no difference: spaCy's
    precedence over the Hugging Face pipeline only decides ties. *)
Theorem merge_entities_commutes (l1 l2 : list NERService.entity) :
  NoDup (NERService.start <$> (l1 ++ l2)) ->
  NERService._merge_entities l1 l2 = NERService._merge_entities l2 l1.
Proof.
  intros Hnd. rewrite !merge_entities_greedy.
  by rewrite sort_by_start_swap.
Qed.

Lemma merge_entities_commutes_witness :
  NERService._merge_entities [Sample.org_12_16] [Sample.person_0_5]
  = NERService._merge_entities [Sample.person_0_5] [Sample.org_12_16].
Proof.
  apply (merge_entities_commutes [Sample.org_12_16] [Sample.person_0_5]).
  vm_compute. repeat constructor.
  - intros H. apply list_elem_of_singleton in H. discriminate H.
  - apply not_elem_of_nil.
Defined.

(** X18. Where the merged entities of [NERService.extract_entities] come
    from: each is an entity of [spacy_entities], with source [spacy] and
    no [confidence] key, or an entity of [hf_entities], with source
    [huggingface] and a confidence that is at least the threshold; a
    model that is switched off or not loaded contributes nothing. *)
Theorem ner_merged_provenance (md : NERService.models) (txt : string)
    (use_spacy use_huggingface : bool) (threshold : Q)
    (d : gmap string NERService.value) :
  NERService.extract_entities md txt use_spacy use_huggingface threshold
  = inr d ->
  exists sp hf merged : list NERService.entity,
    d !! "spacy_entities" = Some (NERService.VEntities sp)
    /\ d !! "hf_entities" = Some (NERService.VEntities hf)
    /\ d !! "merged_entities" = Some (NERService.VEntities merged)
    /\ Forall (fun e =>
                 (e ∈ sp /\ NERService.source e = "spacy"
                  /\ NERService.confidence e = None)
                 \/ (e ∈ hf /\ NERService.source e = "huggingface"
                     /\ exists c : Q, NERService.confidence e = Some c
                                      /\ (threshold <= c)%Q))
              merged
    /\ (use_spacy = false \/ NERService.spacy_nlp md = None -> sp = [])
    /\ (use_huggingface = false \/ NERService.hf_ner md = None -> hf = []).
Proof.
  intros H.
  destruct (ner_extract_returns md txt _ _ _ d H)
    as (sp & hf & Hsp & Hhf & H1 & H2 & H3 & _).
  exists sp, hf, (NERService._merge_entities sp hf).
  split; [exact H1|]. split; [exact H2|]. split; [exact H3|].
  split; [|split].
  - apply Forall_forall. intros e He.
    assert (Hin : e ∈ sp ++ hf).
    { eapply elem_of_submseteq; [exact He | apply sublist_submseteq_app]. }
    rewrite Forall_forall in Hsp, Hhf.
    apply elem_of_app in Hin as [Hin|Hin].
    + left. split; [exact Hin|]. by apply Hsp.
    + right. split; [exact Hin|]. by apply Hhf.
  - intros Hoff. revert H H1.
    unfold NERService.extract_entities.
    assert (Hc : use_spacy && bool_decide (is_Some (NERService.spacy_nlp md))
                 = false).
    { destruct Hoff as [->| ->]; [done|]. by rewrite andb_false_r. }
    rewrite Hc.
    destruct (use_huggingface && _);
      [destruct (NERService._extract_hf_entities md txt threshold); [done|]|];
      intros [= <-]; rewrite !lookup_insert_ne, lookup_insert_eq by done;
      by intros [= <-].
  - intros Hoff. revert H H2.
    unfold NERService.extract_entities.
    assert (Hc : use_huggingface && bool_decide (is_Some (NERService.hf_ner md))
                 = false).
    { destruct Hoff as [->| ->]; [done|]. by rewrite andb_false_r. }
    rewrite Hc.
    destruct (use_spacy && _);
      [destruct (NERService._extract_spacy_entities md txt); [done|]|];
      intros [= <-]; rewrite !lookup_insert_ne, lookup_insert_eq by done;
      by intros [= <-].
Qed.

Lemma ner_merged_provenance_witness :
  exists (d : gmap string NERService.value)
         (sp hf merged : list NERService.entity),
    NERService.extract_entities Sample.two_models "3/14/2025 Acme in Oslo"
      true true 0.5%Q = inr d
    /\ d !! "spacy_entities" = Some (NERService.VEntities sp)
    /\ d !! "hf_entities" = Some (NERService.VEntities hf)
    /\ d !! "merged_entities" = Some (NERService.VEntities merged)
    /\ Forall (fun e =>
                 (e ∈ sp /\ NERService.source e = "spacy"
                  /\ NERService.confidence e = None)
                 \/ (e ∈ hf /\ NERService.source e = "huggingface"
                     /\ exists c : Q, NERService.confidence e = Some c
                                      /\ (0.5 <= c)%Q))
              merged
    /\ (true = false \/ NERService.spacy_nlp Sample.two_models = None
        -> sp = [])
    /\ (true = false \/ NERService.hf_ner Sample.two_models = None
        -> hf = []).
Proof.
  destruct (NERService.extract_entities Sample.two_models
              "3/14/2025 Acme in Oslo" true true 0.5%Q) as [e|d] eqn:Hd.
  - exfalso.
    destruct (ner_extract_raises_inv _ _ _ _ _ _ Hd)
      as [(f & Hf & Hr)|(f & Hf & Hr)];
      injection Hf as <-; discriminate Hr.
  - destruct (ner_merged_provenance Sample.two_models
                "3/14/2025 Acme in Oslo" true true 0.5%Q d Hd)
      as (sp & hf & merged & H).
    exists d, sp, hf, merged. split; [reflexivity | exact H].
Defined.

(** ** The calendar view of [NERService] *)

Section CalendarView.

Import NERService NERViews.

Implicit Types (e : entity) (l merged : list entity) (txt t : string)
  (cal : gmap string (list entity)).

Lemma label_in_true (labels : list string) e :
  label_in labels e = true <-> In (label e) labels.
Proof.
  unfold label_in. rewrite existsb_exists. split.
  - intros (x & Hx & Heq). apply String.eqb_eq in Heq. by subst.
  - intros H. exists (label e). split; [exact H | apply String.eqb_refl].
Qed.

Lemma label_in_disjoint (l1 l2 : list string) e :
  forallb (fun a => negb (existsb (String.eqb a) l2)) l1 = true ->
  label_in l1 e = true -> label_in l2 e = true -> False.
Proof.
  intros Hdis H1 H2. apply label_in_true in H1, H2.
  rewrite forallb_forall in Hdis. specialize (Hdis _ H1).
  apply negb_true_iff in Hdis.
  assert (Hex : existsb (String.eqb (label e)) l2 = true).
  { apply existsb_exists. exists (label e). split; [exact H2|].
    apply String.eqb_refl. }
  congruence.
Qed.

Lemma scanned_text_cons t e merged :
  Spec.scanned_text t (e :: merged) = Spec.scanned_text (text e) merged.
Proof.
  unfold Spec.scanned_text. rewrite fmap_cons, last_cons.
  by destruct (last (text <$> merged)).
Qed.

Lemma labelled_cons labels e l :
  Spec.labelled labels (e :: l)
  = if label_in labels e then e :: Spec.labelled labels l
    else Spec.labelled labels l.
Proof. reflexivity. Qed.

Lemma calendar_turn_eq cal t e :
  calendar_turn (cal, t) e
  = (if label_in ["DATE"; "TIME"] e
     then append_under "dates" e cal
     else if label_in ["PERSON"; "PER"] e
     then append_under "people" e cal
     else if label_in ["GPE"; "LOC"; "LOCATION"] e
     then append_under "locations" e cal
     else if label_in ["ORG"; "ORGANIZATION"] e
     then append_under "organizations" e cal
     else cal,
     text e).
Proof. reflexivity. Qed.

(** The loop sorts the merged entities into four lists by label, leaves
    the other keys alone, and ends with the text of the last entity in
    the variable [text]. *)
Lemma calendar_loop_result merged : forall cal t,
  let st := foldl calendar_turn (cal, t) merged in
  st.2 = Spec.scanned_text t merged
  /\ st.1 !! "dates"
     = (fun l => l ++ Spec.labelled ["DATE"; "TIME"] merged) <$> cal !! "dates"
  /\ st.1 !! "people"
     = (fun l => l ++ Spec.labelled ["PERSON"; "PER"] merged)
       <$> cal !! "people"
  /\ st.1 !! "locations"
     = (fun l => l ++ Spec.labelled ["GPE"; "LOC"; "LOCATION"] merged)
       <$> cal !! "locations"
  /\ st.1 !! "organizations"
     = (fun l => l ++ Spec.labelled ["ORG"; "ORGANIZATION"] merged)
       <$> cal !! "organizations"
  /\ forall k : string,
       k ∉ ["dates"; "people"; "locations"; "organizations"] ->
       st.1 !! k = cal !! k.
Proof.
  induction merged as [|e merged IH]; intros cal t; cbn zeta.
  - cbn [foldl fst snd]. unfold Spec.labelled. cbn [List.filter].
    repeat split; try (by destruct (cal !! _); cbn; rewrite ?app_nil_r).
  - cbn [foldl]. rewrite calendar_turn_eq.
    rewrite scanned_text_cons, !labelled_cons.
    destruct (label_in ["DATE"; "TIME"] e) eqn:H1;
    destruct (label_in ["PERSON"; "PER"] e) eqn:H2;
    destruct (label_in ["GPE"; "LOC"; "LOCATION"] e) eqn:H3;
    destruct (label_in ["ORG"; "ORGANIZATION"] e) eqn:H4;
    try (exfalso;
         first [ eapply (label_in_disjoint _ _ e); [|exact H1|exact H2];
                 reflexivity
               | eapply (label_in_disjoint _ _ e); [|exact H1|exact H3];
                 reflexivity
               | eapply (label_in_disjoint _ _ e); [|exact H1|exact H4];
                 reflexivity
               | eapply (label_in_disjoint _ _ e); [|exact H2|exact H3];
                 reflexivity
               | eapply (label_in_disjoint _ _ e); [|exact H2|exact H4];
                 reflexivity
               | eapply (label_in_disjoint _ _ e); [|exact H3|exact H4];
                 reflexivity ]);
    lazy iota;
    match goal with
    | |- context [foldl calendar_turn (?c, ?t') merged] =>
        destruct (IH c t') as (E0 & E1 & E2 & E3 & E4 & E5)
    end;
    (split; [exact E0|]);
    rewrite E1, E2, E3, E4; unfold append_under in *;
    repeat split;
    try (intros k Hk; rewrite (E5 k Hk);
         rewrite !not_elem_of_cons in Hk; destruct Hk as (? & ? & ? & ? & _));
    rewrite ?lookup_alter_ne by (try done; congruence);
    rewrite ?lookup_alter_eq; try done;
    try (by destruct (cal !! _); cbn; rewrite <- ?app_assoc).
Qed.

End CalendarView.

Section ContactInfo.

Import PyStr Re NERService NERViews.

(** What [finditer] gives for a pattern that cannot match the empty
    string: matches that are not empty, on the text. *)
Lemma finditer_bounds (ic : bool) (p : regex) (s : string) :
  must_consume p = true ->
  Forall (fun m => m_start m < m_end m <= String.length s) (finditer ic p s).
Proof.
  intros Hm. eapply Forall_impl; [apply finditer_found|].
  intros m Hfound. cbn beta.
  destruct (found_bounds ic p s m Hfound) as (Hle & Hlt & _).
  specialize (Hlt Hm). lia.
Qed.

(** The matches are made of the characters the pattern takes. *)
Lemma finditer_chars (ic : bool) (p : regex) (s : string)
    (ok : ascii -> bool) :
  chars_within ic ok p = true ->
  Forall (fun m => all_of ok (group0 s m) = true) (finditer ic p s).
Proof.
  intros Hok. eapply Forall_impl; [apply finditer_found|].
  intros m Hfound. cbn beta.
  destruct (found_bounds ic p s m Hfound) as (_ & _ & Hall). by apply Hall.
Qed.

Lemma contact_patterns_checked :
  forallb must_consume (phone_patterns ++ [email_pattern] ++ time_patterns)
  = true
  /\ forallb (chars_within false Spec.phone_char) phone_patterns = true
  /\ chars_within false (fun c => negb (is_space c)) email_pattern = true.
Proof. vm_compute. repeat split. Qed.

End ContactInfo.

(** X20. The contact details and the times [NERService] finds in a text
    with its own patterns: every entry has the source [regex], no
    description, and a span that is not empty and lies on the text; a
    phone number and an e-mail address are the text of their span, with
    confidence 0.9, a phone number being made of digits, white space and
    the signs [-.()+] and an e-mail address holding no white space; a
    time is the text of its span with the white space at its ends
    removed, and has confidence 0.8. *)
Theorem contact_and_time_entities (s : string) :
  exists phones emails times : list NERService.entity,
    NERViews._extract_contact_info s !! "phone_numbers" = Some phones
    /\ NERViews._extract_contact_info s !! "emails" = Some emails
    /\ NERViews._extract_time_expressions s !! "times" = Some times
    /\ Forall (fun e =>
                 NERService.label e = "PHONE"
                 /\ NERService.confidence e = Some 0.9%Q
                 /\ NERService.text e = Spec.ner_span_text s e
                 /\ PyStr.all_of Spec.phone_char (NERService.text e) = true)
              phones
    /\ Forall (fun e =>
                 NERService.label e = "EMAIL"
                 /\ NERService.confidence e = Some 0.9%Q
                 /\ NERService.text e = Spec.ner_span_text s e
                 /\ PyStr.all_of (fun c => negb (PyStr.is_space c))
                                 (NERService.text e) = true)
              emails
    /\ Forall (fun e =>
                 NERService.label e = "TIME"
                 /\ NERService.confidence e = Some 0.8%Q
                 /\ NERService.text e
                    = PyStr.strip (Spec.ner_span_text s e))
              times
    /\ Forall (fun e =>
                 NERService.source e = "regex"
                 /\ NERService.description e = None
                 /\ (0 <= NERService.start e < NERService.end_ e)%Z
                 /\ (NERService.end_ e <= Z.of_nat (String.length s))%Z)
              (phones ++ emails ++ times).
Proof.
  destruct contact_patterns_checked as (Hcons & Hphone & Hmail).
  eexists _, _, _.
  split; [reflexivity|]. split; [reflexivity|]. split; [reflexivity|].
  assert (Hspan : forall (m : Re.mtch) (v l : string) (c : Q),
            Spec.ner_span_text s (NERViews.of_match v l c m) = Re.group0 s m).
  { intros m v l c. unfold Spec.ner_span_text, NERViews.of_match, Re.group0.
    cbn [NERService.start NERService.end_]. by rewrite !Nat2Z.id. }
  cbn [forallb app] in Hcons, Hphone.
  repeat (apply andb_true_iff in Hcons as [? Hcons]).
  repeat (apply andb_true_iff in Hphone as [? Hphone]).
  split; [|split; [|split]].
  - apply Forall_flat_map. unfold NERViews.phone_patterns.
    repeat (apply Forall_cons; split); [..|by apply Forall_nil];
      apply Forall_map;
      (eapply Forall_impl;
       [apply (finditer_chars false _ s Spec.phone_char); assumption|]);
      intros m Hall; cbn beta; rewrite Hspan; by repeat split.
  - apply Forall_map.
    eapply Forall_impl;
      [apply (finditer_chars false _ s (fun c => negb (PyStr.is_space c)));
       assumption|].
    intros m Hall; cbn beta; rewrite Hspan; by repeat split.
  - apply Forall_flat_map. unfold NERViews.time_patterns.
    repeat (apply Forall_cons; split); [..|by apply Forall_nil];
      apply Forall_map; apply Forall_forall; intros m _; cbn beta;
      rewrite Hspan; by repeat split.
  - rewrite !Forall_app. repeat split.
    + apply Forall_flat_map. unfold NERViews.phone_patterns.
      repeat (apply Forall_cons; split); [..|by apply Forall_nil];
        apply Forall_map;
        (eapply Forall_impl;
         [apply (finditer_bounds false _ s); assumption|]);
        intros m Hb; cbn beta in Hb; cbn; repeat split; lia.
    + apply Forall_map.
      eapply Forall_impl; [apply (finditer_bounds false _ s); assumption|].
      intros m Hb; cbn beta in Hb; cbn; repeat split; lia.
    + apply Forall_flat_map. unfold NERViews.time_patterns.
      repeat (apply Forall_cons; split); [..|by apply Forall_nil];
        apply Forall_map;
        (eapply Forall_impl;
         [apply (finditer_bounds false _ s); assumption|]);
        intros m Hb; cbn beta in Hb; cbn; repeat split; lia.
Qed.

Section CalendarResult.

Import NERService NERViews.

Lemma merged_of_ner_result (md : models) (txt : string)
    (use_spacy use_huggingface : bool) (threshold : Q)
    (d : gmap string value) :
  extract_entities md txt use_spacy use_huggingface threshold = inr d ->
  exists merged, d !! "merged_entities" = Some (VEntities merged)
                 /\ merged_of d = inr merged.
Proof.
  intros H.
  destruct (ner_extract_returns md txt _ _ _ d H)
    as (sp & hf & _ & _ & _ & _ & H3 & _).
  exists (_merge_entities sp hf). split; [exact H3|].
  unfold merged_of. by rewrite H3.
Qed.

Lemma empty_calendar_lookup (k : string) :
  empty_calendar !! k
  = if bool_decide (k ∈ Spec.calendar_keys) then Some [] else None.
Proof.
  unfold empty_calendar.
  destruct (decide (k = "events")) as [->|?];
    [reflexivity | rewrite lookup_insert_ne by congruence].
  destruct (decide (k = "emails")) as [->|?];
    [reflexivity | rewrite lookup_insert_ne by congruence].
  destruct (decide (k = "phone_numbers")) as [->|?];
    [reflexivity | rewrite lookup_insert_ne by congruence].
  destruct (decide (k = "organizations")) as [->|?];
    [reflexivity | rewrite lookup_insert_ne by congruence].
  destruct (decide (k = "locations")) as [->|?];
    [reflexivity | rewrite lookup_insert_ne by congruence].
  destruct (decide (k = "people")) as [->|?];
    [reflexivity | rewrite lookup_insert_ne by congruence].
  destruct (decide (k = "times")) as [->|?];
    [reflexivity | rewrite lookup_insert_ne by congruence].
  destruct (decide (k = "dates")) as [->|?];
    [reflexivity | rewrite lookup_insert_ne by congruence].
  rewrite lookup_empty, bool_decide_eq_false_2; [done|].
  unfold Spec.calendar_keys. rewrite !elem_of_union, !elem_of_singleton.
  tauto.
Qed.

Lemma contact_info_keys (s : string) (k : string) :
  k <> "phone_numbers" -> k <> "emails" -> _extract_contact_info s !! k = None.
Proof.
  intros H1 H2. unfold _extract_contact_info. cbn zeta.
  rewrite lookup_insert_ne by congruence.
  by rewrite lookup_singleton_ne by congruence.
Qed.

Lemma time_expressions_keys (s : string) (k : string) :
  k <> "times" -> _extract_time_expressions s !! k = None.
Proof.
  intros H. unfold _extract_time_expressions. cbn zeta.
  by rewrite lookup_singleton_ne by congruence.
Qed.

(** The two updates overwrite three keys and leave the others. *)
Lemma calendar_updates_lookup (s : string)
    (cal : gmap string (list entity)) (k : string) :
  update (_extract_time_expressions s) (update (_extract_contact_info s) cal)
  !! k
  = if decide (k = "times") then _extract_time_expressions s !! "times"
    else if decide (k = "phone_numbers" \/ k = "emails")
         then _extract_contact_info s !! k
         else cal !! k.
Proof.
  unfold update.
  destruct (decide (k = "times")) as [->|Ht].
  - by apply lookup_union_Some_l.
  - rewrite lookup_union_r by (by apply time_expressions_keys).
    destruct (decide (k = "phone_numbers" \/ k = "emails")) as [[->| ->]|Hc].
    + by apply lookup_union_Some_l.
    + by apply lookup_union_Some_l.
    + apply lookup_union_r, contact_info_keys; tauto.
Qed.

End CalendarResult.

(** X19. The dictionary [extract_calendar_entities] returns has the
    eight keys. The merged entities of [extract_entities] are sorted by
    label, in their order: DATE and TIME under [dates], PERSON and PER
    under [people], GPE, LOC and LOCATION under [locations], ORG and
    ORGANIZATION under [organizations]; [events] is always empty. The
    loop assigns each entity's text to [text], the method's parameter,
    so the phone numbers, e-mail addresses and times are those of the
    text of the last merged entity; they are those of the input only
    when nothing was merged. *)
Theorem calendar_entities_result (md : NERService.models) (txt : string)
    (cal : gmap string (list NERService.entity)) :
  NERViews.extract_calendar_entities md txt = inr cal ->
  exists (d : gmap string NERService.value)
         (merged : list NERService.entity),
    NERService.extract_entities_default md txt = inr d
    /\ d !! "merged_entities" = Some (NERService.VEntities merged)
    /\ dom cal = Spec.calendar_keys
    /\ cal !! "dates" = Some (Spec.labelled ["DATE"; "TIME"] merged)
    /\ cal !! "people" = Some (Spec.labelled ["PERSON"; "PER"] merged)
    /\ cal !! "locations"
       = Some (Spec.labelled ["GPE"; "LOC"; "LOCATION"] merged)
    /\ cal !! "organizations"
       = Some (Spec.labelled ["ORG"; "ORGANIZATION"] merged)
    /\ cal !! "events" = Some []
    /\ cal !! "phone_numbers"
       = NERViews._extract_contact_info (Spec.scanned_text txt merged)
         !! "phone_numbers"
    /\ cal !! "emails"
       = NERViews._extract_contact_info (Spec.scanned_text txt merged)
         !! "emails"
    /\ cal !! "times"
       = NERViews._extract_time_expressions (Spec.scanned_text txt merged)
         !! "times".
Proof.
  intros H. unfold NERViews.extract_calendar_entities in H.
  destruct (NERService.extract_entities_default md txt) as [e|d] eqn:Hd;
    [done|].
  destruct (merged_of_ner_result md txt _ _ _ d Hd) as (merged & Hm & Hmo).
  rewrite Hmo in H.
  pose proof (calendar_loop_result merged NERViews.empty_calendar txt)
    as Hloop.
  cbn zeta in Hloop.
  destruct (foldl NERViews.calendar_turn (NERViews.empty_calendar, txt)
                  merged) as [cal' t'].
  cbn [fst snd] in Hloop. destruct Hloop as (-> & H1 & H2 & H3 & H4 & H5).
  injection H as <-. exists d, merged.
  split; [reflexivity|]. split; [exact Hm|].
  assert (Hempty : forall k : string,
            k ∈ Spec.calendar_keys ->
            NERViews.empty_calendar !! k = Some []).
  { intros k Hk. by rewrite empty_calendar_lookup, bool_decide_eq_true_2. }
  assert (Hkeys : forall k : string,
            In k ["dates"; "times"; "people"; "locations"; "organizations";
                  "phone_numbers"; "emails"; "events"] ->
            k ∈ Spec.calendar_keys).
  { intros k Hk. unfold Spec.calendar_keys.
    rewrite !elem_of_union, !elem_of_singleton. cbn [In] in Hk.
    intuition auto. }
  rewrite Hempty in H1, H2, H3, H4 by (apply Hkeys; cbn [In]; auto 10).
  cbn [fmap option_fmap option_map app] in H1, H2, H3, H4.
  split.
  { apply set_eq. intros k. rewrite elem_of_dom, calendar_updates_lookup.
    destruct (decide (k = "times")) as [->|Ht]; [by split|].
    destruct (decide (k = "phone_numbers" \/ k = "emails")) as [[->| ->]|Hc];
      [by split..|].
    destruct (decide (k = "dates")) as [->|?]; [rewrite H1; by split|].
    destruct (decide (k = "people")) as [->|?]; [rewrite H2; by split|].
    destruct (decide (k = "locations")) as [->|?]; [rewrite H3; by split|].
    destruct (decide (k = "organizations")) as [->|?];
      [rewrite H4; by split|].
    rewrite H5, empty_calendar_lookup.
    - case_bool_decide as Hk; split.
      + intros _. exact Hk.
      + intros _. by eexists.
      + by intros [? ?].
      + intros Hk'. by destruct Hk.
    - rewrite !not_elem_of_cons. repeat split; try done.
      apply not_elem_of_nil. }
  rewrite !calendar_updates_lookup. cbn.
  rewrite H1, H2, H3, H4, H5, Hempty; [done | |].
  - apply Hkeys; cbn [In]; auto 10.
  - rewrite !not_elem_of_cons. repeat split; try done. apply not_elem_of_nil.
Qed.

(** ** The other views of [NERService] *)

Section YouTubeView.

Import PyStr NERService NERViews.

Implicit Types (e : entity) (merged : list entity) (y : youtube_entities).

(** The loop sorts the texts of the merged entities into three lists and
    leaves the four lists of entities alone. *)
Lemma youtube_loop_result merged : forall y,
  let y' := foldl youtube_turn y merged in
  title_entities y' = title_entities y
  /\ description_entities y' = description_entities y
  /\ transcript_entities y' = transcript_entities y
  /\ all_entities y' = all_entities y
  /\ people_mentioned y'
     = people_mentioned y ++ (text <$> Spec.labelled ["PERSON"; "PER"] merged)
  /\ organizations y'
     = organizations y
       ++ (text <$> Spec.labelled ["ORG"; "ORGANIZATION"] merged)
  /\ topics_covered y'
     = topics_covered y
       ++ (text <$> Spec.labelled ["MISC"; "PRODUCT"; "EVENT"] merged).
Proof.
  induction merged as [|e merged IH]; intros y; cbn zeta.
  - cbn [foldl]. unfold Spec.labelled. cbn [List.filter fmap list_fmap].
    by rewrite !app_nil_r.
  - cbn [foldl]. rewrite !labelled_cons. unfold youtube_turn at 2 4 6 8 10 12 14.
    destruct (label_in ["PERSON"; "PER"] e) eqn:H1;
    destruct (label_in ["ORG"; "ORGANIZATION"] e) eqn:H2;
    destruct (label_in ["MISC"; "PRODUCT"; "EVENT"] e) eqn:H3;
    try (exfalso;
         first [ eapply (label_in_disjoint _ _ e); [|exact H1|exact H2];
                 reflexivity
               | eapply (label_in_disjoint _ _ e); [|exact H1|exact H3];
                 reflexivity
               | eapply (label_in_disjoint _ _ e); [|exact H2|exact H3];
                 reflexivity ]);
    match goal with
    | |- context [foldl youtube_turn ?y0 merged] =>
        destruct (IH y0) as (E1 & E2 & E3 & E4 & E5 & E6 & E7)
    end;
    rewrite E1, E2, E3, E4, E5, E6, E7; cbn;
    by rewrite <- ?app_assoc.
Qed.

Lemma combined_text_truncates (metadata : youtube_metadata)
    (transcript : string) :
  combined_text metadata (take 1000 transcript)
  = combined_text metadata transcript.
Proof.
  unfold combined_text. by rewrite take_take, Nat.min_id.
Qed.

End YouTubeView.

Section Containment.

Lemma contains_app_r (a b w : string) :
  Spec.contains b w -> Spec.contains (a +:+ b) w.
Proof.
  intros (p & q & ->). exists (a +:+ p), q. by rewrite str_app_assoc.
Qed.

Lemma contains_app_l (a b w : string) :
  Spec.contains a w -> Spec.contains (a +:+ b) w.
Proof.
  intros (p & q & ->). exists p, (q +:+ b). by rewrite !str_app_assoc.
Qed.

End Containment.

(** X21. What [extract_youtube_entities] returns: [all_entities] is the
    list of merged entities of [extract_entities] on the combined text;
    [people_mentioned], [organizations] and [topics_covered] are the
    texts of the merged entities labelled PERSON or PER, ORG or
    ORGANIZATION, and MISC, PRODUCT or EVENT, in their order;
    [title_entities], [description_entities] and [transcript_entities]
    are always empty. *)
Theorem youtube_entities_result (md : NERService.models)
    (metadata : NERViews.youtube_metadata) (transcript : string)
    (y : NERViews.youtube_entities) :
  NERViews.extract_youtube_entities md metadata transcript = inr y ->
  exists (d : gmap string NERService.value)
         (merged : list NERService.entity),
    NERService.extract_entities_default md
      (NERViews.combined_text metadata transcript) = inr d
    /\ d !! "merged_entities" = Some (NERService.VEntities merged)
    /\ NERViews.title_entities y = []
    /\ NERViews.description_entities y = []
    /\ NERViews.transcript_entities y = []
    /\ NERViews.all_entities y = merged
    /\ NERViews.people_mentioned y
       = NERService.text <$> Spec.labelled ["PERSON"; "PER"] merged
    /\ NERViews.organizations y
       = NERService.text <$> Spec.labelled ["ORG"; "ORGANIZATION"] merged
    /\ NERViews.topics_covered y
       = NERService.text
         <$> Spec.labelled ["MISC"; "PRODUCT"; "EVENT"] merged.
Proof.
  intros H. unfold NERViews.extract_youtube_entities in H.
  destruct (NERService.extract_entities_default md _) as [e|d] eqn:Hd;
    [done|].
  destruct (merged_of_ner_result md _ _ _ _ d Hd) as (merged & Hm & Hmo).
  rewrite Hmo in H. injection H as <-.
  exists d, merged. split; [reflexivity|]. split; [exact Hm|].
  destruct (youtube_loop_result merged
              (NERViews.YouTube [] [] [] merged [] [] []))
    as (E1 & E2 & E3 & E4 & E5 & E6 & E7).
  by rewrite E1, E2, E3, E4, E5, E6, E7.
Qed.

(** X22. Of the transcript only the first 1000 characters count: the
    result is that of the transcript cut there. The text handed to the
    models is never empty: it always holds the captions [Title:],
    [Description:], [Channel:] and [Tags:], each followed by its value
    (the tags joined by a comma and a space), and the cut transcript
    followed by the comment [# First 1000 chars], which the source has
    inside the f-string. *)
Theorem youtube_transcript_truncated (md : NERService.models)
    (metadata : NERViews.youtube_metadata) (transcript : string) :
  NERViews.extract_youtube_entities md metadata transcript
  = NERViews.extract_youtube_entities md metadata (PyStr.take 1000 transcript)
  /\ Spec.contains (NERViews.combined_text metadata transcript)
                   (PyStr.take 1000 transcript +:+ "  # First 1000 chars")
  /\ Forall (Spec.contains (NERViews.combined_text metadata transcript))
            ["Title: " +:+ default "" (NERViews.yt_title metadata);
             "Description: "
               +:+ default "" (NERViews.yt_description metadata);
             "Channel: " +:+ default "" (NERViews.yt_channel metadata);
             "Tags: "
               +:+ PyStr.join ", " (default [] (NERViews.yt_tags metadata))].
Proof.
  split.
  { unfold NERViews.extract_youtube_entities.
    by rewrite combined_text_truncates. }
  unfold NERViews.combined_text. cbn [String.concat].
  rewrite !str_app_nil_l.
  split.
  { do 14 apply contains_app_r. rewrite <- str_app_assoc.
    apply contains_app_l, contains_refl. }
  repeat (apply Forall_cons; split); [..|by apply Forall_nil].
  - apply contains_app_r. change "        Title: " with ("        " +:+ "Title: ").
    rewrite str_app_assoc. apply contains_app_r.
    rewrite <- str_app_assoc. apply contains_app_l, contains_refl.
  - do 4 apply contains_app_r.
    change "        Description: " with ("        " +:+ "Description: ").
    rewrite str_app_assoc. apply contains_app_r.
    rewrite <- str_app_assoc. apply contains_app_l, contains_refl.
  - do 7 apply contains_app_r.
    change "        Channel: " with ("        " +:+ "Channel: ").
    rewrite str_app_assoc. apply contains_app_r.
    rewrite <- str_app_assoc. apply contains_app_l, contains_refl.
  - do 10 apply contains_app_r.
    change "        Tags: " with ("        " +:+ "Tags: ").
    rewrite str_app_assoc. apply contains_app_r.
    rewrite <- str_app_assoc. apply contains_app_l, contains_refl.
Qed.

Section SocialView.

Import PyStr Re NERService NERViews.

Lemma accepts_set_inv (ic negated : bool) (items : list citem)
    (c c' : cursor) :
  accepts ic (RSet negated items) c c' ->
  exists b, set_match ic negated items b = true
            /\ c_rest c = String b (c_rest c').
Proof. inversion 1; subst. by eexists. Qed.

Lemma word_chars_checked : chars_within false is_word (RPlus RWord) = true.
Proof. vm_compute. reflexivity. Qed.

(** A match of a sign followed by [\w+] is the sign and a run of word
    characters that is not empty. *)
Lemma sigil_token (a : ascii) (txt : string) (m : mtch) :
  found false (RSeq (RChar a) (RPlus RWord)) txt m ->
  exists w : string,
    group0 txt m = String a w /\ w <> "" /\ all_of is_word w = true.
Proof.
  intros (c & c' & Hc & Ha & Hs & He).
  destruct (accepts_on_text false txt _ c c' Ha Hc) as (_ & _ & Hslice).
  unfold group0. rewrite Hs, He.
  apply accepts_seq_inv in Ha as (c1 & H1 & H2).
  apply accepts_char_inv in H1 as (b & Hb & H1).
  unfold item_match, item_has in Hb. apply Ascii.eqb_eq in Hb as <-.
  destruct (accepts_chars_within false is_word _ c1 c' H2 word_chars_checked)
    as (w & Hw & Hpos & Hall).
  pose proof (accepts_must_consume false _ c1 c' H2 eq_refl) as Hlt.
  exists w. rewrite H1, Hw in Hslice.
  change (String a (w +:+ c_rest c')) with (String a w +:+ c_rest c')
    in Hslice.
  apply str_app_inv_r in Hslice as <-.
  split; [reflexivity|]. split; [|exact Hall].
  intros ->. simpl in Hpos. lia.
Qed.

Lemma sigil_tokens (a : ascii) (txt : string) :
  Forall (fun h => h <> "" /\ all_of is_word h = true
                   /\ Spec.contains txt (String a h))
         (map (drop 1) (findall false (RSeq (RChar a) (RPlus RWord)) txt)).
Proof.
  unfold findall. rewrite map_map. apply Forall_map.
  eapply Forall_impl; [apply finditer_found|].
  intros m Hfound. cbn beta.
  destruct (sigil_token a txt m Hfound) as (w & Hg & Hne & Hall).
  pose proof (slice_contains (m_start m) (m_end m) txt) as Hin.
  fold (group0 txt m) in Hin. rewrite Hg in *. cbn [drop].
  by repeat split.
Qed.

Lemma social_url_chars_checked :
  chars_within false (fun c => negb (is_space c)) url_pattern = true.
Proof. vm_compute. reflexivity. Qed.

Lemma social_url (txt : string) (m : mtch) :
  found false url_pattern txt m ->
  (startswith "http://" (group0 txt m) || startswith "https://" (group0 txt m))
  = true.
Proof.
  intros (c & c' & Hc & Ha & Hs & He).
  destruct (accepts_on_text false txt _ c c' Ha Hc) as (_ & _ & Hslice).
  unfold group0. rewrite Hs, He.
  unfold url_pattern in Ha. cbn [RSeqs] in Ha.
  apply accepts_seq_inv in Ha as (c1 & H1 & Ha).
  apply accepts_seq_inv in Ha as (c2 & H2 & Ha).
  apply accepts_seq_inv in Ha as (c3 & H3 & Ha).
  apply accepts_lit in H1, H3.
  destruct (accepts_rest false _ _ _ Ha) as (w & Hw & _).
  apply accepts_alt_inv in H2 as [H2|H2].
  - apply accepts_set_inv in H2 as (b & Hb & H2).
    assert (b = "s"%char) as ->.
    { unfold set_match, item_match in Hb. cbn [existsb item_has xorb] in Hb.
      rewrite orb_false_r in Hb. by apply Ascii.eqb_eq in Hb. }
    rewrite H1, H2, H3, Hw in Hslice.
    change ("http" +:+ String "s" ("://" +:+ w +:+ c_rest c'))
      with (("https://" +:+ w) +:+ c_rest c') in Hslice.
    apply str_app_inv_r in Hslice as <-. reflexivity.
  - apply accepts_eps_inv in H2 as ->.
    rewrite H1, H3, Hw in Hslice.
    change ("http" +:+ "://" +:+ w +:+ c_rest c')
      with (("http://" +:+ w) +:+ c_rest c') in Hslice.
    apply str_app_inv_r in Hslice as <-. reflexivity.
Qed.

Lemma sentiment_loop_facts (sentiment : string) (words : list string)
    (txt : string) :
  Forall (fun s => s_sentiment s = sentiment /\ s_confidence s = 0.7%Q
                   /\ s_text s ∈ words
                   /\ Spec.contains (lower txt) (lower (s_text s)))
         (sentiment_loop sentiment words txt)
  /\ s_text <$> sentiment_loop sentiment words txt
     = List.filter (fun word => str_in (lower word) (lower txt)) words.
Proof.
  unfold sentiment_loop. split.
  - apply Forall_forall. intros s Hs.
    apply list_elem_of_omap in Hs as (word & Hw & Hs).
    destruct (str_in (lower word) (lower txt)) eqn:Hin; [|done].
    injection Hs as <-. cbn. repeat split; [exact Hw|].
    by apply str_in_contains.
  - induction words as [|word words IH]; [done|].
    cbn [omap list_omap List.filter].
    destruct (str_in (lower word) (lower txt)); cbn; by rewrite IH.
Qed.

End SocialView.

Section ViewsRaise.

Import PyStr NERService NERViews.

Lemma merged_of_after_extract (md : models) (txt : string) :
  match extract_entities_default md txt with
  | inl e => True
  | inr d => exists merged, d !! "merged_entities" = Some (VEntities merged)
                            /\ merged_of d = inr merged
  end.
Proof.
  destruct (extract_entities_default md txt) as [e|d] eqn:Hd; [done|].
  by apply (merged_of_ner_result md txt true true 0.5%Q).
Qed.

Lemma calendar_raises (md : models) (txt : string) (e : exn) :
  extract_calendar_entities md txt = inl e
  <-> extract_entities_default md txt = inl e.
Proof.
  unfold extract_calendar_entities.
  pose proof (merged_of_after_extract md txt) as H.
  destruct (extract_entities_default md txt) as [e'|d];
    [split; by intros [= ->]|].
  destruct H as (merged & _ & ->).
  by destruct (foldl calendar_turn (empty_calendar, txt) merged).
Qed.

Lemma youtube_raises (md : models) (metadata : youtube_metadata)
    (transcript : string) (e : exn) :
  extract_youtube_entities md metadata transcript = inl e
  <-> extract_entities_default md (combined_text metadata transcript)
      = inl e.
Proof.
  unfold extract_youtube_entities.
  pose proof (merged_of_after_extract md (combined_text metadata transcript))
    as H.
  destruct (extract_entities_default md _) as [e'|d];
    [split; by intros [= ->]|].
  by destruct H as (merged & _ & ->).
Qed.

Lemma social_raises (md : models) (post : option string) (e : exn) :
  extract_social_media_entities md post = inl e
  <-> default "" post <> ""
      /\ extract_entities_default md (default "" post) = inl e.
Proof.
  unfold extract_social_media_entities. cbn zeta.
  destruct (is_empty (default "" post)) eqn:Hempty.
  - apply is_empty_true in Hempty. split; [done | by intros [? _]].
  - assert (Hne : default "" post <> "").
    { intros Heq. rewrite Heq in Hempty. discriminate Hempty. }
    pose proof (merged_of_after_extract md (default "" post)) as H.
    destruct (extract_entities_default md _) as [e'|d].
    + split; [by intros [= <-] | by intros [_ [= <-]]].
    + destruct H as (merged & _ & ->). split; [done | by intros [_ ?]].
Qed.

End ViewsRaise.

(** X23. What [extract_social_media_entities] returns. A post without
    text, or with an empty one, gives three empty lists and neither
    [urls] nor [sentiment_entities]. Otherwise [entities] is the list of
    merged entities of [extract_entities]; every hashtag and every
    mention is a run of word characters that is not empty and stands in
    the text behind its sign, which is left out; every URL begins with
    [http://] or [https://], holds no white space and stands in the
    text; and the sentiment entities are the words of the two fixed
    lists whose lower case occurs in the lower case of the text, inside a
    longer word or not, the positive ones first, each with confidence
    0.7. *)
Theorem social_media_result (md : NERService.models) (post : option string)
    (r : NERViews.social_media_entities) :
  NERViews.extract_social_media_entities md post = inr r ->
  (default "" post = "" /\ r = NERViews.SocialMedia [] [] [] None None)
  \/ (default "" post <> ""
      /\ exists (d : gmap string NERService.value)
                (merged : list NERService.entity) (urls : list string)
                (sentiments : list NERViews.sentiment_entity),
           NERService.extract_entities_default md (default "" post) = inr d
           /\ d !! "merged_entities" = Some (NERService.VEntities merged)
           /\ NERViews.sm_entities r = merged
           /\ NERViews.sm_urls r = Some urls
           /\ NERViews.sm_sentiment_entities r = Some sentiments
           /\ Forall (fun h => h <> "" /\ PyStr.all_of PyStr.is_word h = true
                               /\ Spec.contains (default "" post)
                                                (String "#" h))
                     (NERViews.sm_hashtags r)
           /\ Forall (fun h => h <> "" /\ PyStr.all_of PyStr.is_word h = true
                               /\ Spec.contains (default "" post)
                                                (String "@" h))
                     (NERViews.sm_mentions r)
           /\ Forall (fun u =>
                        (PyStr.startswith "http://" u
                         || PyStr.startswith "https://" u) = true
                        /\ PyStr.all_of (fun c => negb (PyStr.is_space c)) u
                           = true
                        /\ Spec.contains (default "" post) u)
                     urls
           /\ Forall (fun s =>
                        NERViews.s_confidence s = 0.7%Q
                        /\ Spec.contains (PyStr.lower (default "" post))
                                         (PyStr.lower (NERViews.s_text s))
                        /\ (NERViews.s_sentiment s = "positive"
                            /\ NERViews.s_text s ∈ NERViews.positive_words
                            \/ NERViews.s_sentiment s = "negative"
                               /\ NERViews.s_text s
                                  ∈ NERViews.negative_words))
                     sentiments
           /\ NERViews.s_text <$> sentiments
              = List.filter
                  (fun word =>
                     PyStr.str_in (PyStr.lower word)
                                  (PyStr.lower (default "" post)))
                  (NERViews.positive_words ++ NERViews.negative_words)).
Proof.
  unfold NERViews.extract_social_media_entities. cbn zeta.
  destruct (PyStr.is_empty (default "" post)) eqn:Hempty.
  { apply is_empty_true in Hempty. intros [= <-]. by left. }
  assert (Hne : default "" post <> "").
  { intros Heq. rewrite Heq in Hempty. discriminate Hempty. }
  pose proof (merged_of_after_extract md (default "" post)) as H.
  destruct (NERService.extract_entities_default md _) as [e'|d]; [done|].
  destruct H as (merged & Hm & ->). intros [= <-].
  right. split; [exact Hne|].
  exists d, merged. eexists _, _.
  split; [reflexivity|]. split; [exact Hm|].
  split; [reflexivity|]. split; [reflexivity|]. split; [reflexivity|].
  cbn [NERViews.sm_hashtags NERViews.sm_mentions].
  split; [apply sigil_tokens|]. split; [apply sigil_tokens|].
  destruct (sentiment_loop_facts "positive" NERViews.positive_words
              (default "" post)) as [Hp1 Hp2].
  destruct (sentiment_loop_facts "negative" NERViews.negative_words
              (default "" post)) as [Hn1 Hn2].
  split; [|split].
  - unfold Re.findall. apply Forall_map.
    eapply Forall_impl; [apply finditer_found|].
    intros m Hfound. cbn beta. split; [by apply social_url|]. split.
    + destruct (found_bounds false _ _ m Hfound) as (_ & _ & Hall).
      apply Hall, social_url_chars_checked.
    + apply slice_contains.
  - unfold NERViews._extract_sentiment_entities. apply Forall_app. split.
    + eapply Forall_impl; [exact Hp1|]. intros s (H1 & H2 & H3 & H4).
      split; [exact H2|]. split; [exact H4|]. by left.
    + eapply Forall_impl; [exact Hn1|]. intros s (H1 & H2 & H3 & H4).
      split; [exact H2|]. split; [exact H4|]. by right.
  - unfold NERViews._extract_sentiment_entities.
    by rewrite fmap_app, Hp2, Hn2, List.filter_app.
Qed.

Lemma social_media_result_witness :
  exists r : NERViews.social_media_entities,
    NERViews.extract_social_media_entities Sample.no_models
      (Some "Great talk by @ada at #rocq2026 http://x.y/z") = inr r
    /\ NERViews.sm_hashtags r = ["rocq2026"]
    /\ NERViews.sm_mentions r = ["ada"]
    /\ NERViews.sm_urls r = Some ["http://x.y/z"]
    /\ ((default "" (Some "Great talk by @ada at #rocq2026 http://x.y/z")
         = ""
         /\ r = NERViews.SocialMedia [] [] [] None None)
        \/ default "" (Some "Great talk by @ada at #rocq2026 http://x.y/z")
           <> "").
Proof.
  destruct (NERViews.extract_social_media_entities Sample.no_models
              (Some "Great talk by @ada at #rocq2026 http://x.y/z"))
    as [e|r] eqn:Hr.
  - exfalso. apply social_raises in Hr as [_ Hr].
    destruct (ner_extract_raises_inv _ _ _ _ _ _ Hr)
      as [(f & Hf & _)|(f & Hf & _)]; discriminate Hf.
  - exists r. split; [reflexivity|].
    pose proof (social_media_result _ _ _ Hr) as H.
    assert (Hc : NERViews.extract_social_media_entities Sample.no_models
                   (Some "Great talk by @ada at #rocq2026 http://x.y/z")
                 = inr r) by exact Hr.
    vm_compute in Hc. injection Hc as <-.
    split; [reflexivity|]. split; [reflexivity|]. split; [reflexivity|].
    destruct H as [[H1 H2]|[H1 _]]; [left; by split | by right].
Defined.

(** X24. The three views raise exactly when their call of
    [extract_entities] raises, and then the same exception: reading
    [merged_entities] off its result never fails, and nothing else in
    them can. A post without text never raises. *)
Theorem views_raise_with_extract_entities (md : NERService.models)
    (e : exn) :
  (forall txt : string,
     NERViews.extract_calendar_entities md txt = inl e
     <-> NERService.extract_entities_default md txt = inl e)
  /\ (forall (metadata : NERViews.youtube_metadata) (transcript : string),
        NERViews.extract_youtube_entities md metadata transcript = inl e
        <-> NERService.extract_entities_default md
              (NERViews.combined_text metadata transcript) = inl e)
  /\ (forall post : option string,
        NERViews.extract_social_media_entities md post = inl e
        <-> default "" post <> ""
            /\ NERService.extract_entities_default md (default "" post)
               = inl e).
Proof.
  split; [|split].
  - intros txt. apply calendar_raises.
  - intros metadata transcript. apply youtube_raises.
  - intros post. apply social_raises.
Qed.

Lemma calendar_entities_result_witness :
  exists (cal : gmap string (list NERService.entity))
         (d : gmap string NERService.value)
         (merged : list NERService.entity),
    NERViews.extract_calendar_entities Sample.two_models
      "3/14/2025 Acme 555-123-4567" = inr cal
    /\ NERService.extract_entities_default Sample.two_models
         "3/14/2025 Acme 555-123-4567" = inr d
    /\ d !! "merged_entities" = Some (NERService.VEntities merged)
    /\ dom cal = Spec.calendar_keys
    /\ cal !! "dates" = Some (Spec.labelled ["DATE"; "TIME"] merged)
    /\ cal !! "people" = Some (Spec.labelled ["PERSON"; "PER"] merged)
    /\ cal !! "locations"
       = Some (Spec.labelled ["GPE"; "LOC"; "LOCATION"] merged)
    /\ cal !! "organizations"
       = Some (Spec.labelled ["ORG"; "ORGANIZATION"] merged)
    /\ cal !! "events" = Some []
    /\ cal !! "phone_numbers"
       = NERViews._extract_contact_info
           (Spec.scanned_text "3/14/2025 Acme 555-123-4567" merged)
         !! "phone_numbers"
    /\ cal !! "emails"
       = NERViews._extract_contact_info
           (Spec.scanned_text "3/14/2025 Acme 555-123-4567" merged)
         !! "emails"
    /\ cal !! "times"
       = NERViews._extract_time_expressions
           (Spec.scanned_text "3/14/2025 Acme 555-123-4567" merged)
         !! "times".
Proof.
  destruct (NERViews.extract_calendar_entities Sample.two_models
              "3/14/2025 Acme 555-123-4567") as [e|cal] eqn:Hcal.
  - exfalso. apply calendar_raises in Hcal.
    destruct (ner_extract_raises_inv _ _ _ _ _ _ Hcal)
      as [(f & Hf & Hr)|(f & Hf & Hr)];
      injection Hf as <-; discriminate Hr.
  - destruct (calendar_entities_result Sample.two_models
                "3/14/2025 Acme 555-123-4567" cal Hcal)
      as (d & merged & H).
    exists cal, d, merged. split; [reflexivity | exact H].
Defined.

Lemma youtube_entities_result_witness :
  exists (y : NERViews.youtube_entities)
         (d : gmap string NERService.value)
         (merged : list NERService.entity),
    NERViews.extract_youtube_entities Sample.two_models
      (NERViews.Metadata (Some "Acme") None None (Some ["a"; "b"])) "hello"
    = inr y
    /\ NERService.extract_entities_default Sample.two_models
         (NERViews.combined_text
            (NERViews.Metadata (Some "Acme") None None (Some ["a"; "b"]))
            "hello") = inr d
    /\ d !! "merged_entities" = Some (NERService.VEntities merged)
    /\ NERViews.title_entities y = []
    /\ NERViews.description_entities y = []
    /\ NERViews.transcript_entities y = []
    /\ NERViews.all_entities y = merged
    /\ NERViews.people_mentioned y
       = NERService.text <$> Spec.labelled ["PERSON"; "PER"] merged
    /\ NERViews.organizations y
       = NERService.text <$> Spec.labelled ["ORG"; "ORGANIZATION"] merged
    /\ NERViews.topics_covered y
       = NERService.text
         <$> Spec.labelled ["MISC"; "PRODUCT"; "EVENT"] merged.
Proof.
  destruct (NERViews.extract_youtube_entities Sample.two_models
              (NERViews.Metadata (Some "Acme") None None (Some ["a"; "b"]))
              "hello") as [e|y] eqn:Hy.
  - exfalso. apply youtube_raises in Hy.
    destruct (ner_extract_raises_inv _ _ _ _ _ _ Hy)
      as [(f & Hf & Hr)|(f & Hf & Hr)];
      injection Hf as <-; discriminate Hr.
  - destruct (youtube_entities_result Sample.two_models _ _ y Hy)
      as (d & merged & H).
    exists y, d, merged. split; [reflexivity | exact H].
Defined.

Section ViewExamples.

Import NERService NERViews.

(** With no model loaded nothing is merged and the phone number of the
    input is found; when the models find a date and an organisation, the
    text that is scanned is that of the organisation, and the phone
    number of the input is not reported. *)
Example phone_number_of_the_input :
  match extract_calendar_entities Sample.no_models
          "3/14/2025 Acme 555-123-4567" with
  | inr cal => cal !! "phone_numbers"
  | inl _ => None
  end
  = Some [Entity "555-123-4567" "PHONE" 15 27 (Some 0.9%Q) None "regex"].
Proof. vm_compute. reflexivity. Qed.

Example phone_number_not_reported :
  match extract_calendar_entities Sample.two_models
          "3/14/2025 Acme 555-123-4567" with
  | inr cal => cal !! "phone_numbers"
  | inl _ => None
  end
  = Some [].
Proof. vm_compute. reflexivity. Qed.

(** A time keeps the offsets of its match and loses the white space at
    the end of its text. *)
Example time_is_stripped :
  _extract_time_expressions "9:15 x" !! "times"
  = Some [Entity "9:15" "TIME" 0 5 (Some 0.8%Q) None "regex"].
Proof. vm_compute. reflexivity. Qed.

(** A sentiment word is found inside a longer word, and an e-mail
    address gives a mention. *)
Example sentiment_by_substring :
  match extract_social_media_entities Sample.no_models
          (Some "My BADGE: write to a@b.com") with
  | inr r => (sm_mentions r, s_text <$> default [] (sm_sentiment_entities r))
  | inl _ => ([], [])
  end
  = (["b"], ["bad"]).
Proof. vm_compute. reflexivity. Qed.

End ViewExamples.

(** ** The routes: filtering by entity types *)

Section RouteFilter.

Import EntityExtractionService Routes.

Implicit Types (l : list ExtractedEntity) (t k : string)
  (m : gmap string nat) (types : list string).

Lemma count_of_type_spec t l : count_of_type t l = Spec.count_type t l.
Proof.
  unfold count_of_type, Spec.count_type.
  induction l as [|e l IH]; [done|].
  cbn [List.filter]. rewrite filter_cons.
  destruct (String.eqb_spec (type e) t) as [Heq|Hne].
  - rewrite decide_True by done. simpl. by rewrite IH.
  - by rewrite decide_False by done.
Qed.

Lemma length_without_type k l :
  length l = Spec.count_type k l + length (filter (fun e => type e <> k) l).
Proof.
  unfold Spec.count_type. induction l as [|e l IH]; [done|].
  rewrite !filter_cons. destruct (decide (type e = k)); simpl.
  - rewrite decide_False by tauto. simpl. lia.
  - rewrite decide_True by done. simpl. lia.
Qed.

Lemma count_type_without t k l :
  t <> k ->
  Spec.count_type t (filter (fun e => type e <> k) l) = Spec.count_type t l.
Proof.
  intros Hne. unfold Spec.count_type.
  induction l as [|e l IH]; [done|].
  rewrite !filter_cons.
  destruct (decide (type e = t)) as [He|He].
  - rewrite decide_True by congruence.
    rewrite filter_cons, decide_True by done. simpl. by rewrite IH.
  - destruct (decide (type e <> k)); [|exact IH].
    rewrite filter_cons, decide_False by done. exact IH.
Qed.

(** A table that gives some types their counts in a list, zero counts
    included, and has an entry for the type of every entity of the list,
    sums to the length of the list. *)
Lemma total_with_zeros m : forall l,
  (forall t n, m !! t = Some n -> n = Spec.count_type t l) ->
  (forall e, e ∈ l -> is_Some (m !! type e)) ->
  Spec.total m = length l.
Proof.
  induction m as [|k n m Hk IH] using map_ind; intros l Hm Hall.
  - unfold Spec.total. rewrite map_fold_empty.
    destruct l as [|e l]; [done|].
    destruct (Hall e) as [? He]; [by left|]. by rewrite lookup_empty in He.
  - rewrite total_insert by exact Hk.
    rewrite (length_without_type k l).
    rewrite (IH (filter (fun e => type e <> k) l)).
    + f_equal. apply Hm. by rewrite lookup_insert_eq.
    + intros t n' Ht.
      assert (t <> k) by (intros ->; congruence).
      rewrite count_type_without by done.
      apply Hm. by rewrite lookup_insert_ne.
    + intros e He. apply list_elem_of_filter in He as [Hne He].
      specialize (Hall e He). by rewrite lookup_insert_ne in Hall.
Qed.

(** The table the dictionary comprehension builds. *)
Lemma type_counts_lookup (f : string -> nat) types : forall m k,
  foldl (fun counts t => <[t := f t]> counts) m types !! k
  = if decide (k ∈ types) then Some (f k) else m !! k.
Proof.
  induction types as [|t types IH]; intros m k; cbn [foldl].
  - by rewrite decide_False by apply not_elem_of_nil.
  - rewrite IH. destruct (decide (k ∈ types)) as [Hin|Hout].
    + rewrite decide_True; [done | by right].
    + destruct (decide (k = t)) as [->|Hne].
      * rewrite lookup_insert_eq, decide_True; [done | by left].
      * rewrite lookup_insert_ne by done.
        rewrite decide_False; [done|].
        rewrite not_elem_of_cons. by split.
Qed.

Lemma type_in_true types (e : ExtractedEntity) :
  type_in types e = true <-> type e ∈ types.
Proof.
  unfold type_in. rewrite existsb_exists. split.
  - intros (x & Hx & Heq). apply String.eqb_eq in Heq. subst.
    by apply list_elem_of_In.
  - intros H. exists (type e). split; [by apply list_elem_of_In|].
    apply String.eqb_refl.
Qed.

End RouteFilter.

(** X25. The filter of [/extract]. A request without [entity_types], or
    with an empty list, leaves the result as it is. Otherwise the
    entities are those whose type is requested, in their order;
    [entity_counts] is rebuilt with one entry for every requested type,
    zero entries included, and no other: each gives the number of
    entities of that type that are left, and they sum to the number of
    entities that are left. The calendar events are not filtered, and
    [text_length] and [word_count] stay those of the whole text. *)
Theorem filter_entity_types_counts (t0 : string) (types : list string)
    (result : extraction) :
  Routes.filter_entity_types None result = result
  /\ Routes.filter_entity_types (Some []) result = result
  /\ exists counts : gmap string nat,
       Routes.filter_entity_types (Some (t0 :: types)) result
       = mkExtraction
           (List.filter (EntityExtractionService.type_in (t0 :: types))
                        (entities result))
           (Some counts) (text_length result) (word_count result)
           (calendar_events result)
       /\ dom counts = list_to_set (t0 :: types)
       /\ (forall t : string,
             t ∈ t0 :: types ->
             counts !! t
             = Some (Spec.count_type t
                       (List.filter
                          (EntityExtractionService.type_in (t0 :: types))
                          (entities result))))
       /\ Spec.total counts
          = length (List.filter
                      (EntityExtractionService.type_in (t0 :: types))
                      (entities result)).
Proof.
  split; [reflexivity|]. split; [reflexivity|].
  eexists. split; [reflexivity|].
  set (filtered := List.filter _ (entities result)).
  set (f := fun t => Routes.count_of_type t filtered).
  assert (Hlook : forall k : string,
            foldl (fun counts t => <[t := f t]> counts)
                  (∅ : gmap string nat) (t0 :: types) !! k
            = if decide (k ∈ t0 :: types)
              then Some (Spec.count_type k filtered) else None).
  { intros k. rewrite type_counts_lookup, lookup_empty.
    unfold f. by rewrite count_of_type_spec. }
  split; [|split].
  - apply set_eq. intros k.
    rewrite elem_of_dom, elem_of_list_to_set, Hlook.
    destruct (decide (k ∈ t0 :: types)); split; try done;
      try (by intros [? ?]).
  - intros t Ht. by rewrite Hlook, decide_True.
  - apply total_with_zeros.
    + intros t n. rewrite Hlook.
      destruct (decide (t ∈ t0 :: types)); [by intros [= <-] | done].
    + intros e He. rewrite Hlook.
      apply list_elem_of_In, filter_In in He as [_ He].
      apply type_in_true in He. by rewrite decide_True.
Qed.

(** ** The routes: contacts *)

Section Contacts.

Import PyStr EntityExtractionService Routes.

Implicit Types (d : list (string * contact)) (k key email : string)
  (v c : contact) (e entity : ExtractedEntity) (L P l : list ExtractedEntity).

Lemma dict_mem_true key d : dict_mem key d = true <-> key ∈ d.*1.
Proof.
  unfold dict_mem. rewrite existsb_exists. split.
  - intros ([k c] & Hin & Heq). apply String.eqb_eq in Heq. simpl in Heq.
    subst. apply list_elem_of_fmap. exists (key, c).
    split; [done | by apply list_elem_of_In].
  - intros H. apply list_elem_of_fmap in H as ([k c] & -> & Hin).
    exists (k, c). split; [by apply list_elem_of_In | apply String.eqb_refl].
Qed.

Lemma dict_set_keys key v d :
  (dict_set key v d).*1 = if dict_mem key d then d.*1 else d.*1 ++ [key].
Proof.
  induction d as [|[k old] d IH]; [done|].
  cbn [dict_set dict_mem existsb fst].
  destruct (String.eqb_spec k key) as [->|Hne]; [done|].
  cbn [orb]. rewrite fmap_cons, IH. unfold dict_mem.
  by destruct (existsb _ d).
Qed.

Lemma dict_add_email_keys key email d :
  (dict_add_email key email d).*1 = d.*1.
Proof.
  induction d as [|[k c] d IH]; [done|]. cbn [dict_add_email].
  destruct (String.eqb k key); [done|]. by rewrite !fmap_cons, IH.
Qed.

Lemma dict_set_nodup key v d : NoDup d.*1 -> NoDup (dict_set key v d).*1.
Proof.
  intros Hnd. rewrite dict_set_keys.
  destruct (dict_mem key d) eqn:Hm; [done|].
  apply NoDup_app. split; [done|]. split; [|apply NoDup_singleton].
  intros x Hx Hx'. apply list_elem_of_singleton in Hx' as ->.
  apply dict_mem_true in Hx. congruence.
Qed.

Lemma dict_set_all (Q : string * contact -> Prop) key v d :
  Forall Q d -> Q (key, v) -> Forall Q (dict_set key v d).
Proof.
  induction d as [|[k old] d IH]; intros Hd Hv; cbn [dict_set].
  - by constructor.
  - inversion Hd; subst. destruct (String.eqb k key); constructor; auto.
Qed.

Lemma dict_add_email_all (Q : string * contact -> Prop) key email d :
  (forall c, Q (key, c) ->
             Q (key, Contact (name c) (emails c ++ [email]) (phones c)
                             (contact_confidence c) (contact_context c))) ->
  Forall Q d -> Forall Q (dict_add_email key email d).
Proof.
  intros Hstep. induction 1 as [|[k c] d Hkc Hd IH]; cbn [dict_add_email];
    [constructor|].
  destruct (String.eqb_spec k key) as [->|Hne]; constructor; auto.
Qed.

Lemma dict_set_length key v d : length (dict_set key v d) <= S (length d).
Proof.
  induction d as [|[k old] d IH]; cbn [dict_set]; [simpl; lia|].
  destruct (String.eqb k key); simpl; lia.
Qed.

Lemma dict_add_email_length key email d :
  length (dict_add_email key email d) = length d.
Proof.
  induction d as [|[k c] d IH]; [done|]. cbn [dict_add_email].
  destruct (String.eqb k key); simpl; [done | by rewrite IH].
Qed.

(** One turn of the loop keeps the keys distinct and every entry a
    contact of the entities, filed under its name; it adds one entry at
    most. *)
Lemma contacts_step_inv L P d entity :
  entity ∈ L ->
  NoDup d.*1 ->
  Forall (fun kv => name kv.2 = kv.1 /\ Spec.contact_of L kv.2) d ->
  NoDup (contacts_step P d entity).*1
  /\ Forall (fun kv => name kv.2 = kv.1 /\ Spec.contact_of L kv.2)
            (contacts_step P d entity)
  /\ length (contacts_step P d entity) <= S (length d).
Proof.
  intros Hin Hnd Hall. unfold contacts_step.
  destruct (String.eqb_spec (type entity) "PERSON") as [Hp|Hnp].
  { destruct (dict_mem (value entity) d) eqn:Hm;
      [split; [done|]; split; [done | lia]|].
    split; [by apply dict_set_nodup|]. split; [|apply dict_set_length].
    apply dict_set_all; [exact Hall|]. cbn.
    split; [done|]. split; [done|]. split; [constructor|].
    left. by exists entity. }
  destruct (String.eqb_spec (type entity) "EMAIL") as [He|Hne];
    [|split; [done|]; split; [done | lia]].
  assert (Hmail : Spec.email_of L (value entity)) by (by exists entity).
  assert (Hanon :
    NoDup (dict_set ("Contact (" +:+ value entity +:+ ")")
             (Contact ("Contact (" +:+ value entity +:+ ")") [value entity]
                      [] (confidence entity) (context entity)) d).*1
    /\ Forall (fun kv => name kv.2 = kv.1 /\ Spec.contact_of L kv.2)
         (dict_set ("Contact (" +:+ value entity +:+ ")")
            (Contact ("Contact (" +:+ value entity +:+ ")") [value entity]
                     [] (confidence entity) (context entity)) d)
    /\ length (dict_set ("Contact (" +:+ value entity +:+ ")")
                 (Contact ("Contact (" +:+ value entity +:+ ")")
                          [value entity] [] (confidence entity)
                          (context entity)) d)
       <= S (length d)).
  { split; [by apply dict_set_nodup|]. split; [|apply dict_set_length].
    apply dict_set_all; [exact Hall|]. cbn.
    split; [done|]. split; [done|]. split; [by repeat constructor|].
    right. by exists (value entity). }
  destruct (closest_person P entity) as [person|]; [|exact Hanon].
  destruct (negb (is_empty person) && dict_mem person d); [|exact Hanon].
  split; [by rewrite dict_add_email_keys|].
  split; [|rewrite dict_add_email_length; lia].
  apply dict_add_email_all; [|exact Hall].
  intros c [Hname (Hph & Hem & Hfrom)]. cbn in *.
  split; [done|]. split; [done|]. split; [|done].
  apply Forall_app. split; [done | by repeat constructor].
Qed.

Lemma contacts_loop_inv L P l : forall d,
  (forall e, e ∈ l -> e ∈ L) ->
  NoDup d.*1 ->
  Forall (fun kv => name kv.2 = kv.1 /\ Spec.contact_of L kv.2) d ->
  NoDup (foldl (contacts_step P) d l).*1
  /\ Forall (fun kv => name kv.2 = kv.1 /\ Spec.contact_of L kv.2)
            (foldl (contacts_step P) d l)
  /\ length (foldl (contacts_step P) d l) <= length d + length l.
Proof.
  induction l as [|e l IH]; intros d Hsub Hnd Hall; cbn [foldl].
  - split; [done|]. split; [done | simpl; lia].
  - destruct (contacts_step_inv L P d e) as (H1 & H2 & H3);
      [apply Hsub; by left | done..|].
    destruct (IH (contacts_step P d e)) as (H4 & H5 & H6);
      [intros x Hx; apply Hsub; by right | done..|].
    split; [done|]. split; [done | simpl; lia].
Qed.

Lemma names_are_keys d :
  Forall (fun kv => name kv.2 = kv.1) d -> name <$> map snd d = d.*1.
Proof.
  induction 1 as [|[k c] d Hk Hd IH]; [done|].
  cbn [map]. rewrite !fmap_cons, IH. cbn in *. by rewrite Hk.
Qed.

End Contacts.

(** X26. The contacts of [/people], whatever the entities: no contact
    ever has a phone number, although PHONE entities are counted in
    [total_people_entities]; the names of the contacts are pairwise
    distinct; the name of a contact is the value of a PERSON entity or
    [Contact (address)] for the value of an EMAIL entity, and its e-mail
    addresses are values of EMAIL entities; there are at most as many
    contacts as people entities. *)
Theorem people_contacts (txt : string) (result : extraction) :
  Routes.total_people_entities (Routes.people txt result)
  = length (List.filter
              (EntityExtractionService.type_in ["PERSON"; "EMAIL"; "PHONE"])
              (entities result))
  /\ Routes.people_text_length (Routes.people txt result) = String.length txt
  /\ NoDup (Routes.name <$> Routes.contacts (Routes.people txt result))
  /\ Forall (Spec.contact_of (entities result))
            (Routes.contacts (Routes.people txt result))
  /\ length (Routes.contacts (Routes.people txt result))
     <= Routes.total_people_entities (Routes.people txt result).
Proof.
  unfold Routes.people. cbn zeta.
  cbn [Routes.total_people_entities Routes.people_text_length Routes.contacts].
  set (people_entities := List.filter _ (entities result)).
  destruct (contacts_loop_inv (entities result) people_entities
              people_entities [])
    as (Hnd & Hall & Hlen).
  { intros e He. subst people_entities.
    by apply list_elem_of_In, filter_In in He as [He%list_elem_of_In _]. }
  { constructor. }
  { constructor. }
  split; [reflexivity|]. split; [reflexivity|].
  split; [|split].
  - rewrite names_are_keys; [exact Hnd|].
    eapply Forall_impl; [exact Hall|]. by intros kv [? _].
  - apply Forall_map. eapply Forall_impl; [exact Hall|]. by intros kv [_ ?].
  - rewrite length_map. simpl in Hlen. lia.
Qed.

(** ** The routes over [NERService] *)

Section RecognizerTypes.

Import PyStr Re EntityExtractionService.

Variable env : externals.
Variable txt : string.

Lemma emails_type :
  Forall (fun e => type e = "EMAIL") (_extract_emails env txt).
Proof.
  apply List.Forall_forall. intros e He. unfold _extract_emails in He.
  apply in_map_iff in He as (m & <- & _).
  by destruct (validate_email env _).
Qed.

Lemma phones_type :
  Forall (fun e => type e = "PHONE") (_extract_phone_numbers env txt).
Proof.
  apply List.Forall_forall. intros e He. unfold _extract_phone_numbers in He.
  apply in_flat_map in He as (p & _ & He).
  apply list_elem_of_In, list_elem_of_omap in He as (m & _ & He).
  destruct (phone_check env _); [|done|]; by injection He as <-.
Qed.

Lemma urls_type : Forall (fun e => type e = "URL") (_extract_urls txt).
Proof.
  apply List.Forall_forall. intros e He. unfold _extract_urls in He.
  by apply in_map_iff in He as (m & <- & _).
Qed.

Lemma dates_type : Forall (fun e => type e = "DATE") (_extract_dates env txt).
Proof.
  apply List.Forall_forall. intros e He. unfold _extract_dates in He.
  apply in_flat_map in He as (p & _ & He).
  apply list_elem_of_In, list_elem_of_omap in He as (m & _ & He).
  destruct (_parse_date env _); [|done]. by injection He as <-.
Qed.

Lemma times_type : Forall (fun e => type e = "TIME") (_extract_times txt).
Proof.
  apply List.Forall_forall. intros e He. unfold _extract_times in He.
  apply in_flat_map in He as (p & _ & He).
  by apply in_map_iff in He as (m & <- & _).
Qed.

(** A filter on the type keeps all of a list of one type or nothing of
    it. *)
Lemma filter_of_type (types : list string) (t : string)
    (l : list ExtractedEntity) :
  Forall (fun e => type e = t) l ->
  List.filter (type_in types) l
  = if existsb (String.eqb t) types then l else [].
Proof.
  induction 1 as [|e l He Hl IH]; [by destruct (existsb _ types)|].
  cbn [List.filter]. unfold type_in at 1. rewrite He, IH.
  by destruct (existsb _ types).
Qed.

Lemma count_of_type_all (t u : string) (l : list ExtractedEntity) :
  Forall (fun e => type e = t) l ->
  Routes.count_of_type u l = if String.eqb t u then length l else 0.
Proof.
  unfold Routes.count_of_type.
  induction 1 as [|e l He Hl IH]; [by destruct (String.eqb t u)|].
  cbn [List.filter]. rewrite He.
  destruct (String.eqb t u); simpl; [by f_equal | done].
Qed.

End RecognizerTypes.

Section OverNER.

Import PyStr EntityExtractionService Routes.

Implicit Types (d : list (string * contact)) (e : ExtractedEntity)
  (L P l : list ExtractedEntity).

(** Over [NERService] the entities of a result are the recognizers'
    finds, and there is none on a blank text. *)
Lemma composed_entities (md : NERService.models) (env : externals)
    (txt : string) (include_calendar : bool) (r : extraction) :
  ner_extract env = NERService.extract_entities_default md ->
  outcome (extract_entities env txt include_calendar) = inr r ->
  (is_empty (strip txt) = true /\ entities r = [])
  \/ (Spec.not_blank txt /\ entities r = Spec.pattern_entities env txt).
Proof.
  intros Hner Hr.
  destruct (is_empty (strip txt)) eqn:Hblank.
  - left. unfold extract_entities in Hr. rewrite Hblank in Hr.
    by injection Hr as <-.
  - right. split; [exact Hblank|].
    destruct (extract_entities_returns env txt include_calendar r Hblank Hr)
      as (dd & nl & ne & Hd & Hnl & Hconv & Hents & _).
    rewrite Hner in Hd.
    destruct (ner_service_result md txt dd Hd) as [_ Hnone].
    unfold ner_entities_of in Hnl. rewrite Hnone in Hnl.
    injection Hnl as <-. inversion Hconv; subst. exact Hents.
Qed.

Lemma str_app_inv_l (p x y : string) : p +:+ x = p +:+ y -> x = y.
Proof.
  induction p as [|a p IH]; [by rewrite !str_app_nil_l|].
  rewrite !str_app_cons. intros [= H]. by apply IH.
Qed.

Lemma anonymous_name_inj (x y : string) :
  Spec.anonymous_name x = Spec.anonymous_name y -> x = y.
Proof.
  unfold Spec.anonymous_name. intros H.
  apply str_app_inv_l in H. by apply str_app_inv_r in H.
Qed.

Lemma dict_set_keeps_keys key (v : contact) d (k : string) :
  k ∈ d.*1 -> k ∈ (dict_set key v d).*1.
Proof.
  rewrite dict_set_keys. destruct (dict_mem key d); [done|].
  intros H. apply elem_of_app. by left.
Qed.

Lemma dict_set_has_key key (v : contact) d : key ∈ (dict_set key v d).*1.
Proof.
  rewrite dict_set_keys. destruct (dict_mem key d) eqn:Hm.
  - by apply dict_mem_true.
  - apply elem_of_app. right. by left.
Qed.

(** Without a PERSON entity every e-mail address gets a contact of its
    own, and nothing else gets one. *)
Lemma contacts_loop_anonymous L P l :
  List.filter (type_in ["PERSON"]) P = [] ->
  forall d,
  (forall e, e ∈ l -> e ∈ L /\ type e <> "PERSON") ->
  Forall (fun kv => name kv.2 = kv.1 /\ Spec.anonymous_contact L kv.2) d ->
  Forall (fun kv => name kv.2 = kv.1 /\ Spec.anonymous_contact L kv.2)
         (foldl (contacts_step P) d l)
  /\ (forall k, k ∈ d.*1 -> k ∈ (foldl (contacts_step P) d l).*1)
  /\ (forall e, e ∈ l -> type e = "EMAIL" ->
                Spec.anonymous_name (value e)
                ∈ (foldl (contacts_step P) d l).*1).
Proof.
  intros HP. induction l as [|e l IH]; intros d Hl Hd; cbn [foldl].
  - split; [done|]. split; [done|]. intros e He. by apply elem_of_nil in He.
  - destruct (Hl e) as [HeL Hnp]; [by left|].
    assert (Hstep : contacts_step P d e
                    = if String.eqb (type e) "EMAIL"
                      then dict_set (Spec.anonymous_name (value e))
                             (Contact (Spec.anonymous_name (value e))
                                      [value e] [] (confidence e) (context e))
                             d
                      else d).
    { unfold contacts_step, closest_person. rewrite HP. cbn [foldl fst].
      destruct (String.eqb_spec (type e) "PERSON"); [done|].
      by destruct (String.eqb (type e) "EMAIL"). }
    rewrite Hstep. clear Hstep.
    destruct (String.eqb_spec (type e) "EMAIL") as [He|Hne].
    + destruct (IH (dict_set (Spec.anonymous_name (value e))
                      (Contact (Spec.anonymous_name (value e)) [value e] []
                               (confidence e) (context e)) d))
        as (H1 & H2 & H3).
      { intros x Hx. apply Hl. by right. }
      { apply dict_set_all; [exact Hd|]. cbn. split; [done|].
        exists (value e). split; [by exists e | done]. }
      split; [exact H1|]. split.
      * intros k Hk. by apply H2, dict_set_keeps_keys.
      * intros x Hx Hxe. apply elem_of_cons in Hx as [->|Hx].
        -- apply H2, dict_set_has_key.
        -- by apply H3.
    + destruct (IH d) as (H1 & H2 & H3);
        [intros x Hx; apply Hl; by right | exact Hd |].
      split; [exact H1|]. split; [exact H2|].
      intros x Hx Hxe. apply elem_of_cons in Hx as [->|Hx]; [done|].
      by apply H3.
Qed.

End OverNER.

(** X27. The routes over [NERService], for a call of [extract_entities]
    that returns: [/locations] never finds a location; every contact of
    [/people] is an anonymous one, [Contact (address)] with that address
    alone and no phone number, and every e-mail address found has one;
    on a text that is not blank the temporal entities of [/dates] are
    the finds of the date recognizer followed by those of the time
    recognizer, and the two counts are their numbers. *)
Theorem routes_over_ner_service (md : NERService.models) (env : externals)
    (txt : string) (r : extraction) :
  ner_extract env = NERService.extract_entities_default md ->
  outcome (EntityExtractionService.extract_entities env txt false) = inr r ->
  Routes.locations (Routes.locations_of txt r) = []
  /\ Routes.location_count (Routes.locations_of txt r) = 0
  /\ Forall (Spec.anonymous_contact (entities r))
            (Routes.contacts (Routes.people txt r))
  /\ (forall email : string,
        Spec.email_of (entities r) email ->
        exists c : Routes.contact,
          c ∈ Routes.contacts (Routes.people txt r)
          /\ Routes.name c = Spec.anonymous_name email
          /\ Routes.emails c = [email])
  /\ (Spec.not_blank txt ->
      Routes.temporal_entities (Routes.dates txt r)
      = EntityExtractionService._extract_dates env txt
        ++ EntityExtractionService._extract_times txt
      /\ Routes.date_count (Routes.dates txt r)
         = length (EntityExtractionService._extract_dates env txt)
      /\ Routes.time_count (Routes.dates txt r)
         = length (EntityExtractionService._extract_times txt)).
Proof.
  intros Hner Hr.
  assert (Hfilter : forall types : list string,
            List.filter (EntityExtractionService.type_in types) (entities r)
            = List.filter (EntityExtractionService.type_in types)
                (if PyStr.is_empty (PyStr.strip txt) then []
                 else Spec.pattern_entities env txt)).
  { intros types.
    destruct (composed_entities md env txt false r Hner Hr)
      as [[Hb ->]|[Hb ->]]; unfold Spec.not_blank in *; by rewrite Hb. }
  assert (Hpat : forall types : list string,
            List.filter (EntityExtractionService.type_in types)
                        (Spec.pattern_entities env txt)
            = (if existsb (String.eqb "EMAIL") types
               then EntityExtractionService._extract_emails env txt else [])
              ++ (if existsb (String.eqb "PHONE") types
                  then EntityExtractionService._extract_phone_numbers env txt
                  else [])
              ++ (if existsb (String.eqb "URL") types
                  then EntityExtractionService._extract_urls txt else [])
              ++ (if existsb (String.eqb "DATE") types
                  then EntityExtractionService._extract_dates env txt else [])
              ++ (if existsb (String.eqb "TIME") types
                  then EntityExtractionService._extract_times txt else [])).
  { intros types. unfold Spec.pattern_entities.
    rewrite !List.filter_app.
    rewrite (filter_of_type types "EMAIL" _ (emails_type env txt)).
    rewrite (filter_of_type types "PHONE" _ (phones_type env txt)).
    rewrite (filter_of_type types "URL" _ (urls_type txt)).
    rewrite (filter_of_type types "DATE" _ (dates_type env txt)).
    by rewrite (filter_of_type types "TIME" _ (times_type txt)). }
  assert (Hloc : List.filter
                   (EntityExtractionService.type_in ["GPE"; "LOC"; "FAC"])
                   (entities r) = []).
  { rewrite Hfilter. destruct (PyStr.is_empty _); [done|]. by rewrite Hpat. }
  assert (Hnoperson :
            List.filter (EntityExtractionService.type_in ["PERSON"])
              (List.filter
                 (EntityExtractionService.type_in ["PERSON"; "EMAIL"; "PHONE"])
                 (entities r)) = []).
  { apply filter_none. intros e He.
    apply filter_In in He as [He Ht].
    assert (Hin : In e (List.filter
                          (EntityExtractionService.type_in ["PERSON"])
                          (entities r)) -> False).
    { rewrite Hfilter. destruct (PyStr.is_empty _); [done|].
      by rewrite Hpat. }
    destruct (EntityExtractionService.type_in ["PERSON"] e) eqn:Hp; [|done].
    exfalso. apply Hin, filter_In. by split. }
  split; [exact Hloc|].
  split; [unfold Routes.locations_of; cbn; by rewrite Hloc|].
  unfold Routes.people. cbn zeta. cbn [Routes.contacts].
  set (people_entities :=
         List.filter
           (EntityExtractionService.type_in ["PERSON"; "EMAIL"; "PHONE"])
           (entities r)) in *.
  destruct (contacts_loop_anonymous (entities r) people_entities
              people_entities Hnoperson [])
    as (Hall & _ & Hkeys).
  { intros e He. apply list_elem_of_In in He.
    pose proof He as He'. apply filter_In in He' as [HeL _].
    split; [by apply list_elem_of_In|]. intros Hp.
    assert (Hin : In e (List.filter
                          (EntityExtractionService.type_in ["PERSON"])
                          people_entities)).
    { apply filter_In. split; [exact He|].
      unfold EntityExtractionService.type_in. by rewrite Hp. }
    by rewrite Hnoperson in Hin. }
  { constructor. }
  split; [|split].
  - apply Forall_map. eapply Forall_impl; [exact Hall|]. by intros kv [_ ?].
  - intros email (e & He & Hty & <-).
    assert (Hpe : e ∈ people_entities).
    { apply list_elem_of_In, filter_In. split; [by apply list_elem_of_In|].
      unfold EntityExtractionService.type_in. by rewrite Hty. }
    specialize (Hkeys e Hpe Hty).
    apply list_elem_of_fmap in Hkeys as ([k c] & Hk & Hin).
    cbn in Hk. subst k. exists c. split.
    + apply list_elem_of_In, in_map_iff. exists (Spec.anonymous_name (value e), c).
      split; [done | by apply list_elem_of_In].
    + rewrite Forall_forall in Hall.
      destruct (Hall _ Hin) as [Hname (email' & _ & Hn & Hem & _)].
      cbn in Hname, Hn, Hem. split; [exact Hname|].
      rewrite Hname in Hn. apply anonymous_name_inj in Hn. by subst.
  - intros Hnb. unfold Spec.not_blank in Hnb.
    unfold Routes.dates. cbn zeta.
    cbn [Routes.temporal_entities Routes.date_count Routes.time_count].
    rewrite Hfilter, Hnb, Hpat. cbn [existsb String.eqb Ascii.eqb Bool.eqb orb app].
    split; [reflexivity|].
    unfold Routes.count_of_type. rewrite !List.filter_app, !length_app.
    fold (Routes.count_of_type "DATE"
            (EntityExtractionService._extract_dates env txt)).
    fold (Routes.count_of_type "DATE"
            (EntityExtractionService._extract_times txt)).
    fold (Routes.count_of_type "TIME"
            (EntityExtractionService._extract_dates env txt)).
    fold (Routes.count_of_type "TIME"
            (EntityExtractionService._extract_times txt)).
    rewrite (count_of_type_all "DATE" "DATE" _ (dates_type env txt)).
    rewrite (count_of_type_all "TIME" "DATE" _ (times_type txt)).
    rewrite (count_of_type_all "DATE" "TIME" _ (dates_type env txt)).
    rewrite (count_of_type_all "TIME" "TIME" _ (times_type txt)).
    cbn. split; lia.
Qed.

Lemma routes_over_ner_service_witness :
  exists r : extraction,
    outcome (EntityExtractionService.extract_entities Sample.env
               "Write to ada@example.org before friday at 3pm" false)
    = inr r
    /\ Routes.locations (Routes.locations_of
                           "Write to ada@example.org before friday at 3pm" r)
       = []
    /\ Forall (Spec.anonymous_contact (entities r))
              (Routes.contacts
                 (Routes.people
                    "Write to ada@example.org before friday at 3pm" r)).
Proof.
  destruct (outcome (EntityExtractionService.extract_entities Sample.env
                       "Write to ada@example.org before friday at 3pm" false))
    as [e|r] eqn:Hr.
  - exfalso.
    assert (H : match outcome (EntityExtractionService.extract_entities
                                 Sample.env
                                 "Write to ada@example.org before friday at 3pm"
                                 false) with
                | inr _ => true
                | inl _ => false
                end = true) by (vm_compute; reflexivity).
    rewrite Hr in H. discriminate H.
  - exists r. split; [reflexivity|].
    destruct (routes_over_ner_service Sample.no_models Sample.env
                "Write to ada@example.org before friday at 3pm" r
                eq_refl Hr)
      as (H1 & _ & H3 & _).
    split; [exact H1 | exact H3].
Defined.

(** ** Dates written and read back *)

Section IsoStrings.

Import PyStr PyDate.

Lemma pad_length (w : nat) : forall n : Z, String.length (pad w n) = w.
Proof.
  induction w as [|w IH]; intros n; cbn [pad]; [done|].
  rewrite str_length_app, IH. simpl. lia.
Qed.

Lemma number_from_app (s t : string) : forall acc : Z,
  number_from acc (s +:+ t)
  = match number_from acc s with
    | Some x => number_from x t
    | None => None
    end.
Proof.
  induction s as [|c s IH]; intros acc; [by rewrite str_app_nil_l|].
  rewrite str_app_cons. cbn [number_from].
  destruct (is_digit c); [apply IH | done].
Qed.

Lemma digit_char (k : Z) :
  (0 <= k < 10)%Z ->
  is_digit (ascii_of_nat (48 + Z.to_nat k)) = true
  /\ (Z.of_nat (code (ascii_of_nat (48 + Z.to_nat k))) - 48 = k)%Z.
Proof.
  intros Hk. unfold is_digit, between, code.
  rewrite nat_ascii_embedding by lia.
  split; [|lia]. apply andb_true_iff. split; apply Nat.leb_le; lia.
Qed.

Lemma number_from_pad (w : nat) : forall n acc : Z,
  (0 <= n)%Z ->
  number_from acc (pad w n)
  = Some (acc * 10 ^ Z.of_nat w + n mod 10 ^ Z.of_nat w)%Z.
Proof.
  induction w as [|w IH]; intros n acc Hn; cbn [pad].
  - cbn [number_from]. f_equal. rewrite Z.pow_0_r, Z.mod_1_r. lia.
  - rewrite number_from_app, IH by (apply Z.div_pos; lia).
    cbn [number_from].
    destruct (digit_char (n mod 10)) as [Hd Hc];
      [apply Z.mod_pos_bound; lia|].
    rewrite Hd. f_equal.
    rewrite Nat2Z.inj_succ, Z.pow_succ_r by lia.
    rewrite (Z.rem_mul_r n 10 (10 ^ Z.of_nat w))
      by (try lia; apply Z.pow_pos_nonneg; lia).
    unfold code in *. lia.
Qed.

Lemma field_of_pad (w : nat) (n : Z) :
  (0 <= n < 10 ^ Z.of_nat w)%Z -> number_from 0 (pad w n) = Some n.
Proof.
  intros Hn. rewrite number_from_pad by lia. f_equal.
  rewrite Z.mod_small by lia. lia.
Qed.

(** Where the fields of an ISO string stand. *)
Lemma iso_layout (f1 f2 f3 f4 f5 f6 rest : string) :
  String.length f1 = 4 -> String.length f2 = 2 -> String.length f3 = 2 ->
  String.length f4 = 2 -> String.length f5 = 2 -> String.length f6 = 2 ->
  let s := String.concat ""
             [f1; "-"; f2; "-"; f3; "T"; f4; ":"; f5; ":"; f6; rest] in
  slice 0 4 s = f1 /\ slice 4 5 s = "-" /\ slice 5 7 s = f2
  /\ slice 7 8 s = "-" /\ slice 8 10 s = f3 /\ slice 10 11 s = "T"
  /\ slice 11 13 s = f4 /\ slice 13 14 s = ":" /\ slice 14 16 s = f5
  /\ slice 16 17 s = ":" /\ slice 17 19 s = f6
  /\ String.length s = 19 + String.length rest
  /\ slice 19 20 s = take 1 rest
  /\ slice 20 26 s = take 6 (drop 1 rest).
Proof.
  intros H1 H2 H3 H4 H5 H6.
  destruct f1 as [|a1 [|a2 [|a3 [|a4 [|? ?]]]]]; try discriminate H1.
  destruct f2 as [|b1 [|b2 [|? ?]]]; try discriminate H2.
  destruct f3 as [|c1 [|c2 [|? ?]]]; try discriminate H3.
  destruct f4 as [|d1 [|d2 [|? ?]]]; try discriminate H4.
  destruct f5 as [|e1 [|e2 [|? ?]]]; try discriminate H5.
  destruct f6 as [|g1 [|g2 [|? ?]]]; try discriminate H6.
  cbv zeta. repeat split; reflexivity.
Qed.

End IsoStrings.

Section Calendar.

Import PyDate.

Local Open Scope Z_scope.

Lemma is_leap_true (y : Z) :
  is_leap y = true <-> y mod 4 = 0 /\ (y mod 100 <> 0 \/ y mod 400 = 0).
Proof.
  unfold is_leap.
  rewrite andb_true_iff, orb_true_iff, negb_true_iff, Z.eqb_neq, !Z.eqb_eq.
  tauto.
Qed.

Lemma is_leap_false (y : Z) :
  is_leap y = false <-> y mod 4 <> 0 \/ (y mod 100 = 0 /\ y mod 400 <> 0).
Proof.
  rewrite <- not_true_iff_false, is_leap_true.
  destruct (Z.eq_dec (y mod 4) 0), (Z.eq_dec (y mod 100) 0),
    (Z.eq_dec (y mod 400) 0); tauto.
Qed.

(** The month and the day of the day [n] of a year, counted from 0. *)
Lemma month_and_day (year : Z) (leap : bool) (n : Z) :
  0 <= n < 365 ->
  exists m d : Z,
    (let month := Z.shiftr (n + 50) 5 in
     let preceding :=
       days_before_month 1 month + (if (2 <? month) && leap then 1 else 0) in
     if n <? preceding
     then
       let month' := month - 1 in
       let preceding' :=
         preceding
         - (nth (Z.to_nat month')
                [0; 31; 28; 31; 30; 31; 30; 31; 31; 30; 31; 30; 31] 0
            + (if (month' =? 2) && leap then 1 else 0)) in
       (year, month', n - preceding' + 1)
     else (year, month, n - preceding + 1)) = (year, m, d)
    /\ 1 <= m <= 12
    /\ 1 <= d
    /\ d <= (if m =? 2 then (if leap then 29 else 28)
             else if (m =? 4) || (m =? 6) || (m =? 9) || (m =? 11) then 30
             else 31)
    /\ nth (Z.to_nat m) [0; 0; 31; 59; 90; 120; 151; 181; 212; 243; 273; 304; 334] 0
       + (if (2 <? m) && leap then 1 else 0) + d = n + 1.
Proof.
  intros Hn. rewrite Z.shiftr_div_pow2 by lia. change (2 ^ 5) with 32.
  pose proof (Z.div_mod (n + 50) 32 ltac:(lia)) as Hdm.
  pose proof (Z.mod_pos_bound (n + 50) 32 ltac:(lia)) as Hmb.
  set (month := (n + 50) / 32) in *. clearbody month.
  assert (Hcases : month = 1 \/ month = 2 \/ month = 3 \/ month = 4
                   \/ month = 5 \/ month = 6 \/ month = 7 \/ month = 8
                   \/ month = 9 \/ month = 10 \/ month = 11 \/ month = 12)
    by lia.
  cbv zeta. unfold days_before_month.
  repeat (destruct Hcases as [->|Hcases]); try subst month;
    destruct leap; simpl;
    match goal with
    | |- context [if ?n <? ?c then _ else _] =>
        destruct (Z.ltb_spec n c)
    end;
    eexists _, _; (split; [reflexivity|]); simpl; lia.
Qed.

Lemma days_before_year_cycles (a b c e : Z) :
  0 <= b <= 3 -> 0 <= c <= 24 -> 0 <= e <= 3 ->
  days_before_year (a * 400 + 1 + b * 100 + c * 4 + e)
  = a * 146097 + b * 36524 + c * 1461 + e * 365.
Proof.
  intros Hb Hc He. unfold days_before_year. cbv zeta.
  replace (a * 400 + 1 + b * 100 + c * 4 + e - 1)
    with (a * 400 + b * 100 + c * 4 + e) by lia.
  Z.div_mod_to_equations. lia.
Qed.

Lemma is_leap_cycles (a b c e : Z) :
  0 <= b <= 3 -> 0 <= c <= 24 -> 0 <= e <= 3 ->
  is_leap (a * 400 + 1 + b * 100 + c * 4 + e)
  = (e =? 3) && (negb (c =? 24) || (b =? 3)).
Proof.
  intros Hb Hc He.
  destruct (Z.eqb_spec e 3) as [He3|He3], (Z.eqb_spec c 24) as [Hc24|Hc24],
    (Z.eqb_spec b 3) as [Hb3|Hb3]; cbn [andb orb negb];
    first [ apply is_leap_true | apply is_leap_false ];
    Z.div_mod_to_equations; lia.
Qed.

(** [ord2ymd] reads an ordinal as a date of the calendar, the date
    [ymd2ord] counts back to it. *)
Lemma ord2ymd_spec (o : Z) :
  1 <= o <= MAXORDINAL ->
  exists y m d : Z,
    ord2ymd o = (y, m, d)
    /\ 1 <= y <= 9999 /\ 1 <= m <= 12 /\ 1 <= d <= days_in_month y m
    /\ ymd2ord y m d = o.
Proof.
  intros Ho. unfold MAXORDINAL in Ho. unfold ord2ymd. cbv zeta.
  pose proof (Z.div_mod (o - 1) 146097 ltac:(lia)) as E400.
  pose proof (Z.mod_pos_bound (o - 1) 146097 ltac:(lia)) as B400.
  set (n400 := (o - 1) / 146097) in *.
  set (r400 := (o - 1) mod 146097) in *.
  pose proof (Z.div_mod r400 36524 ltac:(lia)) as E100.
  pose proof (Z.mod_pos_bound r400 36524 ltac:(lia)) as B100.
  set (n100 := r400 / 36524) in *. set (r100 := r400 mod 36524) in *.
  pose proof (Z.div_mod r100 1461 ltac:(lia)) as E4.
  pose proof (Z.mod_pos_bound r100 1461 ltac:(lia)) as B4.
  set (n4 := r100 / 1461) in *. set (r4 := r100 mod 1461) in *.
  pose proof (Z.div_mod r4 365 ltac:(lia)) as E1.
  pose proof (Z.mod_pos_bound r4 365 ltac:(lia)) as B1.
  set (n1 := r4 / 365) in *. set (r1 := r4 mod 365) in *.
  clearbody n400 r400 n100 r100 n4 r4 n1 r1.
  destruct ((n1 =? 4) || (n100 =? 4)) eqn:Hspecial.
  - exists (n400 * 400 + 1 + n100 * 100 + n4 * 4 + n1 - 1), 12, 31.
    split; [reflexivity|].
    apply orb_true_iff in Hspecial. rewrite !Z.eqb_eq in Hspecial.
    assert (Hleap : is_leap (n400 * 400 + 1 + n100 * 100 + n4 * 4 + n1 - 1)
                    = true).
    { apply is_leap_true. destruct Hspecial; Z.div_mod_to_equations; lia. }
    unfold ymd2ord, days_in_month, days_before_month. rewrite Hleap.
    unfold days_before_year. cbv zeta. simpl.
    split; [lia|]. split; [lia|]. split; [lia|].
    destruct Hspecial; Z.div_mod_to_equations; lia.
  - apply orb_false_iff in Hspecial as [H1 H2]. apply Z.eqb_neq in H1, H2.
    assert (Hn1 : 0 <= n1 <= 3) by lia.
    assert (Hn100 : 0 <= n100 <= 3) by lia.
    assert (Hn4 : 0 <= n4 <= 24) by lia.
    assert (Hn400 : 0 <= n400 <= 24) by lia.
    destruct (month_and_day (n400 * 400 + 1 + n100 * 100 + n4 * 4 + n1)
                ((n1 =? 3) && (negb (n4 =? 24) || (n100 =? 3))) r1
                ltac:(lia))
      as (m & d & Heq & Hm & Hd1 & Hd2 & Hsum).
    cbv zeta in Heq. rewrite Heq.
    exists (n400 * 400 + 1 + n100 * 100 + n4 * 4 + n1), m, d.
    split; [reflexivity|].
    unfold ymd2ord, days_in_month, days_before_month.
    rewrite is_leap_cycles, days_before_year_cycles by lia.
    split; [lia|]. split; [lia|]. split; [split; [lia | exact Hd2]|]. lia.
Qed.

End Calendar.

Section RoundTrip.

Import PyStr PyDate.

Lemma take_whole (s : string) : take (String.length s) s = s.
Proof.
  rewrite <- (str_app_nil_r s) at 2. apply take_app_length.
Qed.

(** What [isoformat] writes, [fromisoformat] reads back. *)
Lemma fromisoformat_isoformat (d : datetime) :
  Spec.valid_datetime d -> fromisoformat (isoformat d) = Some d.
Proof.
  intros [Ho Hus]. destruct d as [o us_]. cbn [ordinal micros] in Ho, Hus.
  destruct (ord2ymd_spec o Ho) as (y & m & day & Heq & Hy & Hm & Hday & Hback).
  unfold isoformat. cbn [ordinal micros]. rewrite Heq.
  set (us := (us_ mod 1000000)%Z). set (secs := (us_ / 1000000)%Z).
  set (rest := if (us =? 0)%Z then "" else String.append "." (pad 6 us)).
  destruct (iso_layout (pad 4 y) (pad 2 m) (pad 2 day) (pad 2 (secs / 3600))
              (pad 2 (secs / 60 mod 60)) (pad 2 (secs mod 60)) rest)
    as (S1 & S2 & S3 & S4 & S5 & S6 & S7 & S8 & S9 & S10 & S11 & Hlen
        & S12 & S13); try apply pad_length.
  cbv zeta in S1, S2, S3, S4, S5, S6, S7, S8, S9, S10, S11, Hlen, S12, S13.
  set (s := String.concat "" _) in *.
  unfold fromisoformat, field.
  rewrite S1, S2, S3, S4, S5, S6, S7, S8, S9, S10, S11, Hlen, S12, S13.
  assert (Hsecs : (0 <= secs < 86400)%Z)
    by (subst secs; Z.div_mod_to_equations; lia).
  assert (Husr : (0 <= us < 1000000)%Z)
    by (subst us; apply Z.mod_pos_bound; lia).
  assert (Hday31 : (day <= 31)%Z).
  { revert Hday. unfold days_in_month.
    destruct (m =? 2)%Z; [destruct (is_leap y); lia|].
    destruct ((m =? 4)%Z || (m =? 6)%Z || (m =? 9)%Z || (m =? 11)%Z); lia. }
  rewrite !field_of_pad
    by (change (10 ^ Z.of_nat 4)%Z with 10000%Z;
        change (10 ^ Z.of_nat 2)%Z with 100%Z;
        try lia; Z.div_mod_to_equations; lia).
  assert (Hfrac :
    (if 19 + String.length rest =? 19 then Some 0%Z
     else if (19 + String.length rest =? 26) && (take 1 rest =? ".")%string
          then number_from 0 (take 6 (drop 1 rest)) else None) = Some us).
  { subst rest. destruct (Z.eqb_spec us 0) as [->|Hne]; [reflexivity|].
    rewrite str_app_cons, str_app_nil_l.
    change (take 1 (String "." (pad 6 us))) with ".".
    change (drop 1 (String "." (pad 6 us))) with (pad 6 us).
    cbn [String.length]. rewrite pad_length. cbn [Nat.add Nat.eqb].
    cbn [andb String.eqb Ascii.eqb Bool.eqb].
    assert (Ht : take 6 (pad 6 us) = pad 6 us).
    { pose proof (take_whole (pad 6 us)) as Ht. by rewrite pad_length in Ht. }
    rewrite Ht.
    apply field_of_pad. change (10 ^ Z.of_nat 6)%Z with 1000000%Z. lia. }
  rewrite Hfrac.
  assert (Hvalid :
    (("-" =? "-")%string && ("-" =? "-")%string && ("T" =? "T")%string
     && (":" =? ":")%string && (":" =? ":")%string
     && (1 <=? y)%Z && (1 <=? m)%Z && (m <=? 12)%Z && (1 <=? day)%Z
     && (day <=? days_in_month y m)%Z && (secs / 3600 <? 24)%Z
     && (secs / 60 mod 60 <? 60)%Z && (secs mod 60 <? 60)%Z) = true).
  { cbn [String.eqb Ascii.eqb Bool.eqb andb].
    repeat (apply andb_true_iff; split);
      first [ apply Z.leb_le; lia
            | apply Z.ltb_lt; Z.div_mod_to_equations; lia ]. }
  lazy beta iota. rewrite Hvalid. f_equal. f_equal; [exact Hback|].
  subst us secs. Z.div_mod_to_equations. lia.
Qed.

End RoundTrip.

Section ParsedDates.

Import PyStr PyDate EntityExtractionService.

Local Open Scope Z_scope.

Lemma ymd2ord_range (y m d : Z) :
  1 <= y <= 9999 -> 1 <= m <= 12 -> 1 <= d <= days_in_month y m ->
  1 <= ymd2ord y m d <= MAXORDINAL.
Proof.
  intros Hy Hm Hd. unfold ymd2ord, days_before_month, MAXORDINAL.
  unfold days_in_month in Hd. unfold days_before_year. cbv zeta.
  assert (Hcases : m = 1 \/ m = 2 \/ m = 3 \/ m = 4 \/ m = 5 \/ m = 6
                   \/ m = 7 \/ m = 8 \/ m = 9 \/ m = 10 \/ m = 11 \/ m = 12)
    by lia.
  destruct (is_leap y) eqn:Hleap;
    [apply is_leap_true in Hleap | apply is_leap_false in Hleap];
    repeat (destruct Hcases as [->|Hcases]); try subst m;
    simpl in Hd |- *; Z.div_mod_to_equations; lia.
Qed.

Lemma add_days_valid (today d : datetime) (k : Z) :
  Spec.valid_datetime today -> add_days today k = Some d ->
  Spec.valid_datetime d.
Proof.
  intros [_ Hus]. unfold add_days.
  destruct ((1 <=? ordinal today + k) && (ordinal today + k <=? MAXORDINAL))
    eqn:Hr; [|done].
  intros [= <-]. apply andb_true_iff in Hr as [H1 H2].
  apply Z.leb_le in H1, H2. by split.
Qed.

Lemma add_relativedelta_valid (today d : datetime) (dy dm : Z) :
  Spec.valid_datetime today -> 0 <= dm <= 12 ->
  add_relativedelta today dy dm = Some d -> Spec.valid_datetime d.
Proof.
  intros [Ho Hus] Hdm. unfold add_relativedelta.
  destruct (ord2ymd_spec _ Ho) as (y & m & day & -> & Hy & Hm & Hday & _).
  assert (Hdim : forall y' m', 28 <= days_in_month y' m').
  { intros y' m'. unfold days_in_month.
    destruct (m' =? 2); [destruct (is_leap y'); lia|].
    destruct ((m' =? 4) || (m' =? 6) || (m' =? 9) || (m' =? 11)); lia. }
  destruct (Z.ltb_spec 12 (m + dm)) as [Hlt|Hge].
  - destruct ((1 <=? y + dy + 1) && (y + dy + 1 <=? MAXYEAR)) eqn:Hr; [|done].
    intros [= <-]. apply andb_true_iff in Hr as [H1 H2].
    apply Z.leb_le in H1, H2. unfold MAXYEAR in H2.
    split; [|exact Hus]. cbn [ordinal].
    apply ymd2ord_range; [lia | lia |].
    pose proof (Hdim (y + dy + 1) (m + dm - 12)). lia.
  - destruct ((1 <=? y + dy) && (y + dy <=? MAXYEAR)) eqn:Hr; [|done].
    intros [= <-]. apply andb_true_iff in Hr as [H1 H2].
    apply Z.leb_le in H1, H2. unfold MAXYEAR in H2.
    split; [|exact Hus]. cbn [ordinal].
    apply ymd2ord_range; [lia | lia |].
    pose proof (Hdim (y + dy) (m + dm)). lia.
Qed.

Lemma weekday_loop_valid (today : datetime) (lowered : string)
    (days : list string) (otherwise : option datetime) : forall (i : Z)
    (d : datetime),
  Spec.valid_datetime today ->
  (forall d', otherwise = Some d' -> Spec.valid_datetime d') ->
  weekday_loop today lowered i days otherwise = Some d ->
  Spec.valid_datetime d.
Proof.
  induction days as [|day days IH]; intros i d Htoday Hother; cbn [weekday_loop].
  - apply Hother.
  - destruct (str_in day lowered); [by apply add_days_valid | by apply IH].
Qed.

(** Whatever [_parse_date] returns is a datetime Python can hold. *)
Lemma parse_date_valid (env : externals) (s : string) (d : datetime) :
  Spec.valid_clock env -> _parse_date env s = Some d -> Spec.valid_datetime d.
Proof.
  intros [Hnow Hparse]. unfold _parse_date. cbv zeta.
  repeat (destruct (str_in _ (lower s));
          [first [ by apply add_days_valid
                 | apply add_relativedelta_valid; [exact Hnow | lia] ]|]).
  apply weekday_loop_valid; [exact Hnow | apply Hparse].
Qed.

End ParsedDates.

Section DateEntities.

Import PyStr EntityExtractionService.

(** A DATE entity of the recognizer holds its parsed date in ISO form,
    and [_combine_date_time] reads it back. *)
Lemma date_entity_combines (env : externals) (txt : string)
    (e : ExtractedEntity) :
  Spec.valid_clock env ->
  In e (_extract_dates env txt) ->
  exists d : PyDate.datetime,
    _parse_date env (value e) = Some d
    /\ Spec.valid_datetime d
    /\ metadata e = Some {[ "parsed_date" := MStr (PyDate.isoformat d) ]}
    /\ forall more_dates time_entities : list ExtractedEntity,
         _combine_date_time env (e :: more_dates) time_entities
         = Some (Spec.at_time_of env d time_entities).
Proof.
  intros Hclock He. unfold _extract_dates in He.
  apply in_flat_map in He as (p & _ & He).
  apply list_elem_of_In, list_elem_of_omap in He as (m & _ & He).
  destruct (_parse_date env (Re.group0 txt m)) as [d|] eqn:Hd; [|done].
  injection He as <-. exists d. cbn [value metadata of_match].
  pose proof (parse_date_valid env _ d Hclock Hd) as Hvalid.
  split; [exact Hd|]. split; [exact Hvalid|]. split; [reflexivity|].
  intros more_dates time_entities. unfold _combine_date_time.
  cbn [metadata value of_match]. rewrite lookup_singleton_eq.
  rewrite (fromisoformat_isoformat d Hvalid).
  unfold Spec.at_time_of. destruct time_entities as [|t ?]; [done|].
  by destruct (dateutil_parse env (value t)).
Qed.

End DateEntities.

(** X28. Under a clock and a fuzzy parser that give datetimes Python can
    hold, every DATE entity of the recognizer has a value that
    [_parse_date] parses; its metadata holds that date in ISO form under
    [parsed_date]; and [_combine_date_time], given the entity as the
    first date, reads the ISO text back to the same date without loss
    and returns it, at the time of day of the first TIME entity when
    the fuzzy parser reads one from its value. *)
Theorem date_entity_start_time (env : externals) (txt : string) :
  Spec.valid_clock env ->
  Forall (fun e =>
            exists d : PyDate.datetime,
              EntityExtractionService._parse_date env (value e) = Some d
              /\ Spec.valid_datetime d
              /\ metadata e
                 = Some {[ "parsed_date" := MStr (PyDate.isoformat d) ]}
              /\ PyDate.fromisoformat (PyDate.isoformat d) = Some d
              /\ forall more_dates time_entities : list ExtractedEntity,
                   EntityExtractionService._combine_date_time env
                     (e :: more_dates) time_entities
                   = Some (Spec.at_time_of env d time_entities))
         (EntityExtractionService._extract_dates env txt).
Proof.
  intros Hclock. apply List.Forall_forall. intros e He.
  destruct (date_entity_combines env txt e Hclock He)
    as (d & H1 & H2 & H3 & H4).
  exists d. split; [exact H1|]. split; [exact H2|]. split; [exact H3|].
  split; [by apply fromisoformat_isoformat | exact H4].
Qed.

Lemma date_entity_start_time_witness :
  Spec.valid_clock Sample.env
  /\ Forall (fun e =>
               exists d : PyDate.datetime,
                 EntityExtractionService._parse_date Sample.env (value e)
                 = Some d
                 /\ Spec.valid_datetime d
                 /\ metadata e
                    = Some {[ "parsed_date" := MStr (PyDate.isoformat d) ]}
                 /\ PyDate.fromisoformat (PyDate.isoformat d) = Some d
                 /\ forall more_dates time_entities : list ExtractedEntity,
                      EntityExtractionService._combine_date_time Sample.env
                        (e :: more_dates) time_entities
                      = Some (Spec.at_time_of Sample.env d time_entities))
            (EntityExtractionService._extract_dates Sample.env
               "Lunch tomorrow, review on 3/14/2025.").
Proof.
  assert (Hclock : Spec.valid_clock Sample.env).
  { split; [by vm_compute|]. intros s d Hd. discriminate Hd. }
  split; [exact Hclock|].
  exact (date_entity_start_time Sample.env
           "Lunch tomorrow, review on 3/14/2025." Hclock).
Defined.

Section EventStart.

Import PyStr EntityExtractionService.

(** A DATE entity among the recognizers' finds is a find of
    [_extract_dates]. *)
Lemma pattern_date_entity (env : externals) (txt : string)
    (e : ExtractedEntity) :
  In e (Spec.pattern_entities env txt) -> type e = "DATE" ->
  In e (_extract_dates env txt).
Proof.
  intros He Ht. unfold Spec.pattern_entities in He.
  pose proof (emails_type env txt) as H1. pose proof (phones_type env txt) as H2.
  pose proof (urls_type txt) as H3. pose proof (times_type txt) as H5.
  rewrite List.Forall_forall in H1, H2, H3, H5.
  apply in_app_or in He as [He|He]; [|apply in_app_or in He as [He|He];
    [|apply in_app_or in He as [He|He]; [|apply in_app_or in He as [He|He]]]];
    [| | |exact He|].
  - apply H1 in He. congruence.
  - apply H2 in He. congruence.
  - apply H3 in He. congruence.
  - apply H5 in He. congruence.
Qed.

Lemma type_in_single (t : string) (e : ExtractedEntity) :
  type_in [t] e = true -> type e = t.
Proof.
  unfold type_in. cbn [existsb]. rewrite orb_false_r. apply String.eqb_eq.
Qed.

End EventStart.

(** X29. Over [NERService], with a clock and a fuzzy parser that give
    datetimes Python can hold: an event whose sentence has no DATE entity
    has no start time; otherwise the start time is the date
    [_parse_date] reads from the value of the first DATE entity of the
    event, at the time of day of the first TIME entity of the event when
    the fuzzy parser reads one from its value. *)
Theorem composed_event_start_time (md : NERService.models) (env : externals)
    (txt : string) (include_calendar : bool) (r : extraction)
    (events : list CalendarEvent) :
  ner_extract env = NERService.extract_entities_default md ->
  Spec.valid_clock env ->
  outcome (EntityExtractionService.extract_entities env txt include_calendar)
  = inr r ->
  calendar_events r = Some events ->
  Forall (fun ev =>
            match List.filter (EntityExtractionService.type_in ["DATE"])
                    (ev_entities ev) with
            | [] => ev_start_time ev = None
            | e :: _ =>
                exists d : PyDate.datetime,
                  EntityExtractionService._parse_date env (value e) = Some d
                  /\ ev_start_time ev
                     = Some (Spec.at_time_of env d
                               (List.filter
                                  (EntityExtractionService.type_in ["TIME"])
                                  (ev_entities ev)))
            end) events.
Proof.
  intros Hner Hclock Hr Hev.
  destruct (PyStr.is_empty (PyStr.strip txt)) eqn:Hblank.
  - unfold EntityExtractionService.extract_entities in Hr.
    rewrite Hblank in Hr. injection Hr as <-. injection Hev as <-.
    constructor.
  - destruct (extract_entities_returns env txt include_calendar r Hblank Hr)
      as (d & nl & ne & Hd & Hnl & Hconv & Hents & _ & _ & _ & Hcal).
    rewrite Hner in Hd.
    destruct (ner_service_result md txt d Hd) as [_ Hnone].
    unfold EntityExtractionService.ner_entities_of in Hnl.
    rewrite Hnone in Hnl. injection Hnl as <-. inversion Hconv; subst.
    simpl in Hents.
    destruct include_calendar; [|by rewrite Hcal in Hev].
    rewrite Hcal in Hev. injection Hev as <-.
    apply calendar_events_all. intros raw ev Hraw Hne Hin.
    apply sentence_events_inv in Hin
      as (_ & _ & _ & _ & _ & Hse & Hstart & _).
    rewrite Hstart, Hse.
    destruct (List.filter (EntityExtractionService.type_in ["DATE"]) _)
      as [|e dates] eqn:Hf; [reflexivity|].
    assert (He : In e (e :: dates)) by (by left).
    rewrite <- Hf in He. apply filter_In in He as [He Ht].
    apply filter_In in He as [He _]. rewrite Hents in He.
    apply type_in_single in Ht.
    pose proof (pattern_date_entity env txt e He Ht) as Hdate.
    destruct (date_entity_combines env txt e Hclock Hdate)
      as (d' & Hp & _ & _ & Hc).
    exists d'. split; [exact Hp | apply Hc].
Qed.

Lemma composed_event_start_time_witness :
  exists (r : extraction) (events : list CalendarEvent),
    outcome (EntityExtractionService.extract_entities Sample.env
               "Let's have a meeting tomorrow at 3pm." true) = inr r
    /\ calendar_events r = Some events
    /\ Forall (fun ev =>
                 match List.filter (EntityExtractionService.type_in ["DATE"])
                         (ev_entities ev) with
                 | [] => ev_start_time ev = None
                 | e :: _ =>
                     exists d : PyDate.datetime,
                       EntityExtractionService._parse_date Sample.env (value e)
                       = Some d
                       /\ ev_start_time ev
                          = Some (Spec.at_time_of Sample.env d
                                    (List.filter
                                       (EntityExtractionService.type_in
                                          ["TIME"])
                                       (ev_entities ev)))
                 end) events.
Proof.
  assert (Hclock : Spec.valid_clock Sample.env).
  { split; [by vm_compute|]. intros s d Hd. discriminate Hd. }
  eexists. eexists. split; [vm_compute; reflexivity|].
  split; [vm_compute; reflexivity|].
  eapply (composed_event_start_time Sample.no_models Sample.env
           "Let's have a meeting tomorrow at 3pm." true);
    [reflexivity | exact Hclock | vm_compute; reflexivity
    | vm_compute; reflexivity].
Defined.

(** ** Relative dates, by the calendar *)

Section CalendarDays.

Import PyDate.

Local Open Scope Z_scope.

Lemma days_before_year_succ (y : Z) :
  days_before_year (y + 1)
  = days_before_year y + 365 + (if is_leap y then 1 else 0).
Proof.
  unfold days_before_year. cbv zeta.
  replace (y + 1 - 1) with y by lia.
  destruct (is_leap y) eqn:Hleap;
    [apply is_leap_true in Hleap | apply is_leap_false in Hleap];
    Z.div_mod_to_equations; lia.
Qed.

Lemma days_before_year_mono (y y' : Z) :
  y <= y' -> days_before_year y <= days_before_year y'.
Proof.
  intros Hle. unfold days_before_year. cbv zeta.
  Z.div_mod_to_equations. lia.
Qed.

(** The day of the year of a date of the calendar. *)
Lemma day_of_year_range (y m d : Z) :
  1 <= m <= 12 -> 1 <= d <= days_in_month y m ->
  1 <= days_before_month y m + d <= 365 + (if is_leap y then 1 else 0).
Proof.
  intros Hm Hd. unfold days_in_month in Hd. unfold days_before_month.
  assert (Hcases : m = 1 \/ m = 2 \/ m = 3 \/ m = 4 \/ m = 5 \/ m = 6
                   \/ m = 7 \/ m = 8 \/ m = 9 \/ m = 10 \/ m = 11 \/ m = 12)
    by lia.
  destruct (is_leap y);
    repeat (destruct Hcases as [->|Hcases]); try subst m;
    simpl in Hd |- *; lia.
Qed.

Lemma day_of_year_inj (y m d m' d' : Z) :
  1 <= m <= 12 -> 1 <= d <= days_in_month y m ->
  1 <= m' <= 12 -> 1 <= d' <= days_in_month y m' ->
  days_before_month y m + d = days_before_month y m' + d' ->
  m = m' /\ d = d'.
Proof.
  intros Hm Hd Hm' Hd'. unfold days_in_month in Hd, Hd'.
  unfold days_before_month.
  assert (Hcases : m = 1 \/ m = 2 \/ m = 3 \/ m = 4 \/ m = 5 \/ m = 6
                   \/ m = 7 \/ m = 8 \/ m = 9 \/ m = 10 \/ m = 11 \/ m = 12)
    by lia.
  assert (Hcases' : m' = 1 \/ m' = 2 \/ m' = 3 \/ m' = 4 \/ m' = 5 \/ m' = 6
                    \/ m' = 7 \/ m' = 8 \/ m' = 9 \/ m' = 10 \/ m' = 11
                    \/ m' = 12)
    by lia.
  destruct (is_leap y);
    repeat (destruct Hcases as [->|Hcases]); try subst m;
    repeat (destruct Hcases' as [->|Hcases']); try subst m';
    simpl in Hd, Hd' |- *; lia.
Qed.

Lemma ymd2ord_inj (y m d y' m' d' : Z) :
  1 <= m <= 12 -> 1 <= d <= days_in_month y m ->
  1 <= m' <= 12 -> 1 <= d' <= days_in_month y' m' ->
  ymd2ord y m d = ymd2ord y' m' d' ->
  y = y' /\ m = m' /\ d = d'.
Proof.
  intros Hm Hd Hm' Hd' Heq. unfold ymd2ord in Heq.
  pose proof (day_of_year_range y m d Hm Hd) as Hr.
  pose proof (day_of_year_range y' m' d' Hm' Hd') as Hr'.
  pose proof (days_before_year_succ y) as Hs.
  pose proof (days_before_year_succ y') as Hs'.
  assert (Hy : y = y').
  { destruct (Z.lt_trichotomy y y') as [Hlt|[Heq'|Hgt]]; [|exact Heq'|].
    - pose proof (days_before_year_mono (y + 1) y' ltac:(lia)). lia.
    - pose proof (days_before_year_mono (y' + 1) y ltac:(lia)). lia. }
  subst y'. split; [reflexivity|].
  apply (day_of_year_inj y); try assumption. lia.
Qed.

(** [ord2ymd] reads back the date [ymd2ord] counted. *)
Lemma ord2ymd_ymd2ord (y m d : Z) :
  1 <= y <= 9999 -> 1 <= m <= 12 -> 1 <= d <= days_in_month y m ->
  ord2ymd (ymd2ord y m d) = (y, m, d).
Proof.
  intros Hy Hm Hd.
  destruct (ord2ymd_spec (ymd2ord y m d) (ymd2ord_range y m d Hy Hm Hd))
    as (y0 & m0 & d0 & -> & Hy0 & Hm0 & Hd0 & Heq).
  apply ymd2ord_inj in Heq as (-> & -> & ->); done.
Qed.

Lemma days_in_month_range (y m : Z) : 28 <= days_in_month y m <= 31.
Proof.
  unfold days_in_month.
  destruct (m =? 2); [destruct (is_leap y); lia|].
  destruct ((m =? 4) || (m =? 6) || (m =? 9) || (m =? 11)); lia.
Qed.

Lemma add_days_later (today : datetime) (n : Z) :
  Spec.days_later today n (add_days today n).
Proof.
  unfold add_days, Spec.days_later. cbv zeta.
  destruct (Z.leb_spec 1 (ordinal today + n)) as [H1|H1];
    destruct (Z.leb_spec (ordinal today + n) MAXORDINAL) as [H2|H2];
    cbn [andb]; try (by split); lia.
Qed.

(** [today + relativedelta(months=1)] by the calendar. *)
Lemma next_month_by_calendar (today : datetime) (y m day : Z) :
  Spec.on_day today y m day ->
  Spec.on_clipped_day today (if m =? 12 then y + 1 else y)
    (if m =? 12 then 1 else m + 1) day (add_relativedelta today 0 1).
Proof.
  intros (Hy & Hm & Hday & Hord). unfold add_relativedelta.
  rewrite Hord, ord2ymd_ymd2ord by done.
  replace (y + 0) with y by lia.
  destruct (Z.eqb_spec m 12) as [->|Hne].
  - change (12 <? 12 + 1) with true. cbv iota beta.
    replace (12 + 1 - 12) with 1 by lia.
    pose proof (days_in_month_range (y + 1) 1) as Hdim.
    destruct (Z.leb_spec 1 (y + 1)) as [H1|H1]; [|lia].
    destruct (Z.leb_spec (y + 1) MAXYEAR) as [H2|H2]; cbn [andb];
      unfold MAXYEAR in H2; unfold Spec.on_clipped_day; [|lia].
    rewrite (Z.min_comm day). split; [|reflexivity].
    split; [lia|]. split; [lia|]. split; [lia | reflexivity].
  - destruct (Z.ltb_spec 12 (m + 1)) as [Hlt|Hge]; [lia|]. cbv iota beta.
    pose proof (days_in_month_range y (m + 1)) as Hdim.
    destruct (Z.leb_spec 1 y) as [H1|H1]; [|lia].
    destruct (Z.leb_spec y MAXYEAR) as [H2|H2]; cbn [andb];
      unfold MAXYEAR in H2; unfold Spec.on_clipped_day; [|lia].
    rewrite (Z.min_comm day). split; [|reflexivity].
    split; [lia|]. split; [lia|]. split; [lia | reflexivity].
Qed.

(** [today + relativedelta(years=1)] by the calendar. *)
Lemma next_year_by_calendar (today : datetime) (y m day : Z) :
  Spec.on_day today y m day ->
  Spec.on_clipped_day today (y + 1) m day (add_relativedelta today 1 0).
Proof.
  intros (Hy & Hm & Hday & Hord). unfold add_relativedelta.
  rewrite Hord, ord2ymd_ymd2ord by done.
  replace (m + 0) with m by lia.
  destruct (Z.ltb_spec 12 m) as [Hlt|Hge]; [lia|]. cbv iota beta.
  pose proof (days_in_month_range (y + 1) m) as Hdim.
  destruct (Z.leb_spec 1 (y + 1)) as [H1|H1]; [|lia].
  destruct (Z.leb_spec (y + 1) MAXYEAR) as [H2|H2]; cbn [andb];
    unfold MAXYEAR in H2; unfold Spec.on_clipped_day; [|lia].
  rewrite (Z.min_comm day). split; [|reflexivity].
  split; [lia|]. split; [lia|]. split; [lia | reflexivity].
Qed.

End CalendarDays.

Section WeekdayNames.

Import PyStr EntityExtractionService.

Local Open Scope Z_scope.

(** A bare weekday name takes the weekday branch, with its number. *)
Lemma parse_date_bare_weekday (env : externals) (date_text : string)
    (i : nat) (name : string) :
  ["monday"; "tuesday"; "wednesday"; "thursday"; "friday"; "saturday";
   "sunday"] !! i = Some name ->
  lower date_text = name ->
  _parse_date env date_text
  = PyDate.add_days (now env) (Spec.days_ahead (now env) (Z.of_nat i)).
Proof.
  intros Hname Hlow. unfold _parse_date. cbv zeta. rewrite Hlow.
  do 7 (destruct i as [|i]; [injection Hname as <-; reflexivity|]).
  done.
Qed.

Lemma bare_weekday_next (env : externals) (date_text : string)
    (i : nat) (name : string) :
  ["monday"; "tuesday"; "wednesday"; "thursday"; "friday"; "saturday";
   "sunday"] !! i = Some name ->
  lower date_text = name ->
  exists k : Z,
    Spec.days_later (now env) k (_parse_date env date_text)
    /\ 1 <= k <= 7
    /\ (PyDate.weekday (now env) + k) mod 7 = Z.of_nat i
    /\ (forall j : Z,
          1 <= j < k -> (PyDate.weekday (now env) + j) mod 7 <> Z.of_nat i)
    /\ (PyDate.weekday (now env) = Z.of_nat i -> k = 7)
    /\ (forall d : PyDate.datetime,
          _parse_date env date_text = Some d ->
          PyDate.weekday d = Z.of_nat i
          /\ PyDate.ordinal (now env) < PyDate.ordinal d
             <= PyDate.ordinal (now env) + 7).
Proof.
  intros Hname Hlow.
  rewrite (parse_date_bare_weekday env date_text i name Hname Hlow).
  assert (Hi : 0 <= Z.of_nat i < 7).
  { apply lookup_lt_Some in Hname. simpl in Hname. lia. }
  destruct (days_ahead_next (PyDate.weekday (now env)) (Z.of_nat i)
              (weekday_range (now env)) Hi
              (Spec.days_ahead (now env) (Z.of_nat i)) eq_refl)
    as (Hrange & Hmod & Hleast & Hsame).
  exists (Spec.days_ahead (now env) (Z.of_nat i)).
  split; [apply add_days_later|]. split; [exact Hrange|].
  split; [exact Hmod|]. split; [exact Hleast|]. split; [exact Hsame|].
  intros d Hd. apply add_days_some in Hd as (Ho & _ & Hw).
  split; [by rewrite Hw | lia].
Qed.

End WeekdayNames.

(** C6. [_parse_date] tries the literal keywords first, in the order
    tomorrow, yesterday, next week, next month, next year, whatever
    weekday names the text holds. Tomorrow is the day after today,
    yesterday the day before, next week the day 7 days on, each at the
    time of day of today. When today is day [day] of month [m] of year
    [y], next month is that day of the month after (of January of the
    year after when [m] is 12) and next year that day of the same month
    of the year after, in both cases the last day of the month when the
    month is shorter, at the time of day of today. A bare weekday name,
    in any case of its letters, resolves to today + k days with k
    between 1 and 7 the least number of days that leads to that weekday:
    the result lies strictly after today, and today's own weekday gives
    today + 7 days, never today. Where Python's date range ends there is
    no result. Every datetime Python can hold is some day of some month
    of a year from 1 to 9999, and weekdays are counted from Monday, 0,
    the weekday of day 1 of the calendar. *)
Theorem parse_date_relative (env : externals) (date_text : string) :
  (Spec.contains (PyStr.lower date_text) "tomorrow" ->
   Spec.days_later (now env) 1
     (EntityExtractionService._parse_date env date_text))
  /\ (~ Spec.contains (PyStr.lower date_text) "tomorrow" ->
      Spec.contains (PyStr.lower date_text) "yesterday" ->
      Spec.days_later (now env) (-1)
        (EntityExtractionService._parse_date env date_text))
  /\ (~ Spec.contains (PyStr.lower date_text) "tomorrow" ->
      ~ Spec.contains (PyStr.lower date_text) "yesterday" ->
      Spec.contains (PyStr.lower date_text) "next week" ->
      Spec.days_later (now env) 7
        (EntityExtractionService._parse_date env date_text))
  /\ (~ Spec.contains (PyStr.lower date_text) "tomorrow" ->
      ~ Spec.contains (PyStr.lower date_text) "yesterday" ->
      ~ Spec.contains (PyStr.lower date_text) "next week" ->
      Spec.contains (PyStr.lower date_text) "next month" ->
      forall y m day : Z,
        Spec.on_day (now env) y m day ->
        Spec.on_clipped_day (now env)
          (if (m =? 12)%Z then (y + 1)%Z else y)
          (if (m =? 12)%Z then 1%Z else (m + 1)%Z) day
          (EntityExtractionService._parse_date env date_text))
  /\ (~ Spec.contains (PyStr.lower date_text) "tomorrow" ->
      ~ Spec.contains (PyStr.lower date_text) "yesterday" ->
      ~ Spec.contains (PyStr.lower date_text) "next week" ->
      ~ Spec.contains (PyStr.lower date_text) "next month" ->
      Spec.contains (PyStr.lower date_text) "next year" ->
      forall y m day : Z,
        Spec.on_day (now env) y m day ->
        Spec.on_clipped_day (now env) (y + 1)%Z m day
          (EntityExtractionService._parse_date env date_text))
  /\ Forall
       (fun '(i, name) =>
          PyStr.lower date_text = name ->
          exists k : Z,
            Spec.days_later (now env) k
              (EntityExtractionService._parse_date env date_text)
            /\ (1 <= k <= 7)%Z
            /\ ((PyDate.weekday (now env) + k) mod 7 = i)%Z
            /\ (forall j : Z,
                  (1 <= j < k)%Z ->
                  ((PyDate.weekday (now env) + j) mod 7 <> i)%Z)
            /\ (PyDate.weekday (now env) = i -> k = 7%Z)
            /\ (forall d : PyDate.datetime,
                  EntityExtractionService._parse_date env date_text = Some d ->
                  PyDate.weekday d = i
                  /\ (PyDate.ordinal (now env) < PyDate.ordinal d
                      <= PyDate.ordinal (now env) + 7)%Z))
       [(0%Z, "monday"); (1%Z, "tuesday"); (2%Z, "wednesday");
        (3%Z, "thursday"); (4%Z, "friday"); (5%Z, "saturday");
        (6%Z, "sunday")]
  /\ (Spec.valid_datetime (now env) ->
      exists y m day : Z, Spec.on_day (now env) y m day)
  /\ (forall d : PyDate.datetime,
        PyDate.weekday d = ((PyDate.ordinal d + 6) mod 7)%Z).
Proof.
  repeat rewrite <- str_in_not_contains. repeat rewrite <- str_in_contains.
  split.
  { intros H. unfold EntityExtractionService._parse_date. cbv zeta.
    rewrite H. apply add_days_later. }
  split.
  { intros H1 H2. unfold EntityExtractionService._parse_date. cbv zeta.
    rewrite H1, H2. apply add_days_later. }
  split.
  { intros H1 H2 H3. unfold EntityExtractionService._parse_date. cbv zeta.
    rewrite H1, H2, H3. apply add_days_later. }
  split.
  { intros H1 H2 H3 H4 y m day Hday.
    unfold EntityExtractionService._parse_date. cbv zeta.
    rewrite H1, H2, H3, H4. by apply next_month_by_calendar. }
  split.
  { intros H1 H2 H3 H4 H5 y m day Hday.
    unfold EntityExtractionService._parse_date. cbv zeta.
    rewrite H1, H2, H3, H4, H5. by apply next_year_by_calendar. }
  split.
  2:{ split; [|reflexivity]. intros [Hord _].
      destruct (ord2ymd_spec _ Hord) as (y & m & day & _ & Hy & Hm & Hd & He).
      by exists y, m, day. }
  repeat constructor; intros Hlow.
  - exact (bare_weekday_next env date_text 0 _ eq_refl Hlow).
  - exact (bare_weekday_next env date_text 1 _ eq_refl Hlow).
  - exact (bare_weekday_next env date_text 2 _ eq_refl Hlow).
  - exact (bare_weekday_next env date_text 3 _ eq_refl Hlow).
  - exact (bare_weekday_next env date_text 4 _ eq_refl Hlow).
  - exact (bare_weekday_next env date_text 5 _ eq_refl Hlow).
  - exact (bare_weekday_next env date_text 6 _ eq_refl Hlow).
Qed.

Section IsoResults.

Import PyDate.

Local Open Scope Z_scope.

Lemma days_later_iso (today : datetime) (n : Z) (result : option datetime)
    (s : string) :
  Spec.days_later today n result ->
  1 <= ordinal today + n <= MAXORDINAL ->
  isoformat (Datetime (ordinal today + n) (micros today)) = s ->
  option_map isoformat result = Some s.
Proof.
  intros Hres Hrange <-. destruct result as [[o us]|]; simpl in Hres.
  - destruct Hres as [Ho Hus]. cbn in Ho, Hus. by subst o us.
  - lia.
Qed.

Lemma clipped_day_iso (today : datetime) (y m day : Z)
    (result : option datetime) (s : string) :
  Spec.on_clipped_day today y m day result ->
  y <= 9999 ->
  isoformat (Datetime (ymd2ord y m (Z.min day (days_in_month y m)))
                      (micros today)) = s ->
  option_map isoformat result = Some s.
Proof.
  intros Hres Hy <-. destruct result as [[o us]|]; simpl in Hres.
  - destruct Hres as [(_ & _ & _ & Ho) Hus]. cbn in Ho, Hus. by subst o us.
  - lia.
Qed.

End IsoResults.

Lemma parse_date_relative_witness :
  PyDate.isoformat (now Sample.env_wednesday) = "2024-01-31T09:00:00"
  /\ Spec.on_day (now Sample.env_wednesday) 2024 1 31
  /\ PyDate.weekday (now Sample.env_wednesday) = 2%Z
  /\ option_map PyDate.isoformat
       (EntityExtractionService._parse_date Sample.env_wednesday "Tomorrow")
     = Some "2024-02-01T09:00:00"
  /\ option_map PyDate.isoformat
       (EntityExtractionService._parse_date Sample.env_wednesday "yesterday")
     = Some "2024-01-30T09:00:00"
  /\ option_map PyDate.isoformat
       (EntityExtractionService._parse_date Sample.env_wednesday
          "Next week, on Monday")
     = Some "2024-02-07T09:00:00"
  /\ option_map PyDate.isoformat
       (EntityExtractionService._parse_date Sample.env_wednesday "next month")
     = Some "2024-02-29T09:00:00"
  /\ option_map PyDate.isoformat
       (EntityExtractionService._parse_date Sample.env_wednesday "next year")
     = Some "2025-01-31T09:00:00"
  /\ option_map PyDate.isoformat
       (EntityExtractionService._parse_date Sample.env_wednesday "Wednesday")
     = Some "2024-02-07T09:00:00"
  /\ option_map PyDate.isoformat
       (EntityExtractionService._parse_date Sample.env_wednesday "thursday")
     = Some "2024-02-01T09:00:00"
  /\ option_map PyDate.isoformat
       (EntityExtractionService._parse_date Sample.env_wednesday "TUESDAY")
     = Some "2024-02-06T09:00:00".
Proof.
  assert (Htoday : Spec.on_day (now Sample.env_wednesday) 2024 1 31).
  { split; [lia|]. split; [lia|]. split; [by vm_compute | reflexivity]. }
  assert (Hw : PyDate.weekday (now Sample.env_wednesday) = 2%Z)
    by reflexivity.
  assert (Hin : forall s x : string,
            PyStr.str_in x s = true -> Spec.contains s x)
    by (intros s x; apply str_in_contains).
  assert (Hout : forall s x : string,
            PyStr.str_in x s = false -> ~ Spec.contains s x)
    by (intros s x; apply str_in_not_contains).
  assert (Hrange : forall n : Z,
            (-7 <= n <= 7)%Z ->
            (1 <= PyDate.ordinal (now Sample.env_wednesday) + n
             <= PyDate.MAXORDINAL)%Z).
  { intros n Hn. change (1 <= 738916 + n <= 3652059)%Z. lia. }
  split; [reflexivity|]. split; [exact Htoday|]. split; [exact Hw|].
  split.
  { destruct (parse_date_relative Sample.env_wednesday "Tomorrow")
      as (H & _).
    apply (days_later_iso (now Sample.env_wednesday) 1);
      [|apply Hrange; lia | reflexivity].
    apply H. apply Hin. reflexivity. }
  split.
  { destruct (parse_date_relative Sample.env_wednesday "yesterday")
      as (_ & H & _).
    apply (days_later_iso (now Sample.env_wednesday) (-1));
      [|apply Hrange; lia | reflexivity].
    apply H; [apply Hout | apply Hin]; reflexivity. }
  split.
  { destruct (parse_date_relative Sample.env_wednesday "Next week, on Monday")
      as (_ & _ & H & _).
    apply (days_later_iso (now Sample.env_wednesday) 7);
      [|apply Hrange; lia | reflexivity].
    apply H; [apply Hout | apply Hout | apply Hin]; reflexivity. }
  split.
  { destruct (parse_date_relative Sample.env_wednesday "next month")
      as (_ & _ & _ & H & _).
    apply (clipped_day_iso (now Sample.env_wednesday) 2024 2 31);
      [|lia | reflexivity].
    refine (H _ _ _ _ 2024%Z 1%Z 31%Z Htoday);
      first [apply Hin; reflexivity | apply Hout; reflexivity]. }
  split.
  { destruct (parse_date_relative Sample.env_wednesday "next year")
      as (_ & _ & _ & _ & H & _).
    apply (clipped_day_iso (now Sample.env_wednesday) 2025 1 31);
      [|lia | reflexivity].
    refine (H _ _ _ _ _ 2024%Z 1%Z 31%Z Htoday);
      first [apply Hin; reflexivity | apply Hout; reflexivity]. }
  split.
  { destruct (parse_date_relative Sample.env_wednesday "Wednesday")
      as (_ & _ & _ & _ & _ & H & _).
    destruct (proj1 (Forall_lookup _ _) H 2 _ eq_refl eq_refl)
      as (k & Hres & _ & _ & _ & Hsame & _).
    rewrite (Hsame Hw) in Hres.
    apply (days_later_iso _ 7 _ _ Hres); [apply Hrange; lia | reflexivity]. }
  split.
  { destruct (parse_date_relative Sample.env_wednesday "thursday")
      as (_ & _ & _ & _ & _ & H & _).
    destruct (proj1 (Forall_lookup _ _) H 3 _ eq_refl eq_refl)
      as (k & Hres & Hk & Hmod & _).
    rewrite Hw in Hmod.
    assert (k = 1%Z) as -> by (Z.div_mod_to_equations; lia).
    apply (days_later_iso _ 1 _ _ Hres); [apply Hrange; lia | reflexivity]. }
  destruct (parse_date_relative Sample.env_wednesday "TUESDAY")
    as (_ & _ & _ & _ & _ & H & _).
  destruct (proj1 (Forall_lookup _ _) H 1 _ eq_refl eq_refl)
    as (k & Hres & Hk & Hmod & _).
  rewrite Hw in Hmod.
  assert (k = 6%Z) as -> by (Z.div_mod_to_equations; lia).
  apply (days_later_iso _ 6 _ _ Hres); [apply Hrange; lia | reflexivity].
Defined.
